(** * Segment lifecycle and flush pipeline: DataCoord services and the
      DataNode rendezvous flush manager

    Shallow embedding of
    - [internal/datacoord/services.go]  (the DataCoord RPC handlers), and
    - [internal/datanode/flush_manager.go] (orderFlushQueue, injectHandler,
      rendezvousFlushManager, flushNotifyFunc),
    with the properties the specification states about them.

    Conventions.  Go [int64]/[uint64]/[int] values are [Z]; a conversion that
    can truncate is written out with [mod].  A Go pointer that may be [nil] is
    an [option].  [log.*] and tracing calls have no effect on any value the
    handlers return or store and are left out.  Handlers that read or update
    the server are state-passing functions [S -> A * S]. *)

From Stdlib Require Import ZArith String.
From stdpp Require Import gmap strings list fin_maps pretty.

Local Open Scope string_scope.
Local Open Scope list_scope.
Local Open Scope Z_scope.

(** ** Protobuf messages used by both components *)

Definition UniqueID := Z.
Definition Timestamp := Z.

(** commonpb.ErrorCode: only the two codes the handlers use. *)
Inductive ErrorCode := ErrorCode_Success | ErrorCode_UnexpectedError.

Record Status := mkStatus {
  Status_ErrorCode : ErrorCode;
  Status_Reason : string
}.

(** Modelled from the spec: commonpb.SegmentState (common.proto is not part of
    the sources); the spec's data model lists
    state ∈ {Growing, Sealed, Flushing, Flushed, Dropped}. *)
Inductive SegmentState :=
  | SegmentState_Growing
  | SegmentState_Sealed
  | SegmentState_Flushing
  | SegmentState_Flushed
  | SegmentState_Dropped.

Global Instance SegmentState_eq_dec : EqDecision SegmentState.
Proof. solve_decision. Defined.

(** commonpb.CompactionState as used by getCompactionState. *)
Inductive CompactionState :=
  | CompactionState_UndefiedState
  | CompactionState_Executing
  | CompactionState_Completed.

(** internalpb.MsgPosition: the virtual-channel position
    (channelName, msgID, timestamp); msgID is a byte string. *)
Record MsgPosition := mkMsgPosition {
  Pos_ChannelName : string;
  Pos_MsgID : string;
  Pos_Timestamp : Timestamp
}.

Global Instance MsgPosition_eq_dec : EqDecision MsgPosition.
Proof. solve_decision. Defined.

Record FieldBinlog := mkFieldBinlog {
  FieldBinlog_FieldID : UniqueID;
  FieldBinlog_Binlogs : list string
}.

Record DeltaLogInfo := mkDeltaLogInfo {
  RecordEntries : Z;
  TimestampFrom : Timestamp;
  TimestampTo : Timestamp;
  DeltaLogPath : string;
  DeltaLogSize : Z
}.

Record CheckPoint := mkCheckPoint {
  CheckPoint_SegmentID : UniqueID;
  CheckPoint_Position : option MsgPosition;
  CheckPoint_NumOfRows : Z
}.

Record SegmentStartPosition := mkSegmentStartPosition {
  StartPosition_pos : option MsgPosition;
  StartPosition_SegmentID : UniqueID
}.

Record MsgBase := mkMsgBase {
  MsgBase_MsgType : Z;
  MsgBase_MsgID : Z;
  MsgBase_Timestamp : Timestamp;
  MsgBase_SourceID : UniqueID
}.

Record SaveBinlogPathsRequest := mkSaveBinlogPathsRequest {
  SBP_Base : option MsgBase;
  SBP_SegmentID : UniqueID;
  SBP_CollectionID : UniqueID;
  SBP_Field2BinlogPaths : list FieldBinlog;
  SBP_CheckPoints : list CheckPoint;
  SBP_StartPositions : list SegmentStartPosition;
  SBP_Flushed : bool;
  SBP_Field2StatslogPaths : list FieldBinlog;
  SBP_Deltalogs : list DeltaLogInfo;
  SBP_Dropped : bool
}.

(** req.GetBase().GetSourceID(): the getters return the zero value on nil. *)
Definition GetSourceID (b : option MsgBase) : UniqueID :=
  match b with Some b => MsgBase_SourceID b | None => 0 end.

(** Go's [%d] verb on an int64. *)
Definition fmt_d (n : Z) : string := pretty n.

Module datacoord.

(** *** Messages of data_coord.proto that services.go reads or builds *)

(** datapb.SegmentInfo, with the attributes of the spec's data model. *)
Record SegmentInfo := mkSegmentInfo {
  ID : UniqueID;
  CollectionID : UniqueID;
  PartitionID : UniqueID;
  InsertChannel : string;
  NumOfRows : Z;
  State : SegmentState;
  MaxRowNum : Z;
  LastExpireTime : Timestamp;
  StartPosition : option MsgPosition;
  DmlPosition : option MsgPosition;
  Binlogs : list FieldBinlog;
  Statslogs : list FieldBinlog;
  Deltalogs : list DeltaLogInfo;
  CreatedByCompaction : bool;
  CompactionFrom : list UniqueID
}.

Record StringResponse := mkStringResponse {
  StringResponse_Status : Status;
  StringResponse_Value : string
}.

Record FlushRequest := mkFlushRequest {
  FlushRequest_DbID : UniqueID;
  FlushRequest_CollectionID : UniqueID
}.

Record FlushResponse := mkFlushResponse {
  FlushResponse_Status : Status;
  FlushResponse_DbID : UniqueID;
  FlushResponse_CollectionID : UniqueID;
  FlushResponse_SegmentIDs : list UniqueID
}.

(** Count is a uint32. *)
Record SegmentIDRequest := mkSegmentIDRequest {
  SIR_Count : Z;
  SIR_ChannelName : string;
  SIR_CollectionID : UniqueID;
  SIR_PartitionID : UniqueID
}.

Record SegmentIDAssignment := mkSegmentIDAssignment {
  SIA_SegID : UniqueID;
  SIA_ChannelName : string;
  SIA_Count : Z;
  SIA_CollectionID : UniqueID;
  SIA_PartitionID : UniqueID;
  SIA_ExpireTime : Timestamp;
  SIA_Status : option Status
}.

Record AssignSegmentIDResponse := mkAssignSegmentIDResponse {
  ASR_SegIDAssignments : list SegmentIDAssignment;
  ASR_Status : Status
}.

(** The segment manager's Allocation record. *)
Record Allocation := mkAllocation {
  Allocation_SegmentID : UniqueID;
  Allocation_NumOfRows : Z;
  Allocation_ExpireTime : Timestamp
}.

Record SegmentStateInfo := mkSegmentStateInfo {
  SSI_SegmentID : UniqueID;
  SSI_State : option SegmentState;
  SSI_StartPosition : option MsgPosition;
  SSI_Status : Status
}.

Record GetSegmentStatesResponse := mkGetSegmentStatesResponse {
  GSS_Status : Status;
  GSS_States : list SegmentStateInfo
}.

Record GetInsertBinlogPathsResponse := mkGetInsertBinlogPathsResponse {
  GIB_FieldIDs : list UniqueID;
  GIB_Paths : list (list string);
  GIB_Status : Status
}.

(** GetCollectionStatisticsResponse and GetPartitionStatisticsResponse have
    the same shape: a status and key/value pairs. *)
Record StatisticsResponse := mkStatisticsResponse {
  Stats_Status : Status;
  Stats_Stats : list (string * string)
}.

Record GetSegmentInfoResponse := mkGetSegmentInfoResponse {
  GSI_Status : Status;
  GSI_Infos : list SegmentInfo
}.

Inductive StateCode := StateCode_Initializing | StateCode_Healthy | StateCode_Abnormal.

Record ComponentInfo := mkComponentInfo {
  CI_NodeID : UniqueID;
  CI_Role : string;
  CI_StateCode : StateCode
}.

Record ComponentStates := mkComponentStates {
  CS_State : ComponentInfo;
  CS_Status : Status
}.

Record SegmentBinlogs := mkSegmentBinlogs {
  SB_SegmentID : UniqueID;
  SB_FieldBinlogs : list FieldBinlog;
  SB_NumOfRows : Z;
  SB_Statslogs : list FieldBinlog;
  SB_Deltalogs : list DeltaLogInfo
}.

Record VchannelInfo := mkVchannelInfo {
  VI_CollectionID : UniqueID;
  VI_ChannelName : string;
  VI_SeekPosition : option MsgPosition;
  VI_UnflushedSegments : list SegmentInfo;
  VI_FlushedSegments : list SegmentInfo
}.

Record GetRecoveryInfoRequest := mkGetRecoveryInfoRequest {
  GRI_CollectionID : UniqueID;
  GRI_PartitionID : UniqueID
}.

Record GetRecoveryInfoResponse := mkGetRecoveryInfoResponse {
  GRR_Status : Status;
  GRR_Channels : list VchannelInfo;
  GRR_Binlogs : list SegmentBinlogs
}.

Record GetFlushedSegmentsRequest := mkGetFlushedSegmentsRequest {
  GFS_CollectionID : UniqueID;
  GFS_PartitionID : UniqueID
}.

Record GetFlushedSegmentsResponse := mkGetFlushedSegmentsResponse {
  GFR_Status : Status;
  GFR_Segments : list UniqueID
}.

(** milvuspb.GetMetricsResponse; Response is the JSON text. *)
Record GetMetricsResponse := mkGetMetricsResponse {
  GMR_Status : Status;
  GMR_Response : string;
  GMR_ComponentName : string
}.

(** datapb.CompactionResult: the fields services.go touches. *)
Record CompactionResult := mkCompactionResult {
  CR_PlanID : UniqueID;
  CR_SegmentID : UniqueID
}.

Record ManualCompactionRequest := mkManualCompactionRequest {
  MCR_CollectionID : UniqueID;
  MCR_Timetravel : Timestamp
}.

Record ManualCompactionResponse := mkManualCompactionResponse {
  MCResp_Status : Status;
  MCResp_CompactionID : UniqueID
}.

Record GetCompactionStateResponse := mkGetCompactionStateResponse {
  GCS_Status : Status;
  GCS_State : CompactionState;
  GCS_ExecutingPlanNo : Z;
  GCS_TimeoutPlanNo : Z;
  GCS_CompletedPlanNo : Z
}.

Record CompactionMergeInfo := mkCompactionMergeInfo {
  CMI_Sources : list UniqueID;
  CMI_Target : UniqueID
}.

Record GetCompactionPlansResponse := mkGetCompactionPlansResponse {
  GCP_Status : Status;
  GCP_State : CompactionState;
  GCP_MergeInfos : list CompactionMergeInfo
}.

Record WatchChannelsRequest := mkWatchChannelsRequest {
  WCR_CollectionID : UniqueID;
  WCR_ChannelNames : list string
}.

Record WatchChannelsResponse := mkWatchChannelsResponse {
  WCResp_Status : Status
}.

(** The [channel] struct handed to channelManager.Watch. *)
Record channel := mkchannel {
  channel_Name : string;
  channel_CollectionID : UniqueID
}.

(** *** compaction tasks *)

(** Modelled from the spec: the compactionTaskState enumeration
    (compaction.go is not part of the sources); the spec's CompactionTask has
    state ∈ {Pipelining, Executing, Completed, Timeout, Failed}. *)
Inductive compactionTaskState := pipelining | executing | completed | timeout | failed.

Global Instance compactionTaskState_eq_dec : EqDecision compactionTaskState.
Proof. solve_decision. Defined.

(** compactionTask: plan is reduced to the segment ids of
    plan.GetSegmentBinlogs(), result to its segment id. *)
Record compactionTask := mkcompactionTask {
  triggerSignalID : UniqueID;
  plan_SegmentBinlogs : list UniqueID;
  state : compactionTaskState;
  result : option CompactionResult
}.

(** The loop of getCompactionState: one switch per task. The counters are Go
    [int]s bounded by len(tasks), so they cannot wrap. *)
Definition countTask (acc : Z * Z * Z) (t : compactionTask) : Z * Z * Z :=
  let '(executingCnt, completedCnt, timeoutCnt) := acc in
  match state t with
  | executing => (executingCnt + 1, completedCnt, timeoutCnt)
  | completed => (executingCnt, completedCnt + 1, timeoutCnt)
  | timeout => (executingCnt, completedCnt, timeoutCnt + 1)
  | _ => acc
  end.

Definition getCompactionState (tasks : list compactionTask)
  : CompactionState * Z * Z * Z :=
  let '(executingCnt, completedCnt, timeoutCnt) := foldl countTask (0, 0, 0) tasks in
  let state :=
    if bool_decide (executingCnt ≠ 0) then CompactionState_Executing
    else CompactionState_Completed in
  (state, executingCnt, completedCnt, timeoutCnt).

Definition getCompactionMergeInfo (task : compactionTask) : CompactionMergeInfo :=
  let sources := plan_SegmentBinlogs task in
  let target := match result task with Some r => CR_SegmentID r | None => -1 end in
  {| CMI_Sources := sources; CMI_Target := target |}.

(** *** The server and its components

    services.go is the RPC surface of the [Server] struct; the components it
    calls (meta, segment manager, channel manager, cluster, compaction
    trigger and handler, root coordinator client, metrics cache) are
    declared in other files.  Each component is an interface over the server
    state [S]; every handler below is written against these interfaces, so a
    result proved for a handler holds for every implementation of them.
    Queries that only read the state are functions of [S]; operations that
    may update it return the new state. *)

Definition error := string.

Inductive outcome (A : Type) :=
  | Ok (a : A)
  | Err (e : error).
Arguments Ok {A} a.
Arguments Err {A} e.

(** Package-level constants and the Params table. *)
Class Consts := {
  ServerStateInitializing : Z;
  ServerStateHealthy : Z;
  serverNotServingErrMsg : string;
  msgDataCoordIsUnhealthy : UniqueID → string;
  Params_TimeTickChannelName : string;
  Params_StatisticsChannelName : string;
  Params_SegmentInfoChannelName : string;
  Params_NodeID : UniqueID;
  Params_EnableCompaction : bool;
  (* metricsinfo *)
  ParseMetricType : string → outcome string;
  SystemInfoMetrics : string;
  MsgUnimplementedMetric : string
}.

Record collectionInfo := mkcollectionInfo {
  coll_ID : UniqueID;
  coll_Partitions : list UniqueID
}.

(** Fields and methods of [Server] itself that live in server.go. *)
Class ServerOps (S : Type) := {
  (* atomic.LoadInt64(&s.isServing) *)
  isServing : S → Z;
  (* s.flushCh <- id *)
  flushCh_send : UniqueID → S → S;
  GetCollection : UniqueID → S → option collectionInfo * S;
  GetVChanPositions : string → UniqueID → UniqueID → S → VchannelInfo;
  getSystemInfoMetrics : string → S → option GetMetricsResponse * option error * S
}.

(** s.meta *)
Class Meta (S : Type) := {
  GetSegment : UniqueID → S → option SegmentInfo;
  GetNumRowsOfCollection : UniqueID → S → Z;
  GetNumRowsOfPartition : UniqueID → UniqueID → S → Z;
  GetSegmentsByChannel : string → S → list SegmentInfo;
  GetSegmentsIDOfCollection : UniqueID → S → list UniqueID;
  GetSegmentsIDOfPartition : UniqueID → UniqueID → S → list UniqueID;
  UpdateFlushSegmentsInfo :
    UniqueID → bool → bool → list FieldBinlog → list FieldBinlog →
    list DeltaLogInfo → list CheckPoint → list SegmentStartPosition →
    S → option error * S
}.

(** s.segmentManager (interface Manager) *)
Class Manager (S : Type) := {
  AllocSegment : UniqueID → UniqueID → string → Z → S → outcome (list Allocation) * S;
  DropSegment : UniqueID → S → S;
  SealAllSegments : UniqueID → S → outcome (list UniqueID) * S;
  DropSegmentsOfChannel : string → S → S
}.

(** s.channelManager and s.cluster *)
Class ChannelManager (S : Type) := {
  Match : UniqueID → string → S → bool;
  RemoveChannel : string → S → option error * S;
  channelManager_Watch : channel → S → option error * S;
  (* s.cluster.Watch; its error result is dropped by the caller *)
  cluster_Watch : string → UniqueID → S → S
}.

(** s.compactionTrigger, s.compactionHandler and getTimetravelReverseTime
    (which asks s.allocator for a timestamp). *)
Class Compaction (S : Type) := {
  getTimetravelReverseTime : S → outcome Timestamp * S;
  triggerSingleCompaction :
    UniqueID → UniqueID → UniqueID → string → Timestamp → S → option error * S;
  forceTriggerCompaction : UniqueID → Timestamp → S → outcome UniqueID * S;
  completeCompaction : CompactionResult → S → option error * S;
  getCompactionTasksBySignalID : UniqueID → S → list compactionTask
}.

(** s.rootCoordClient.DescribeCollection followed by VerifyResponse: the
    virtual channel names, or the error; and s.metricsCacheManager. *)
Class Remote (S : Type) := {
  DescribeCollection : UniqueID → S → outcome (list string) * S;
  GetSystemInfoMetrics : S → option GetMetricsResponse * option error;
  UpdateSystemInfoMetrics : option GetMetricsResponse → S → S
}.

Section services.
Context `{Consts} {S : Type}.
Context `{!ServerOps S, !Meta S, !Manager S, !ChannelManager S, !Compaction S, !Remote S}.

(** checks whether server in Healthy State *)
Definition isClosed (s : S) : bool :=
  bool_decide (isServing s ≠ ServerStateHealthy).

(** GetTimeTickChannel legacy API, returns time tick channel name *)
Definition GetTimeTickChannel (s : S) : StringResponse * S :=
  ({| StringResponse_Status := mkStatus ErrorCode_Success "";
      StringResponse_Value := Params_TimeTickChannelName |}, s).

(** GetStatisticsChannel legacy API, returns statistics channel name *)
Definition GetStatisticsChannel (s : S) : StringResponse * S :=
  ({| StringResponse_Status := mkStatus ErrorCode_Success "";
      StringResponse_Value := Params_StatisticsChannelName |}, s).

(** GetSegmentInfoChannel legacy API, returns segment info statistics channel *)
Definition GetSegmentInfoChannel (s : S) : StringResponse * S :=
  ({| StringResponse_Status := mkStatus ErrorCode_Success "";
      StringResponse_Value := Params_SegmentInfoChannelName |}, s).

(** Flush notify segment to flush *)
Definition Flush (req : FlushRequest) (s : S) : FlushResponse * S :=
  if isClosed s then
    ({| FlushResponse_Status := mkStatus ErrorCode_UnexpectedError serverNotServingErrMsg;
        FlushResponse_DbID := 0; FlushResponse_CollectionID := 0;
        FlushResponse_SegmentIDs := [] |}, s)
  else
    match SealAllSegments (FlushRequest_CollectionID req) s with
    | (Err err, s1) =>
        ({| FlushResponse_Status :=
              mkStatus ErrorCode_UnexpectedError
                ("failed to flush " +:+ fmt_d (FlushRequest_CollectionID req) +:+ ", " +:+ err);
            FlushResponse_DbID := 0; FlushResponse_CollectionID := 0;
            FlushResponse_SegmentIDs := [] |}, s1)
    | (Ok sealedSegments, s1) =>
        ({| FlushResponse_Status := mkStatus ErrorCode_Success "";
            FlushResponse_DbID := FlushRequest_DbID req;
            FlushResponse_CollectionID := FlushRequest_CollectionID req;
            FlushResponse_SegmentIDs := sealedSegments |}, s1)
    end.

(** uint32(x) of an int64 *)
Definition to_uint32 (x : Z) : Z := x mod 2 ^ 32.

(** The inner loop of AssignSegmentID: one assignment per allocation. *)
Definition assignmentOf (r : SegmentIDRequest) (allocation : Allocation) : SegmentIDAssignment :=
  {| SIA_SegID := Allocation_SegmentID allocation;
     SIA_ChannelName := SIR_ChannelName r;
     SIA_Count := to_uint32 (Allocation_NumOfRows allocation);
     SIA_CollectionID := SIR_CollectionID r;
     SIA_PartitionID := SIR_PartitionID r;
     SIA_ExpireTime := Allocation_ExpireTime allocation;
     SIA_Status := Some (mkStatus ErrorCode_Success "") |}.

(** The outer loop of AssignSegmentID over req.SegmentIDRequests. *)
Fixpoint assignLoop (reqs : list SegmentIDRequest) (assigns : list SegmentIDAssignment)
    (s : S) : list SegmentIDAssignment * S :=
  match reqs with
  | [] => (assigns, s)
  | r :: reqs' =>
      match GetCollection (SIR_CollectionID r) s with
      | (None, s1) => assignLoop reqs' assigns s1
      | (Some _, s1) =>
          let s2 := cluster_Watch (SIR_ChannelName r) (SIR_CollectionID r) s1 in
          match AllocSegment (SIR_CollectionID r) (SIR_PartitionID r)
                             (SIR_ChannelName r) (SIR_Count r) s2 with
          | (Err _, s3) => assignLoop reqs' assigns s3
          | (Ok allocations, s3) =>
              assignLoop reqs' (assigns ++ map (assignmentOf r) allocations) s3
          end
      end
  end.

(** AssignSegmentID applies for segment ids and make allocation for records *)
Definition AssignSegmentID (reqs : list SegmentIDRequest) (s : S)
  : AssignSegmentIDResponse * S :=
  if isClosed s then
    ({| ASR_SegIDAssignments := [];
        ASR_Status := mkStatus ErrorCode_UnexpectedError serverNotServingErrMsg |}, s)
  else
    let '(assigns, s1) := assignLoop reqs [] s in
    ({| ASR_SegIDAssignments := assigns;
        ASR_Status := mkStatus ErrorCode_Success "" |}, s1).

(** The requests of one AssignSegmentID call that get an allocation: the
    collection is known and AllocSegment succeeds, in the state the loop has
    reached.  (Used to state what the response adds up to.) *)
Fixpoint servedRequests (reqs : list SegmentIDRequest) (s : S) : list SegmentIDRequest :=
  match reqs with
  | [] => []
  | r :: reqs' =>
      match GetCollection (SIR_CollectionID r) s with
      | (None, s1) => servedRequests reqs' s1
      | (Some _, s1) =>
          let s2 := cluster_Watch (SIR_ChannelName r) (SIR_CollectionID r) s1 in
          match AllocSegment (SIR_CollectionID r) (SIR_PartitionID r)
                             (SIR_ChannelName r) (SIR_Count r) s2 with
          | (Err _, s3) => servedRequests reqs' s3
          | (Ok _, s3) => r :: servedRequests reqs' s3
          end
      end
  end.

Definition requestedCount (reqs : list SegmentIDRequest) : Z :=
  foldr (fun r acc => SIR_Count r + acc) 0 reqs.

Definition assignedCount (assigns : list SegmentIDAssignment) : Z :=
  foldr (fun a acc => SIA_Count a + acc) 0 assigns.

(** GetSegmentStates returns segments state *)
Definition segmentStateOf (s : S) (segmentID : UniqueID) : SegmentStateInfo :=
  match GetSegment segmentID s with
  | None =>
      {| SSI_SegmentID := segmentID; SSI_State := None; SSI_StartPosition := None;
         SSI_Status := mkStatus ErrorCode_UnexpectedError
                         ("failed to get segment " +:+ fmt_d segmentID) |}
  | Some segmentInfo =>
      {| SSI_SegmentID := segmentID; SSI_State := Some (State segmentInfo);
         SSI_StartPosition := StartPosition segmentInfo;
         SSI_Status := mkStatus ErrorCode_Success "" |}
  end.

Definition GetSegmentStates (segmentIDs : list UniqueID) (s : S)
  : GetSegmentStatesResponse * S :=
  if isClosed s then
    ({| GSS_Status := mkStatus ErrorCode_UnexpectedError serverNotServingErrMsg;
        GSS_States := [] |}, s)
  else
    ({| GSS_Status := mkStatus ErrorCode_Success "";
        GSS_States := map (segmentStateOf s) segmentIDs |}, s).

(** GetInsertBinlogPaths returns binlog paths info for requested segments *)
Definition GetInsertBinlogPaths (segmentID : UniqueID) (s : S)
  : GetInsertBinlogPathsResponse * S :=
  if isClosed s then
    ({| GIB_FieldIDs := []; GIB_Paths := [];
        GIB_Status := mkStatus ErrorCode_UnexpectedError serverNotServingErrMsg |}, s)
  else
    match GetSegment segmentID s with
    | None =>
        ({| GIB_FieldIDs := []; GIB_Paths := [];
            GIB_Status := mkStatus ErrorCode_UnexpectedError "segment not found" |}, s)
    | Some segment =>
        let binlogs := Binlogs segment in
        ({| GIB_FieldIDs := map FieldBinlog_FieldID binlogs;
            GIB_Paths := map FieldBinlog_Binlogs binlogs;
            GIB_Status := mkStatus ErrorCode_Success "" |}, s)
    end.

(** GetCollectionStatistics returns statistics for collection *)
Definition GetCollectionStatistics (collectionID : UniqueID) (s : S)
  : StatisticsResponse * S :=
  if isClosed s then
    ({| Stats_Status := mkStatus ErrorCode_UnexpectedError serverNotServingErrMsg;
        Stats_Stats := [] |}, s)
  else
    let nums := GetNumRowsOfCollection collectionID s in
    ({| Stats_Status := mkStatus ErrorCode_Success "";
        Stats_Stats := [("row_count", fmt_d nums)] |}, s).

(** GetPartitionStatistics return statistics for parition *)
Definition GetPartitionStatistics (collectionID partitionID : UniqueID) (s : S)
  : StatisticsResponse * S :=
  if isClosed s then
    ({| Stats_Status := mkStatus ErrorCode_UnexpectedError serverNotServingErrMsg;
        Stats_Stats := [] |}, s)
  else
    let nums := GetNumRowsOfPartition collectionID partitionID s in
    ({| Stats_Status := mkStatus ErrorCode_Success "";
        Stats_Stats := [("row_count", fmt_d nums)] |}, s).

(** The loop of GetSegmentInfo: stops at the first id missing from meta. *)
Fixpoint collectInfos (s : S) (ids : list UniqueID) (infos : list SegmentInfo)
  : outcome (list SegmentInfo) :=
  match ids with
  | [] => Ok infos
  | id :: ids' =>
      match GetSegment id s with
      | None => Err ("failed to get segment " +:+ fmt_d id)
      | Some info => collectInfos s ids' (infos ++ [info])
      end
  end.

(** GetSegmentInfo returns segment info requested, status, row count, etc included *)
Definition GetSegmentInfo (segmentIDs : list UniqueID) (s : S)
  : GetSegmentInfoResponse * S :=
  if isClosed s then
    ({| GSI_Status := mkStatus ErrorCode_UnexpectedError serverNotServingErrMsg;
        GSI_Infos := [] |}, s)
  else
    match collectInfos s segmentIDs [] with
    | Err reason =>
        ({| GSI_Status := mkStatus ErrorCode_UnexpectedError reason; GSI_Infos := [] |}, s)
    | Ok infos =>
        ({| GSI_Status := mkStatus ErrorCode_Success ""; GSI_Infos := infos |}, s)
    end.

(** FailResponse (util.go) marks a status as failed with the given reason. *)
Definition FailResponse (reason : string) : Status :=
  mkStatus ErrorCode_UnexpectedError reason.

Definition checkShouldDropChannel (channel : string) (s : S) : bool :=
  forallb
    (fun segment =>
       negb (bool_decide (StartPosition segment ≠ None)
             && bool_decide (length (CompactionFrom segment) = 0%nat)
             && bool_decide (State segment ≠ SegmentState_Dropped)))
    (GetSegmentsByChannel channel s).

(** The tail of SaveBinlogPaths under [if req.GetFlushed()]. *)
Definition afterFlushed (req : SaveBinlogPathsRequest) (segment : SegmentInfo) (s : S) : S :=
  let s1 := DropSegment (SBP_SegmentID req) s in
  let s2 := flushCh_send (SBP_SegmentID req) s1 in
  if Params_EnableCompaction then
    match getTimetravelReverseTime s2 with
    | (Ok tt_, s3) =>
        snd (triggerSingleCompaction (CollectionID segment) (PartitionID segment)
               (SBP_SegmentID req) (InsertChannel segment) tt_ s3)
    | (Err _, s3) => s3
    end
  else s2.

(** SaveBinlogPaths update segment related binlog path
    works for Checkpoints and Flush *)
Definition SaveBinlogPaths (req : SaveBinlogPathsRequest) (s : S) : Status * S :=
  if isClosed s then (mkStatus ErrorCode_UnexpectedError serverNotServingErrMsg, s)
  else
    (* validate *)
    let nodeID := GetSourceID (SBP_Base req) in
    let segmentID := SBP_SegmentID req in
    match GetSegment segmentID s with
    | None => (FailResponse ("failed to get segment " +:+ fmt_d segmentID), s)
    | Some segment =>
        let channel := InsertChannel segment in
        if negb (Match nodeID channel s) then
          (FailResponse ("channel " +:+ channel +:+ " is not watched on node " +:+ fmt_d nodeID), s)
        else
          let s1 := if SBP_Dropped req then DropSegment (ID segment) s else s in
          (* set segment to SegmentState_Flushing and save binlogs and checkpoints *)
          match UpdateFlushSegmentsInfo (SBP_SegmentID req) (SBP_Flushed req) (SBP_Dropped req)
                  (SBP_Field2BinlogPaths req) (SBP_Field2StatslogPaths req)
                  (SBP_Deltalogs req) (SBP_CheckPoints req) (SBP_StartPositions req) s1 with
          | (Some err, s2) => (mkStatus ErrorCode_UnexpectedError err, s2)
          | (None, s2) =>
              let s3 :=
                if SBP_Dropped req && checkShouldDropChannel channel s2 then
                  DropSegmentsOfChannel channel (snd (RemoveChannel channel s2))
                else s2 in
              let s4 := if SBP_Flushed req then afterFlushed req segment s3 else s3 in
              (mkStatus ErrorCode_Success "", s4)
          end
    end.

(** GetComponentStates returns DataCoord's current state *)
Definition GetComponentStates (s : S) : ComponentStates * S :=
  let state := isServing s in
  let code :=
    if bool_decide (state = ServerStateInitializing) then StateCode_Initializing
    else if bool_decide (state = ServerStateHealthy) then StateCode_Healthy
    else StateCode_Abnormal in
  ({| CS_State := {| CI_NodeID := Params_NodeID; CI_Role := "datacoord"; CI_StateCode := code |};
      CS_Status := mkStatus ErrorCode_Success "" |}, s).

(** *** GetRecoveryInfo *)

(** field2Binlog[field.GetFieldID()] = append(field2Binlog[...], field.GetBinlogs()...) *)
Definition appendPaths (m : gmap UniqueID (list string)) (field : FieldBinlog)
  : gmap UniqueID (list string) :=
  <[FieldBinlog_FieldID field :=
      default [] (m !! FieldBinlog_FieldID field) ++ FieldBinlog_Binlogs field]> m.

(** [for f, paths := range field2Binlog]: Go leaves the iteration order of a
    map unspecified; [map_to_list] fixes one. *)
Definition fieldBinlogsOf (logs : list FieldBinlog) : list FieldBinlog :=
  map (fun '(f, paths) => mkFieldBinlog f paths)
      (map_to_list (foldl appendPaths ∅ logs)).

Record recoveryAcc := mkrecoveryAcc {
  flushedIDs : gset UniqueID;
  segment2Binlogs : gmap UniqueID (list FieldBinlog);
  segment2StatsBinlogs : gmap UniqueID (list FieldBinlog);
  segment2DeltaBinlogs : gmap UniqueID (list DeltaLogInfo);
  segmentsNumOfRows : gmap UniqueID Z
}.

Definition recoveryStep (id : UniqueID) (segment : SegmentInfo) (a : recoveryAcc) : recoveryAcc :=
  if bool_decide (State segment ≠ SegmentState_Flushed)
     && bool_decide (State segment ≠ SegmentState_Flushing) then a
  else
    {| flushedIDs := {[id]} ∪ flushedIDs a;
       segment2Binlogs :=
         <[id := default [] (segment2Binlogs a !! id) ++ fieldBinlogsOf (Binlogs segment)]>
           (segment2Binlogs a);
       segment2StatsBinlogs :=
         <[id := default [] (segment2StatsBinlogs a !! id) ++ fieldBinlogsOf (Statslogs segment)]>
           (segment2StatsBinlogs a);
       segment2DeltaBinlogs :=
         <[id := default [] (segment2DeltaBinlogs a !! id) ++ Deltalogs segment]>
           (segment2DeltaBinlogs a);
       segmentsNumOfRows := <[id := NumOfRows segment]> (segmentsNumOfRows a) |}.

Fixpoint recoveryLoop (s : S) (segmentIDs : list UniqueID) (a : recoveryAcc)
  : outcome recoveryAcc :=
  match segmentIDs with
  | [] => Ok a
  | id :: ids =>
      match GetSegment id s with
      | None => Err ("failed to get segment " +:+ fmt_d id)
      | Some segment => recoveryLoop s ids (recoveryStep id segment a)
      end
  end.

Definition segmentBinlogsOf (a : recoveryAcc) (segmentID : UniqueID) : SegmentBinlogs :=
  {| SB_SegmentID := segmentID;
     SB_NumOfRows := default 0 (segmentsNumOfRows a !! segmentID);
     SB_FieldBinlogs := default [] (segment2Binlogs a !! segmentID);
     SB_Statslogs := default [] (segment2StatsBinlogs a !! segmentID);
     SB_Deltalogs := default [] (segment2DeltaBinlogs a !! segmentID) |}.

(** GetRecoveryInfo get recovery info for segment *)
Definition GetRecoveryInfo (req : GetRecoveryInfoRequest) (s : S)
  : GetRecoveryInfoResponse * S :=
  let collectionID := GRI_CollectionID req in
  let partitionID := GRI_PartitionID req in
  let fail reason s' :=
    ({| GRR_Status := mkStatus ErrorCode_UnexpectedError reason;
        GRR_Channels := []; GRR_Binlogs := [] |}, s') in
  if isClosed s then fail serverNotServingErrMsg s
  else
    let segmentIDs := GetSegmentsIDOfPartition collectionID partitionID s in
    match recoveryLoop s segmentIDs (mkrecoveryAcc ∅ ∅ ∅ ∅ ∅) with
    | Err errMsg => fail errMsg s
    | Ok a =>
        let binlogs := map (segmentBinlogsOf a) (elements (flushedIDs a)) in
        match DescribeCollection collectionID s with
        | (Err err, s1) => fail err s1
        | (Ok channels, s1) =>
            let channelInfos :=
              map (fun c => GetVChanPositions c collectionID partitionID s1) channels in
            ({| GRR_Status := mkStatus ErrorCode_Success "";
                GRR_Channels := channelInfos; GRR_Binlogs := binlogs |}, s1)
        end
    end.

(** GetFlushedSegments returns all segment matches provided criterion and in State Flushed
    If requested partition id < 0, ignores the partition id filter *)
Definition keepFlushed (s : S) (id : UniqueID) : bool :=
  match GetSegment id s with
  | Some seg => negb (bool_decide (State seg ≠ SegmentState_Flushed))
  | None => true (* we assume this segment has been compacted and flushed *)
  end.

Definition GetFlushedSegments (req : GetFlushedSegmentsRequest) (s : S)
  : GetFlushedSegmentsResponse * S :=
  let collectionID := GFS_CollectionID req in
  let partitionID := GFS_PartitionID req in
  if isClosed s then
    ({| GFR_Status := mkStatus ErrorCode_UnexpectedError serverNotServingErrMsg;
        GFR_Segments := [] |}, s)
  else
    let segmentIDs :=
      if bool_decide (partitionID < 0) then GetSegmentsIDOfCollection collectionID s
      else GetSegmentsIDOfPartition collectionID partitionID s in
    let ret := filter (fun id => keepFlushed s id = true) segmentIDs in
    ({| GFR_Status := mkStatus ErrorCode_Success ""; GFR_Segments := ret |}, s).

(** GetMetrics returns DataCoord metrics info; the Go handler returns the
    response together with an [error]. *)
Definition GetMetrics (request : string) (s : S)
  : option GetMetricsResponse * option error * S :=
  let fail reason :=
    Some {| GMR_Status := mkStatus ErrorCode_UnexpectedError reason;
            GMR_Response := ""; GMR_ComponentName := "" |} in
  if isClosed s then (fail (msgDataCoordIsUnhealthy Params_NodeID), None, s)
  else
    match ParseMetricType request with
    | Err err => (fail err, None, s)
    | Ok metricType =>
        if bool_decide (metricType = SystemInfoMetrics) then
          match GetSystemInfoMetrics s with
          | (Some ret, None) => (Some ret, None, s)
          | _ =>
              let '(metrics, err, s1) := getSystemInfoMetrics request s in
              (metrics, err, UpdateSystemInfoMetrics metrics s1)
          end
        else (fail MsgUnimplementedMetric, None, s)
    end.

(** CompleteCompaction completes a compaction with the result *)
Definition CompleteCompaction (req : CompactionResult) (s : S) : Status * S :=
  if isClosed s then
    (mkStatus ErrorCode_UnexpectedError (msgDataCoordIsUnhealthy Params_NodeID), s)
  else if negb Params_EnableCompaction then
    (mkStatus ErrorCode_UnexpectedError "compaction disabled", s)
  else
    match completeCompaction req s with
    | (Some err, s1) => (mkStatus ErrorCode_UnexpectedError err, s1)
    | (None, s1) => (mkStatus ErrorCode_Success "", s1)
    end.

(** ManualCompaction triggers a compaction for a collection *)
Definition ManualCompaction (req : ManualCompactionRequest) (s : S)
  : ManualCompactionResponse * S :=
  let fail reason s' :=
    ({| MCResp_Status := mkStatus ErrorCode_UnexpectedError reason;
        MCResp_CompactionID := 0 |}, s') in
  if isClosed s then fail (msgDataCoordIsUnhealthy Params_NodeID) s
  else if negb Params_EnableCompaction then fail "compaction disabled" s
  else
    match forceTriggerCompaction (MCR_CollectionID req) (MCR_Timetravel req) s with
    | (Err err, s1) => fail err s1
    | (Ok id, s1) =>
        ({| MCResp_Status := mkStatus ErrorCode_Success ""; MCResp_CompactionID := id |}, s1)
    end.

(** GetCompactionState gets the state of a compaction *)
Definition GetCompactionState (compactionID : UniqueID) (s : S)
  : GetCompactionStateResponse * S :=
  let fail reason :=
    ({| GCS_Status := mkStatus ErrorCode_UnexpectedError reason;
        GCS_State := CompactionState_UndefiedState;
        GCS_ExecutingPlanNo := 0; GCS_TimeoutPlanNo := 0; GCS_CompletedPlanNo := 0 |}, s) in
  if isClosed s then fail (msgDataCoordIsUnhealthy Params_NodeID)
  else if negb Params_EnableCompaction then fail "compaction disabled"
  else
    let tasks := getCompactionTasksBySignalID compactionID s in
    let '(state, executingCnt, completedCnt, timeoutCnt) := getCompactionState tasks in
    ({| GCS_Status := mkStatus ErrorCode_Success "";
        GCS_State := state;
        GCS_ExecutingPlanNo := executingCnt;
        GCS_TimeoutPlanNo := timeoutCnt;
        GCS_CompletedPlanNo := completedCnt |}, s).

Definition GetCompactionStateWithPlans (compactionID : UniqueID) (s : S)
  : GetCompactionPlansResponse * S :=
  let fail reason :=
    ({| GCP_Status := mkStatus ErrorCode_UnexpectedError reason;
        GCP_State := CompactionState_UndefiedState; GCP_MergeInfos := [] |}, s) in
  if isClosed s then fail (msgDataCoordIsUnhealthy Params_NodeID)
  else if negb Params_EnableCompaction then fail "compaction disabled"
  else
    let tasks := getCompactionTasksBySignalID compactionID s in
    let mergeInfos := map getCompactionMergeInfo tasks in
    let '(state, _, _, _) := getCompactionState tasks in
    ({| GCP_Status := mkStatus ErrorCode_Success "";
        GCP_State := state; GCP_MergeInfos := mergeInfos |}, s).

(** The loop of WatchChannels: stops at the first channel that fails. *)
Fixpoint watchLoop (collectionID : UniqueID) (names : list string) (s : S)
  : option error * S :=
  match names with
  | [] => (None, s)
  | channelName :: names' =>
      let ch := {| channel_Name := channelName; channel_CollectionID := collectionID |} in
      match channelManager_Watch ch s with
      | (Some err, s1) => (Some err, s1)
      | (None, s1) => watchLoop collectionID names' s1
      end
  end.

Definition WatchChannels (req : WatchChannelsRequest) (s : S) : WatchChannelsResponse * S :=
  if isClosed s then
    ({| WCResp_Status :=
          mkStatus ErrorCode_UnexpectedError (msgDataCoordIsUnhealthy Params_NodeID) |}, s)
  else
    match watchLoop (WCR_CollectionID req) (WCR_ChannelNames req) s with
    | (Some err, s1) => ({| WCResp_Status := mkStatus ErrorCode_UnexpectedError err |}, s1)
    | (None, s1) => ({| WCResp_Status := mkStatus ErrorCode_Success "" |}, s1)
    end.

(** *** The RPC surface as one dispatcher *)

Inductive Request :=
  | Req_GetTimeTickChannel
  | Req_GetStatisticsChannel
  | Req_Flush (req : FlushRequest)
  | Req_AssignSegmentID (reqs : list SegmentIDRequest)
  | Req_GetSegmentStates (segmentIDs : list UniqueID)
  | Req_GetInsertBinlogPaths (segmentID : UniqueID)
  | Req_GetCollectionStatistics (collectionID : UniqueID)
  | Req_GetPartitionStatistics (collectionID partitionID : UniqueID)
  | Req_GetSegmentInfoChannel
  | Req_GetSegmentInfo (segmentIDs : list UniqueID)
  | Req_SaveBinlogPaths (req : SaveBinlogPathsRequest)
  | Req_GetComponentStates
  | Req_GetRecoveryInfo (req : GetRecoveryInfoRequest)
  | Req_GetFlushedSegments (req : GetFlushedSegmentsRequest)
  | Req_GetMetrics (request : string)
  | Req_CompleteCompaction (req : CompactionResult)
  | Req_ManualCompaction (req : ManualCompactionRequest)
  | Req_GetCompactionState (compactionID : UniqueID)
  | Req_GetCompactionStateWithPlans (compactionID : UniqueID)
  | Req_WatchChannels (req : WatchChannelsRequest).

Inductive Response :=
  | Resp_String (r : StringResponse)
  | Resp_Flush (r : FlushResponse)
  | Resp_AssignSegmentID (r : AssignSegmentIDResponse)
  | Resp_GetSegmentStates (r : GetSegmentStatesResponse)
  | Resp_GetInsertBinlogPaths (r : GetInsertBinlogPathsResponse)
  | Resp_Statistics (r : StatisticsResponse)
  | Resp_GetSegmentInfo (r : GetSegmentInfoResponse)
  | Resp_Status (r : Status)
  | Resp_ComponentStates (r : ComponentStates)
  | Resp_GetRecoveryInfo (r : GetRecoveryInfoResponse)
  | Resp_GetFlushedSegments (r : GetFlushedSegmentsResponse)
  | Resp_GetMetrics (r : option GetMetricsResponse) (err : option error)
  | Resp_ManualCompaction (r : ManualCompactionResponse)
  | Resp_GetCompactionState (r : GetCompactionStateResponse)
  | Resp_GetCompactionPlans (r : GetCompactionPlansResponse)
  | Resp_WatchChannels (r : WatchChannelsResponse).

Definition wrap {A} (f : A → Response) (x : A * S) : Response * S := (f x.1, x.2).

Definition serve (rq : Request) (s : S) : Response * S :=
  match rq with
  | Req_GetTimeTickChannel => wrap Resp_String (GetTimeTickChannel s)
  | Req_GetStatisticsChannel => wrap Resp_String (GetStatisticsChannel s)
  | Req_Flush req => wrap Resp_Flush (Flush req s)
  | Req_AssignSegmentID reqs => wrap Resp_AssignSegmentID (AssignSegmentID reqs s)
  | Req_GetSegmentStates ids => wrap Resp_GetSegmentStates (GetSegmentStates ids s)
  | Req_GetInsertBinlogPaths id => wrap Resp_GetInsertBinlogPaths (GetInsertBinlogPaths id s)
  | Req_GetCollectionStatistics c => wrap Resp_Statistics (GetCollectionStatistics c s)
  | Req_GetPartitionStatistics c p0 => wrap Resp_Statistics (GetPartitionStatistics c p0 s)
  | Req_GetSegmentInfoChannel => wrap Resp_String (GetSegmentInfoChannel s)
  | Req_GetSegmentInfo ids => wrap Resp_GetSegmentInfo (GetSegmentInfo ids s)
  | Req_SaveBinlogPaths req => wrap Resp_Status (SaveBinlogPaths req s)
  | Req_GetComponentStates => wrap Resp_ComponentStates (GetComponentStates s)
  | Req_GetRecoveryInfo req => wrap Resp_GetRecoveryInfo (GetRecoveryInfo req s)
  | Req_GetFlushedSegments req => wrap Resp_GetFlushedSegments (GetFlushedSegments req s)
  | Req_GetMetrics request =>
      let '(r, err, s1) := GetMetrics request s in (Resp_GetMetrics r err, s1)
  | Req_CompleteCompaction req => wrap Resp_Status (CompleteCompaction req s)
  | Req_ManualCompaction req => wrap Resp_ManualCompaction (ManualCompaction req s)
  | Req_GetCompactionState id => wrap Resp_GetCompactionState (GetCompactionState id s)
  | Req_GetCompactionStateWithPlans id =>
      wrap Resp_GetCompactionPlans (GetCompactionStateWithPlans id s)
  | Req_WatchChannels req => wrap Resp_WatchChannels (WatchChannels req s)
  end.

(** The Status message every response carries. *)
Definition statusOf (r : Response) : option Status :=
  match r with
  | Resp_String r => Some (StringResponse_Status r)
  | Resp_Flush r => Some (FlushResponse_Status r)
  | Resp_AssignSegmentID r => Some (ASR_Status r)
  | Resp_GetSegmentStates r => Some (GSS_Status r)
  | Resp_GetInsertBinlogPaths r => Some (GIB_Status r)
  | Resp_Statistics r => Some (Stats_Status r)
  | Resp_GetSegmentInfo r => Some (GSI_Status r)
  | Resp_Status r => Some r
  | Resp_ComponentStates r => Some (CS_Status r)
  | Resp_GetRecoveryInfo r => Some (GRR_Status r)
  | Resp_GetFlushedSegments r => Some (GFR_Status r)
  | Resp_GetMetrics r _ => GMR_Status <$> r
  | Resp_ManualCompaction r => Some (MCResp_Status r)
  | Resp_GetCompactionState r => Some (GCS_Status r)
  | Resp_GetCompactionPlans r => Some (GCP_Status r)
  | Resp_WatchChannels r => Some (WCResp_Status r)
  end.

(** The handlers that start with the [s.isClosed()] check; the three legacy
    channel-name getters and GetComponentStates do not. *)
Definition checksServing (rq : Request) : bool :=
  match rq with
  | Req_GetTimeTickChannel | Req_GetStatisticsChannel
  | Req_GetSegmentInfoChannel | Req_GetComponentStates => false
  | _ => true
  end.

(** "A not-Healthy server rejects the RPC": ErrorCode UnexpectedError, one of
    the two not-serving reasons, and no change of the server. *)
Definition rejectsWhenNotServing (rq : Request) (s : S) : Prop :=
  isClosed s = true →
  (∃ reason, statusOf (serve rq s).1 = Some (mkStatus ErrorCode_UnexpectedError reason)
             ∧ (reason = serverNotServingErrMsg
                ∨ reason = msgDataCoordIsUnhealthy Params_NodeID))
  ∧ (serve rq s).2 = s.

End services.

(** ** A concrete server

    An implementation of the component interfaces on an explicit state, used
    to run the handlers on concrete inputs and to settle what the
    specification says about components whose code is in other files.  The
    meta store, the channel assignments, sealing and allocation follow the
    spec's component contracts (§4.1, §4.3, §4.4, §4.5); an operation the
    spec gives no contract for leaves the state as it is. *)
Module testbed.

Record Server := mkServer {
  serving : Z;
  kvAvailable : bool;
  allocatorAvailable : bool;
  (* C1: segmentID → SegmentInfo *)
  segments : gmap UniqueID SegmentInfo;
  (* known collections with their maxRows policy *)
  collections : gmap UniqueID Z;
  (* C3: channel → the node whose assignment is Watching *)
  watching : gmap string UniqueID;
  liveNodes : list UniqueID;
  channelPos : gmap string MsgPosition;
  (* C4: pending reservations *)
  reservations : list Allocation;
  nextID : UniqueID;
  now : Timestamp;
  allocationTTL : Timestamp;
  flushCh : list UniqueID
}.

Definition set_segments (f : gmap UniqueID SegmentInfo → gmap UniqueID SegmentInfo)
    (s : Server) : Server :=
  mkServer (serving s) (kvAvailable s) (allocatorAvailable s) (f (segments s))
    (collections s) (watching s) (liveNodes s) (channelPos s) (reservations s)
    (nextID s) (now s) (allocationTTL s) (flushCh s).

Definition set_watching (f : gmap string UniqueID → gmap string UniqueID)
    (s : Server) : Server :=
  mkServer (serving s) (kvAvailable s) (allocatorAvailable s) (segments s)
    (collections s) (f (watching s)) (liveNodes s) (channelPos s) (reservations s)
    (nextID s) (now s) (allocationTTL s) (flushCh s).

Definition add_reservation (a : Allocation) (s : Server) : Server :=
  mkServer (serving s) (kvAvailable s) (allocatorAvailable s) (segments s)
    (collections s) (watching s) (liveNodes s) (channelPos s) (reservations s ++ [a])
    (nextID s) (now s) (allocationTTL s) (flushCh s).

Definition take_id (s : Server) : Server :=
  mkServer (serving s) (kvAvailable s) (allocatorAvailable s) (segments s)
    (collections s) (watching s) (liveNodes s) (channelPos s) (reservations s)
    (nextID s + 1) (now s) (allocationTTL s) (flushCh s).

Definition push_flushCh (id : UniqueID) (s : Server) : Server :=
  mkServer (serving s) (kvAvailable s) (allocatorAvailable s) (segments s)
    (collections s) (watching s) (liveNodes s) (channelPos s) (reservations s)
    (nextID s) (now s) (allocationTTL s) (flushCh s ++ [id]).

Definition with_State (st : SegmentState) (seg : SegmentInfo) : SegmentInfo :=
  mkSegmentInfo (ID seg) (CollectionID seg) (PartitionID seg) (InsertChannel seg)
    (NumOfRows seg) st (MaxRowNum seg) (LastExpireTime seg) (StartPosition seg)
    (DmlPosition seg) (Binlogs seg) (Statslogs seg) (Deltalogs seg)
    (CreatedByCompaction seg) (CompactionFrom seg).

Definition with_LastExpireTime (t : Timestamp) (seg : SegmentInfo) : SegmentInfo :=
  mkSegmentInfo (ID seg) (CollectionID seg) (PartitionID seg) (InsertChannel seg)
    (NumOfRows seg) (State seg) (MaxRowNum seg) t (StartPosition seg)
    (DmlPosition seg) (Binlogs seg) (Statslogs seg) (Deltalogs seg)
    (CreatedByCompaction seg) (CompactionFrom seg).

Definition isGrowingOf (collectionID : UniqueID) (seg : SegmentInfo) : bool :=
  bool_decide (CollectionID seg = collectionID ∧ State seg = SegmentState_Growing).

(** Modelled from the spec: SegmentManager.SealAllSegments (segment_manager.go
    is not part of the sources).  §4.5: "SealAllSegments(collectionID) seals
    every Growing segment of the collection and returns their IDs"; "Sealing
    sets state=Sealed atomically"; §4.1: the meta store fails with
    StorageUnavailable on KV failure. *)
Definition SealAllSegments (collectionID : UniqueID) (s : Server)
  : outcome (list UniqueID) * Server :=
  if kvAvailable s then
    let ids :=
      (filter (fun kv => isGrowingOf collectionID kv.2 = true)
              (map_to_list (segments s))).*1 in
    (Ok ids,
     set_segments
       (fmap (fun seg => if isGrowingOf collectionID seg
                         then with_State SegmentState_Sealed seg else seg)) s)
  else (Err "StorageUnavailable", s).

(** Rows reserved on a segment by allocations that have not expired. *)
Definition pendingReservations (segmentID : UniqueID) (s : Server) : Z :=
  foldr (fun a acc =>
           if bool_decide (Allocation_SegmentID a = segmentID)
           then Allocation_NumOfRows a + acc else acc)
        0 (reservations s).

Definition hasRoom (collectionID partitionID : UniqueID) (channelName : string)
    (count : Z) (s : Server) (seg : SegmentInfo) : bool :=
  bool_decide (State seg = SegmentState_Growing
               ∧ CollectionID seg = collectionID
               ∧ PartitionID seg = partitionID
               ∧ InsertChannel seg = channelName
               ∧ (NumOfRows seg + pendingReservations (ID seg) s + count ≤ MaxRowNum seg)%Z).

Definition newSegment (id collectionID partitionID : UniqueID) (channelName : string)
    (maxRows : Z) (s : Server) : SegmentInfo :=
  {| ID := id; CollectionID := collectionID; PartitionID := partitionID;
     InsertChannel := channelName; NumOfRows := 0; State := SegmentState_Growing;
     MaxRowNum := maxRows; LastExpireTime := 0;
     StartPosition := channelPos s !! channelName; DmlPosition := None;
     Binlogs := []; Statslogs := []; Deltalogs := [];
     CreatedByCompaction := false; CompactionFrom := [] |}.

(** Modelled from the spec: SegmentManager.AllocSegment (segment_manager.go is
    not part of the sources).  §4.4: (1) find a Growing segment matching
    (collection, partition, channel) whose numRows + pendingReservations +
    count ≤ maxRows, and if none create one (ID from the allocator, maxRows
    from the collection policy, startPosition = current channel position);
    (2) issue an allocation with expireTime = now + allocationTTL; (4) return
    [{segmentID, count, expireTime}].  Errors: NoCollection,
    AllocatorUnavailable, StorageUnavailable.  Step (3), watching the
    channel, is the handler's own call of cluster.Watch. *)
Definition AllocSegment (collectionID partitionID : UniqueID) (channelName : string)
    (count : Z) (s : Server) : outcome (list Allocation) * Server :=
  match collections s !! collectionID with
  | None => (Err "NoCollection", s)
  | Some maxRows =>
      let expireTime := now s + allocationTTL s in
      let issue id s' :=
        let a := mkAllocation id count expireTime in
        (Ok [a],
         add_reservation a (set_segments (alter (with_LastExpireTime expireTime) id) s')) in
      match filter (fun kv => hasRoom collectionID partitionID channelName count s kv.2 = true)
                   (map_to_list (segments s)) with
      | (id, _) :: _ => issue id s
      | [] =>
          if negb (allocatorAvailable s) then (Err "AllocatorUnavailable", s)
          else if negb (kvAvailable s) then (Err "StorageUnavailable", s)
          else
            let id := nextID s in
            let seg := newSegment id collectionID partitionID channelName maxRows s in
            issue id (set_segments (insert id seg) (take_id s))
      end
  end.

(** Number of channels a node watches. *)
Definition load (node : UniqueID) (s : Server) : nat :=
  length (filter (fun kv => kv.2 = node) (map_to_list (watching s))).

Definition leastLoaded (s : Server) : option UniqueID :=
  foldr (fun n best =>
           match best with
           | Some b => if bool_decide (load n s ≤ load b s)%nat then Some n else Some b
           | None => Some n
           end)
        None (liveNodes s).

(** Modelled from the spec: §4.3, a channel without an owner is assigned to
    the least-loaded live node; §4.4 step 3, "ensure the channel is watched
    on some node". *)
Definition Watch (channelName : string) (s : Server) : Server :=
  match watching s !! channelName, leastLoaded s with
  | None, Some n => set_watching (insert channelName n) s
  | _, _ => s
  end.

(** Modelled from the spec: §4.3, "Match(node, channel) returns true only when
    the assignment is currently Watching and node == assignedNode". *)
Definition Match (nodeID : UniqueID) (channelName : string) (s : Server) : bool :=
  bool_decide (watching s !! channelName = Some nodeID).

Definition segmentsWhere (P : SegmentInfo → bool) (s : Server) : list SegmentInfo :=
  filter (fun seg => P seg = true) (map_to_list (segments s)).*2.

Definition numRowsWhere (P : SegmentInfo → bool) (s : Server) : Z :=
  foldr (fun seg acc => NumOfRows seg + acc) 0 (segmentsWhere P s).

Global Instance consts : Consts := {|
  ServerStateInitializing := 1;
  ServerStateHealthy := 2;
  serverNotServingErrMsg := "server is not serving";
  msgDataCoordIsUnhealthy := fun id => "DataCoord " +:+ fmt_d id +:+ " is not ready";
  Params_TimeTickChannelName := "datacoord-timetick-channel";
  Params_StatisticsChannelName := "datacoord-statistics-channel";
  Params_SegmentInfoChannelName := "datacoord-segment-info-channel";
  Params_NodeID := 1;
  Params_EnableCompaction := false;
  ParseMetricType := fun request => Ok request;
  SystemInfoMetrics := "system_info";
  MsgUnimplementedMetric := "metric type not implemented"
|}.

Global Instance serverOps : ServerOps Server := {|
  isServing := serving;
  flushCh_send := push_flushCh;
  GetCollection := fun id s =>
    ((fun _ => mkcollectionInfo id []) <$> collections s !! id, s);
  GetVChanPositions := fun c collectionID partitionID s =>
    {| VI_CollectionID := collectionID; VI_ChannelName := c;
       VI_SeekPosition := channelPos s !! c;
       VI_UnflushedSegments := []; VI_FlushedSegments := [] |};
  getSystemInfoMetrics := fun request s => (None, Some "metrics unavailable", s)
|}.

Global Instance meta : Meta Server := {|
  GetSegment := fun id s => segments s !! id;
  GetNumRowsOfCollection := fun c s =>
    numRowsWhere (fun seg => bool_decide (CollectionID seg = c)) s;
  GetNumRowsOfPartition := fun c p0 s =>
    numRowsWhere (fun seg => bool_decide (CollectionID seg = c ∧ PartitionID seg = p0)) s;
  GetSegmentsByChannel := fun ch s =>
    segmentsWhere (fun seg => bool_decide (InsertChannel seg = ch)) s;
  GetSegmentsIDOfCollection := fun c s =>
    ID <$> segmentsWhere (fun seg => bool_decide (CollectionID seg = c)) s;
  GetSegmentsIDOfPartition := fun c p0 s =>
    ID <$> segmentsWhere
             (fun seg => bool_decide (CollectionID seg = c ∧ PartitionID seg = p0)) s;
  UpdateFlushSegmentsInfo := fun _ _ _ _ _ _ _ _ s => (None, s)
|}.

Global Instance manager : Manager Server := {|
  datacoord.AllocSegment := AllocSegment;
  DropSegment := fun _ s => s;
  datacoord.SealAllSegments := SealAllSegments;
  DropSegmentsOfChannel := fun _ s => s
|}.

Global Instance channelManager : ChannelManager Server := {|
  datacoord.Match := Match;
  RemoveChannel := fun ch s => (None, set_watching (delete ch) s);
  channelManager_Watch := fun ch s => (None, Watch (channel_Name ch) s);
  cluster_Watch := fun ch _ s => Watch ch s
|}.

Global Instance compaction : Compaction Server := {|
  getTimetravelReverseTime := fun s => (Ok (now s), s);
  triggerSingleCompaction := fun _ _ _ _ _ s => (None, s);
  forceTriggerCompaction := fun _ _ s => (Err "compaction disabled", s);
  completeCompaction := fun _ s => (None, s);
  getCompactionTasksBySignalID := fun _ _ => []
|}.

Global Instance remote : Remote Server := {|
  DescribeCollection := fun c s =>
    match collections s !! c with
    | Some _ => (Ok (map_to_list (channelPos s)).*1, s)
    | None => (Err "collection not found", s)
    end;
  GetSystemInfoMetrics := fun _ => (None, None);
  UpdateSystemInfoMetrics := fun _ s => s
|}.

(** *** Concrete servers *)

Definition segmentOf (id collectionID partitionID : UniqueID) (channelName : string)
    (st : SegmentState) (rows : Z) : SegmentInfo :=
  {| ID := id; CollectionID := collectionID; PartitionID := partitionID;
     InsertChannel := channelName; NumOfRows := rows; State := st;
     MaxRowNum := 1000; LastExpireTime := 0;
     StartPosition := Some (mkMsgPosition channelName "0001" 900); DmlPosition := None;
     Binlogs := []; Statslogs := []; Deltalogs := [];
     CreatedByCompaction := false; CompactionFrom := [] |}.

(** Collection 42 with partition 7 on channel "c1", owned by node 100:
    segment 1 is Growing, 2 is Flushed, 3 is Sealed, 4 is Growing in another
    partition; segment 5 belongs to collection 43. *)
Definition healthy : Server :=
  {| serving := 2; kvAvailable := true; allocatorAvailable := true;
     segments :=
       <[1 := segmentOf 1 42 7 "c1" SegmentState_Growing 10]>
       (<[2 := segmentOf 2 42 7 "c1" SegmentState_Flushed 500]>
       (<[3 := segmentOf 3 42 7 "c1" SegmentState_Sealed 400]>
       (<[4 := segmentOf 4 42 8 "c1" SegmentState_Growing 20]>
       (<[5 := segmentOf 5 43 9 "c2" SegmentState_Growing 30]> ∅))));
     collections := <[42 := 1000]> (<[43 := 1000]> ∅);
     watching := <["c1" := 100]> ∅;
     liveNodes := [100; 101];
     channelPos := <["c1" := mkMsgPosition "c1" "0009" 990]> ∅;
     reservations := [];
     nextID := 10; now := 1000; allocationTTL := 2000; flushCh := [] |}.

(** The same server before it reached the Healthy state. *)
Definition initializing : Server :=
  mkServer 1 (kvAvailable healthy) (allocatorAvailable healthy) (segments healthy)
    (collections healthy) (watching healthy) (liveNodes healthy) (channelPos healthy)
    (reservations healthy) (nextID healthy) (now healthy) (allocationTTL healthy)
    (flushCh healthy).

(** A flush report for segment 1 sent by node 101, which does not own "c1". *)
Definition staleReport : SaveBinlogPathsRequest :=
  {| SBP_Base := Some (mkMsgBase 0 0 0 101);
     SBP_SegmentID := 1; SBP_CollectionID := 42;
     SBP_Field2BinlogPaths := [mkFieldBinlog 100 ["insert_log/42/7/1/100/11"]];
     SBP_CheckPoints := [mkCheckPoint 1 (Some (mkMsgPosition "c1" "0009" 990)) 10];
     SBP_StartPositions := [];
     SBP_Flushed := true;
     SBP_Field2StatslogPaths := [];
     SBP_Deltalogs := [];
     SBP_Dropped := false |}.

End testbed.

End datacoord.

(** * The DataNode flush manager (flush_manager.go) *)

Module datanode.

Definition error := string.

Inductive outcome (A : Type) :=
  | Ok (a : A)
  | Err (e : error).
Arguments Ok {A} a.
Arguments Err {A} e.

(** ** Buffers, packs and tasks *)

Definition InsertData := gmap UniqueID (list string).
Definition DeleteData := list (string * Timestamp).

Record BufferData := mkBufferData {
  buffer : option InsertData;
  BufferData_size : Z;
  BufferData_limit : Z
}.

Record DelDataBuf := mkDelDataBuf {
  delData : option DeleteData;
  DelDataBuf_size : Z;
  tsFrom : Timestamp;
  tsTo : Timestamp;
  fileSize : Z;
  filePath : string
}.

(** segmentFlushPack contains result to save into meta *)
Record segmentFlushPack := mksegmentFlushPack {
  segmentID : UniqueID;
  insertLogs : gmap UniqueID string;
  statsLogs : gmap UniqueID string;
  deltaLogs : list DelDataBuf;
  pos : MsgPosition;
  flushed : bool;
  dropped : bool;
  err : option error (* task execution error, if not nil, notify func should stop datanode *)
}.

(** postInjectionFunc post injection pack process logic *)
Definition postInjectionFunc := segmentFlushPack → segmentFlushPack.

(** flushBufferInsertTask and flushBufferDeleteTask have the same fields: the
    embedded kv.BaseKV, which may be nil, and the data to save. *)
Record flushBufferTask := mkflushBufferTask {
  task_hasKV : bool;
  task_data : gmap string string
}.

(** &flushBufferInsertTask{} / &flushBufferDeleteTask{} *)
Definition emptyTask : flushBufferTask := mkflushBufferTask false ∅.

Record Blob := mkBlob { Blob_Key : string; Blob_Value : string }.

(** What the flush manager embeds: kv.BaseKV, allocatorInterface and Replica,
    and the storage codecs and library calls its two flush methods use.  All
    of them are declared in other files; [E] is the state they work on. *)
Class FlushEnv (E : Type) := {
  (* kv.BaseKV *)
  MultiSave : gmap string string → E → option error * E;
  (* allocatorInterface *)
  allocID : E → outcome UniqueID * E;
  allocIDBatch : Z → E → outcome (UniqueID * UniqueID) * E;
  (* genKey(false, ids...): "no error raise if alloc=false" *)
  genKey : list UniqueID → string;
  (* Replica *)
  hasSegment : UniqueID → bool → E → bool;
  getCollectionAndPartitionID : UniqueID → E → outcome (UniqueID * UniqueID);
  getCollectionSchema : UniqueID → Timestamp → E → outcome string * E;
  updateSegmentCheckPoint : UniqueID → E → E;
  (* storage.NewInsertCodec(meta).Serialize and storage.NewDeleteCodec().Serialize *)
  InsertCodec_Serialize :
    UniqueID * string → UniqueID → UniqueID → InsertData → outcome (list Blob * list Blob);
  DeleteCodec_Serialize : UniqueID → UniqueID → UniqueID → DeleteData → outcome Blob;
  (* strconv.ParseInt(s, 10, 64), path.Join, len of a string *)
  ParseInt : string → outcome Z;
  path_Join : string → string → string;
  Params_InsertBinlogRootPath : string;
  Params_StatsBinlogRootPath : string;
  Params_DeleteBinlogRootPath : string
}.

(** flushInsertData implements flushInsertTask; flushDeleteData tests the same
    two conditions in the other order. *)
Definition flushData `{FlushEnv E} (t : flushBufferTask) (e : E) : option error * E :=
  if task_hasKV t && bool_decide (0 < size (task_data t))%nat
  then MultiSave (task_data t) e
  else (None, e).

(** ** The order flush queue *)

(** A [chan struct{}] used as a signal is a name; the queue records which
    names are closed.  Receiving from a signal succeeds once it is closed. *)
Definition chan := nat.

(** A taskInjection is known by the pair of channels (injected, injectOver)
    it carries; here by a number. *)
Definition taskInjection := nat.

(** The two halves a runner waits for: what runFlushInsert and runFlushDel
    were given, and the error of the storage write. *)
Record insertHalf := mkinsertHalf {
  ih_binlogs : gmap UniqueID string;
  ih_statslogs : gmap UniqueID string;
  ih_flushed : bool;
  ih_dropped : bool;
  ih_pos : MsgPosition;
  ih_err : option error
}.

Record deleteHalf := mkdeleteHalf {
  dh_deltaLogs : option DelDataBuf;
  dh_err : option error
}.

(** Where the goroutine of a runner stands. *)
Inductive runnerStage :=
  | Waiting    (* halves not both done, or startSignal not yet closed *)
  | Posted     (* postTask has returned *)
  | Notifying  (* inside notifyFunc *)
  | Notified   (* notifyFunc has returned *)
  | Finished.  (* finishSignal closed *)

Global Instance runnerStage_eq_dec : EqDecision runnerStage.
Proof. solve_decision. Defined.

Record flushTaskRunner := mkflushTaskRunner {
  runner_segmentID : UniqueID;
  runner_msgID : string;
  startSignal : option chan;
  finishSignal : chan;
  insertPart : option insertHalf;
  deletePart : option deleteHalf;
  runner_pack : option segmentFlushPack;
  stage : runnerStage
}.

(** Where the goroutine of an injectHandler (handleInjection) stands. *)
Inductive handlerPc :=
  | HSelect                                         (* at the select *)
  | HReceived (inject : taskInjection)              (* inject := <-q.injectCh *)
  | HTailSet (inject : taskInjection) (injectDone : chan)   (* q.tailCh = injectDone *)
  | HInjected (inject : taskInjection) (injectDone : chan)  (* inject.injected <- struct{}{} *)
  | HReleased (inject : taskInjection) (injectDone : chan)  (* <-inject.injectOver *)
  | HExited.                                        (* <-h.done: return *)

Global Instance handlerPc_eq_dec : EqDecision handlerPc.
Proof. solve_decision. Defined.

(** orderFlushQueue, together with the objects its pointers lead to: the
    runners it has created ([working] holds indices into [runners]), the
    inject handlers it has started, and the signals that are closed.
    [notifyFunc] is the same function for the whole life of the queue; its
    calls are the labels [L_notifyBegin] and [L_notifyEnd] below. *)
Record orderFlushQueue := mkorderFlushQueue {
  once_done : bool;                      (* sync.Once *)
  queue_segmentID : UniqueID;
  injectCh : list taskInjection;         (* make(chan taskInjection, 100) *)
  working : gmap string nat;             (* MsgID => flushTask *)
  tailCh : option chan;
  runningTasks : Z;                      (* int32 *)
  injectHandler : option nat;
  postInjection : option postInjectionFunc;
  runners : list flushTaskRunner;
  handlers : list handlerPc;
  closedChans : gset chan;
  nextChan : chan
}.

(** int32 arithmetic wraps. *)
Definition wrap32 (x : Z) : Z := (x + 2 ^ 31) mod 2 ^ 32 - 2 ^ 31.

Definition injectChCap : nat := 100.

(** newOrderFlushQueue creates a orderFlushQueue *)
Definition newOrderFlushQueue (segID : UniqueID) : orderFlushQueue :=
  {| once_done := false; queue_segmentID := segID; injectCh := [];
     working := ∅; tailCh := None; runningTasks := 0; injectHandler := None;
     postInjection := None; runners := []; handlers := [];
     closedChans := ∅; nextChan := 0%nat |}.

(** newInjectHandler: a new handler whose goroutine stands at the select. *)
Definition newInjectHandler (q : orderFlushQueue) : nat * orderFlushQueue :=
  (length (handlers q),
   mkorderFlushQueue (once_done q) (queue_segmentID q) (injectCh q) (working q)
     (tailCh q) (runningTasks q) (injectHandler q) (postInjection q) (runners q)
     (handlers q ++ [HSelect]) (closedChans q) (nextChan q)).

(** init orderFlushQueue use once protect init, init tailCh *)
Definition init (q : orderFlushQueue) : orderFlushQueue :=
  if once_done q then q
  else
    let '(h, q1) := newInjectHandler q in
    (* new queue acts like tailing task is done *)
    let c := nextChan q1 in
    mkorderFlushQueue true (queue_segmentID q1) (injectCh q1) (working q1)
      (Some c) (runningTasks q1) (Some h) (postInjection q1) (runners q1)
      (handlers q1) ({[c]} ∪ closedChans q1) (S c).

Definition set_handler (h : nat) (pc : handlerPc) (q : orderFlushQueue) : orderFlushQueue :=
  mkorderFlushQueue (once_done q) (queue_segmentID q) (injectCh q) (working q)
    (tailCh q) (runningTasks q) (injectHandler q) (postInjection q) (runners q)
    (<[h := pc]> (handlers q)) (closedChans q) (nextChan q).

Definition set_runner (r : nat) (t : flushTaskRunner) (q : orderFlushQueue) : orderFlushQueue :=
  mkorderFlushQueue (once_done q) (queue_segmentID q) (injectCh q) (working q)
    (tailCh q) (runningTasks q) (injectHandler q) (postInjection q)
    (<[r := t]> (runners q)) (handlers q) (closedChans q) (nextChan q).

(** injectHandler.close(): close(h.done), then h.wg.Wait().  The handler
    leaves its loop only from the select, so the call returns when the
    handler stands there (or has returned already); [None] says that the
    caller is still waiting, because an injection is being handled. *)
Definition handler_close (h : nat) (q : orderFlushQueue) : option orderFlushQueue :=
  match handlers q !! h with
  | Some HSelect => Some (set_handler h HExited q)
  | Some HExited => Some q
  | Some _ => None
  | None => Some q
  end.

(** getFlushTaskRunner: LoadOrStore on [working]; for a runner that was
    stored, the injectMut section (count it, close the inject handler) and
    the tailMut section (t.init: startSignal := q.tailCh, a new
    finishSignal, start waitFinish; q.tailCh = t.finishSignal). *)
Definition getFlushTaskRunner (p : MsgPosition) (q : orderFlushQueue)
  : option (nat * orderFlushQueue) :=
  let key := Pos_MsgID p in
  match working q !! key with
  | Some r => Some (r, q)
  | None =>
      let r := length (runners q) in
      q1 ← match injectHandler q with
           | Some h => handler_close h q
           | None => Some q
           end;
      let f := nextChan q1 in
      let t := {| runner_segmentID := queue_segmentID q1; runner_msgID := key;
                  startSignal := tailCh q1; finishSignal := f;
                  insertPart := None; deletePart := None; runner_pack := None;
                  stage := Waiting |} in
      Some (r,
            mkorderFlushQueue (once_done q1) (queue_segmentID q1) (injectCh q1)
              (<[key := r]> (working q1)) (Some f) (wrap32 (runningTasks q1 + 1))
              None (postInjection q1) (runners q1 ++ [t]) (handlers q1)
              (closedChans q1) (S f))
  end.

(** postTask: called by a runner with its pack. *)
Definition postTask (pack : segmentFlushPack) (postInj : option postInjectionFunc)
    (q : orderFlushQueue) : segmentFlushPack * orderFlushQueue :=
  let working' := delete (Pos_MsgID (pos pack)) (working q) in
  let rt := wrap32 (runningTasks q - 1) in
  let q1 :=
    mkorderFlushQueue (once_done q) (queue_segmentID q) (injectCh q) working'
      (tailCh q) rt (injectHandler q) (postInjection q) (runners q)
      (handlers q) (closedChans q) (nextChan q) in
  let q2 :=
    if bool_decide (rt = 0) then
      let '(h, q') := newInjectHandler q1 in
      mkorderFlushQueue (once_done q') (queue_segmentID q') (injectCh q') (working q')
        (tailCh q') (runningTasks q') (Some h) (postInjection q') (runners q')
        (handlers q') (closedChans q') (nextChan q')
    else q1 in
  let post := match postInj with Some f => Some f | None => postInjection q2 end in
  let q3 :=
    mkorderFlushQueue (once_done q2) (queue_segmentID q2) (injectCh q2) (working q2)
      (tailCh q2) (runningTasks q2) (injectHandler q2) post (runners q2)
      (handlers q2) (closedChans q2) (nextChan q2) in
  (match post with Some f => f pack | None => pack end, q3).

(** inject: q.injectCh <- inject; [None] when the buffer is full and the
    sender has to wait. *)
Definition inject (i : taskInjection) (q : orderFlushQueue) : option orderFlushQueue :=
  if bool_decide (length (injectCh q) < injectChCap)%nat then
    Some (mkorderFlushQueue (once_done q) (queue_segmentID q) (injectCh q ++ [i])
            (working q) (tailCh q) (runningTasks q) (injectHandler q)
            (postInjection q) (runners q) (handlers q) (closedChans q) (nextChan q))
  else None.

(** *** The runner (flush_task.go) *)

(** Modelled from the spec: flushTaskRunner.runFlushInsert and runFlushDel
    (flush_task.go is not part of the sources).  §4.9 step 1, "Look up or
    create a FlushTaskRunner keyed by msgID(p)", and invariant I5, "each
    (segmentID, position.msgID) pair maps to at most one executed flush
    task": a half is taken once, a second submission of the same half for
    the same runner is not executed. *)
Definition recordInsert (r : nat) (half : insertHalf) (q : orderFlushQueue) : orderFlushQueue :=
  match runners q !! r with
  | Some t =>
      match insertPart t with
      | Some _ => q
      | None =>
          set_runner r
            (mkflushTaskRunner (runner_segmentID t) (runner_msgID t) (startSignal t)
               (finishSignal t) (Some half) (deletePart t) (runner_pack t) (stage t)) q
      end
  | None => q
  end.

Definition recordDelete (r : nat) (half : deleteHalf) (q : orderFlushQueue) : orderFlushQueue :=
  match runners q !! r with
  | Some t =>
      match deletePart t with
      | Some _ => q
      | None =>
          set_runner r
            (mkflushTaskRunner (runner_segmentID t) (runner_msgID t) (startSignal t)
               (finishSignal t) (insertPart t) (Some half) (runner_pack t) (stage t)) q
      end
  | None => q
  end.

(** Modelled from the spec: the FlushPack a runner builds (getFlushPack,
    flush_task.go).  §3: FlushPack = {segmentID, insertLogs, statsLogs,
    deltaLogs[], position, flushed, dropped, err?}; §4.9: "if a flush task's
    storage write fails, the task's FlushPack.err is non-nil". *)
Definition getFlushPack (t : flushTaskRunner) (ih : insertHalf) (dh : deleteHalf)
  : segmentFlushPack :=
  {| segmentID := runner_segmentID t;
     insertLogs := ih_binlogs ih;
     statsLogs := ih_statslogs ih;
     deltaLogs := match dh_deltaLogs dh with Some d => [d] | None => [] end;
     pos := ih_pos ih;
     flushed := ih_flushed ih;
     dropped := ih_dropped ih;
     err := match ih_err ih with Some e => Some e | None => dh_err dh end |}.

(** The signal is closed: a receive from it does not wait. *)
Definition isClosedChan (c : option chan) (q : orderFlushQueue) : bool :=
  match c with
  | Some c => bool_decide (c ∈ closedChans q)
  | None => false (* a receive from a nil channel waits for ever *)
  end.

Definition with_stage (st : runnerStage) (t : flushTaskRunner) : flushTaskRunner :=
  mkflushTaskRunner (runner_segmentID t) (runner_msgID t) (startSignal t)
    (finishSignal t) (insertPart t) (deletePart t) (runner_pack t) st.

Definition with_pack (pack : segmentFlushPack) (t : flushTaskRunner) : flushTaskRunner :=
  mkflushTaskRunner (runner_segmentID t) (runner_msgID t) (startSignal t)
    (finishSignal t) (insertPart t) (deletePart t) (Some pack) (stage t).

Definition close_chan (c : chan) (q : orderFlushQueue) : orderFlushQueue :=
  mkorderFlushQueue (once_done q) (queue_segmentID q) (injectCh q) (working q)
    (tailCh q) (runningTasks q) (injectHandler q) (postInjection q) (runners q)
    (handlers q) ({[c]} ∪ closedChans q) (nextChan q).

(** ** Executions of one queue

    What runs on a queue: the flow graph's calls of enqueueInsertFlush and
    enqueueDelFlush (through flushBufferData and flushDelData), inject and
    close; the waitFinish goroutine of every runner; the handleInjection
    goroutine of every inject handler.  A label names one atomic action;
    [stepf l q] is the queue after it, or [None] when the action cannot
    take place in [q] (its goroutine is not there, or it has to wait).
    Sections guarded by injectMut or tailMut are atomic; the calls that
    create a runner come from one flow-graph node and so one after the
    other. *)
Inductive label :=
  (* flow graph *)
  | L_enqueueInsert (half : insertHalf)
  | L_enqueueDel (p : MsgPosition) (half : deleteHalf)
  | L_inject (i : taskInjection)
  | L_close
  (* runner r *)
  | L_post (r : nat)
  | L_notifyBegin (r : nat)
  | L_notifyEnd (r : nat)
  | L_finish (r : nat)
  (* inject handler h *)
  | L_receive (h : nat)
  | L_setTail (h : nat)
  | L_injected (h : nat)
  | L_injectOver (h : nat)
  | L_closeDone (h : nat).

Global Instance insertHalf_eq_dec : EqDecision insertHalf.
Proof. solve_decision. Defined.
Global Instance DelDataBuf_eq_dec : EqDecision DelDataBuf.
Proof. solve_decision. Defined.
Global Instance deleteHalf_eq_dec : EqDecision deleteHalf.
Proof. solve_decision. Defined.
Global Instance label_eq_dec : EqDecision label.
Proof. solve_decision. Defined.

(** Modelled from the spec: flushTaskRunner.waitFinish (flush_task.go is not
    part of the sources).  §4.9: the runner's finishSignal is chained after
    the tailCh current at its creation; (2) "The runner, once its
    prerequisites are done (insert + delete subtasks both submitted and
    executed), writes its FlushPack to storage and invokes postTask";
    (3) "postTask removes the runner from working, decrements runningTasks
    ... It invokes postInjection if installed, then calls notifyFunc(pack)";
    tailCh is "a signal that is closed when the current tail task
    completes".  So: wait for both halves and for startSignal, call
    postTask, call notifyFunc, close finishSignal. *)
Definition runner_step (l : label) (q : orderFlushQueue) : option orderFlushQueue :=
  match l with
  | L_post r =>
      t ← runners q !! r;
      ih ← insertPart t;
      dh ← deletePart t;
      if bool_decide (stage t = Waiting) && isClosedChan (startSignal t) q then
        let '(pack, q1) := postTask (getFlushPack t ih dh) None q in
        Some (set_runner r (with_stage Posted (with_pack pack t)) q1)
      else None
  | L_notifyBegin r =>
      t ← runners q !! r;
      if bool_decide (stage t = Posted)
      then Some (set_runner r (with_stage Notifying t) q) else None
  | L_notifyEnd r =>
      t ← runners q !! r;
      if bool_decide (stage t = Notifying)
      then Some (set_runner r (with_stage Notified t) q) else None
  | L_finish r =>
      t ← runners q !! r;
      if bool_decide (stage t = Notified)
      then Some (close_chan (finishSignal t) (set_runner r (with_stage Finished t) q))
      else None
  | _ => None
  end.

(** handleInjection, one statement per step. *)
Definition handler_step (l : label) (q : orderFlushQueue) : option orderFlushQueue :=
  match l with
  | L_receive h =>
      match handlers q !! h, injectCh q with
      | Some HSelect, inject :: rest =>
          Some (set_handler h (HReceived inject)
                  (mkorderFlushQueue (once_done q) (queue_segmentID q) rest (working q)
                     (tailCh q) (runningTasks q) (injectHandler q) (postInjection q)
                     (runners q) (handlers q) (closedChans q) (nextChan q)))
      | _, _ => None
      end
  | L_setTail h =>
      match handlers q !! h with
      | Some (HReceived inject) =>
          let injectDone := nextChan q in
          Some (set_handler h (HTailSet inject injectDone)
                  (mkorderFlushQueue (once_done q) (queue_segmentID q) (injectCh q)
                     (working q) (Some injectDone) (runningTasks q) (injectHandler q)
                     (postInjection q) (runners q) (handlers q) (closedChans q)
                     (S injectDone)))
      | _ => None
      end
  | L_injected h =>
      match handlers q !! h with
      | Some (HTailSet inject injectDone) =>
          Some (set_handler h (HInjected inject injectDone) q)
      | _ => None
      end
  | L_injectOver h =>
      match handlers q !! h with
      | Some (HInjected inject injectDone) =>
          Some (set_handler h (HReleased inject injectDone) q)
      | _ => None
      end
  | L_closeDone h =>
      match handlers q !! h with
      | Some (HReleased inject injectDone) =>
          Some (set_handler h HSelect (close_chan injectDone q))
      | _ => None
      end
  | _ => None
  end.

Definition stepf (l : label) (q : orderFlushQueue) : option orderFlushQueue :=
  match l with
  | L_enqueueInsert half =>
      '(r, q1) ← getFlushTaskRunner (ih_pos half) q; Some (recordInsert r half q1)
  | L_enqueueDel p half =>
      '(r, q1) ← getFlushTaskRunner p q; Some (recordDelete r half q1)
  | L_inject i => inject i q
  | L_close =>
      match injectHandler q with
      | Some h => handler_close h q
      | None => Some q
      end
  | L_post _ | L_notifyBegin _ | L_notifyEnd _ | L_finish _ => runner_step l q
  | L_receive _ | L_setTail _ | L_injected _ | L_injectOver _ | L_closeDone _ =>
      handler_step l q
  end.

(** An execution: the labels in the order they happen. *)
Fixpoint run (ls : list label) (q : orderFlushQueue) : option orderFlushQueue :=
  match ls with
  | [] => Some q
  | l :: ls' => q' ← stepf l q; run ls' q'
  end.

(** The queue getFlushQueue hands out for a segment it sees for the first
    time. *)
Definition freshQueue (segID : UniqueID) : orderFlushQueue :=
  init (newOrderFlushQueue segID).

(** ** rendezvousFlushManager *)

Record rendezvousFlushManager := mkrendezvousFlushManager {
  (* segment id => flush queue *)
  dispatcher : gmap UniqueID orderFlushQueue;
  (* whether the embedded kv.BaseKV is non-nil *)
  manager_hasKV : bool
}.

(** getFlushQueue: LoadOrStore a new queue, init it, and return it.  The
    queue is a pointer in Go; here the caller writes the queue back. *)
Definition getFlushQueue (segID : UniqueID) (m : rendezvousFlushManager) : orderFlushQueue :=
  init (default (newOrderFlushQueue segID) (dispatcher m !! segID)).

Definition putFlushQueue (segID : UniqueID) (q : orderFlushQueue)
    (m : rendezvousFlushManager) : rendezvousFlushManager :=
  mkrendezvousFlushManager (<[segID := q]> (dispatcher m)) (manager_hasKV m).

Definition int64_of (x : Z) : Z := (x + 2 ^ 63) mod 2 ^ 64 - 2 ^ 63.
Definition uint32_of (x : Z) : Z := x mod 2 ^ 32.

Section manager.
Context `{FlushEnv E}.

(** runFlushInsert / runFlushDel: the half is taken once; taking it runs the
    task's storage write. *)
Definition runFlushInsert (r : nat) (task : flushBufferTask)
    (binlogs statslogs : gmap UniqueID string) (flushed dropped : bool)
    (p : MsgPosition) (q : orderFlushQueue) (e : E) : orderFlushQueue * E :=
  match runners q !! r with
  | Some t =>
      match insertPart t with
      | Some _ => (q, e)
      | None =>
          let '(er, e1) := flushData task e in
          (recordInsert r (mkinsertHalf binlogs statslogs flushed dropped p er) q, e1)
      end
  | None => (q, e)
  end.

Definition runFlushDel (r : nat) (task : flushBufferTask)
    (deltaLogs : option DelDataBuf) (q : orderFlushQueue) (e : E) : orderFlushQueue * E :=
  match runners q !! r with
  | Some t =>
      match deletePart t with
      | Some _ => (q, e)
      | None =>
          let '(er, e1) := flushData task e in
          (recordDelete r (mkdeleteHalf deltaLogs er) q, e1)
      end
  | None => (q, e)
  end.

(** enqueueInsertBuffer put insert buffer data into queue *)
Definition enqueueInsertFlush (task : flushBufferTask)
    (binlogs statslogs : gmap UniqueID string) (flushed dropped : bool)
    (p : MsgPosition) (q : orderFlushQueue) (e : E) : option (orderFlushQueue * E) :=
  '(r, q1) ← getFlushTaskRunner p q;
  Some (runFlushInsert r task binlogs statslogs flushed dropped p q1 e).

(** enqueueDelBuffer put delete buffer data into queue *)
Definition enqueueDelFlush (task : flushBufferTask) (deltaLogs : option DelDataBuf)
    (p : MsgPosition) (q : orderFlushQueue) (e : E) : option (orderFlushQueue * E) :=
  '(r, q1) ← getFlushTaskRunner p q;
  Some (runFlushDel r task deltaLogs q1 e).

(** fetch meta info for segment *)
Definition getSegmentMeta (segID : UniqueID) (p : MsgPosition) (e : E)
  : outcome (UniqueID * UniqueID * (UniqueID * string)) * E :=
  if negb (hasSegment segID true e) then
    (Err ("No such segment " +:+ fmt_d segID +:+ " in the replica"), e)
  else
    match getCollectionAndPartitionID segID e with
    | Err er => (Err er, e)
    | Ok (collID, partID) =>
        match getCollectionSchema collID (Pos_Timestamp p) e with
        | (Err er, e1) => (Err er, e1)
        | (Ok sch, e1) => (Ok (collID, partID, (collID, sch)), e1)
        end
    end.

Record insertKeys := mkinsertKeys {
  kvs : gmap string string;
  field2Insert : gmap UniqueID string;
  field2Logidx : gmap UniqueID UniqueID
}.

(** The loop over binLogs; [idx] is the index of the first blob of [blobs]. *)
Fixpoint insertLoop (collID partID segID start : UniqueID) (idx : Z)
    (blobs : list Blob) (a : insertKeys) : outcome insertKeys :=
  match blobs with
  | [] => Ok a
  | blob :: blobs' =>
      match ParseInt (Blob_Key blob) with
      | Err er => Err er
      | Ok fieldID =>
          let logidx := int64_of (start + idx) in
          let k := genKey [collID; partID; segID; fieldID; logidx] in
          let key := path_Join Params_InsertBinlogRootPath k in
          insertLoop collID partID segID start (idx + 1) blobs'
            {| kvs := <[key := Blob_Value blob]> (kvs a);
               field2Insert := <[fieldID := key]> (field2Insert a);
               field2Logidx := <[fieldID := logidx]> (field2Logidx a) |}
      end
  end.

(** The loop over statsBinlogs: (kvs, field2Stats). *)
Fixpoint statsLoop (collID partID segID : UniqueID) (logidxs : gmap UniqueID UniqueID)
    (blobs : list Blob) (a : gmap string string * gmap UniqueID string)
  : outcome (gmap string string * gmap UniqueID string) :=
  match blobs with
  | [] => Ok a
  | blob :: blobs' =>
      match ParseInt (Blob_Key blob) with
      | Err er => Err er
      | Ok fieldID =>
          let logidx := default 0 (logidxs !! fieldID) in
          let k := genKey [collID; partID; segID; fieldID; logidx] in
          let key := path_Join Params_StatsBinlogRootPath k in
          statsLoop collID partID segID logidxs blobs'
            (<[key := Blob_Value blob]> a.1, <[fieldID := key]> a.2)
      end
  end.

(** notify flush manager insert buffer data.  The result is [None] while
    the call waits in getFlushTaskRunner; otherwise the error returned and
    the manager and environment after the call. *)
Definition flushBufferData (data : option BufferData) (segID : UniqueID)
    (flushed dropped : bool) (p : MsgPosition) (m : rendezvousFlushManager) (e : E)
  : option (option error * rendezvousFlushManager * E) :=
  match data ≫= buffer with
  | None =>
      (* empty flush *)
      '(q, e1) ← enqueueInsertFlush emptyTask ∅ ∅ flushed dropped p (getFlushQueue segID m) e;
      Some (None, putFlushQueue segID q m, e1)
  | Some buf =>
      match getSegmentMeta segID p e with
      | (Err er, e1) => Some (Some er, m, e1)
      | (Ok (collID, partID, meta), e1) =>
          (* encode data and convert output data *)
          match InsertCodec_Serialize meta partID segID buf with
          | Err er => Some (Some er, m, e1)
          | Ok (binLogs, statsBinlogs) =>
              match allocIDBatch (uint32_of (Z.of_nat (length binLogs))) e1 with
              | (Err er, e2) => Some (Some er, m, e2)
              | (Ok (start, _), e2) =>
                  match insertLoop collID partID segID start 0 binLogs
                          (mkinsertKeys ∅ ∅ ∅) with
                  | Err er => Some (Some er, m, e2)
                  | Ok a =>
                      (* write stats binlog *)
                      match statsLoop collID partID segID (field2Logidx a) statsBinlogs
                              (kvs a, ∅) with
                      | Err er => Some (Some er, m, e2)
                      | Ok (kvs', field2Stats) =>
                          let e3 := updateSegmentCheckPoint segID e2 in
                          '(q, e4) ← enqueueInsertFlush
                                       (mkflushBufferTask (manager_hasKV m) kvs')
                                       (field2Insert a) field2Stats flushed dropped p
                                       (getFlushQueue segID m) e3;
                          Some (None, putFlushQueue segID q m, e4)
                      end
                  end
              end
          end
      end
  end.

(** notify flush manager del buffer data.  data.fileSize and data.filePath
    are assigned through the pointer; the queue is handed the updated
    buffer. *)
Definition flushDelData (data : option DelDataBuf) (segID : UniqueID)
    (p : MsgPosition) (m : rendezvousFlushManager) (e : E)
  : option (option error * rendezvousFlushManager * E) :=
  match data ≫= (fun d => (fun dd => (d, dd)) <$> delData d) with
  | None =>
      (* del signal with empty data *)
      '(q, e1) ← enqueueDelFlush emptyTask None p (getFlushQueue segID m) e;
      Some (None, putFlushQueue segID q m, e1)
  | Some (d, dd) =>
      match getCollectionAndPartitionID segID e with
      | Err er => Some (Some er, m, e)
      | Ok (collID, partID) =>
          match DeleteCodec_Serialize collID partID segID dd with
          | Err er => Some (Some er, m, e)
          | Ok blob =>
              match allocID e with
              | (Err er, e1) => Some (Some er, m, e1)
              | (Ok logID, e1) =>
                  let blobKey := genKey [collID; partID; segID; logID] in
                  let blobPath := path_Join Params_DeleteBinlogRootPath blobKey in
                  let kvs' : gmap string string := {[blobPath := Blob_Value blob]} in
                  let d' :=
                    mkDelDataBuf (delData d) (DelDataBuf_size d) (tsFrom d) (tsTo d)
                      (Z.of_nat (String.length (Blob_Value blob))) blobPath in
                  '(q, e2) ← enqueueDelFlush (mkflushBufferTask (manager_hasKV m) kvs')
                               (Some d') p (getFlushQueue segID m) e1;
                  Some (None, putFlushQueue segID q m, e2)
              end
          end
      end
  end.

End manager.

(** injectFlush inject process before task finishes *)
Fixpoint injectFlush (injection : taskInjection) (segments : list UniqueID)
    (m : rendezvousFlushManager) : option rendezvousFlushManager :=
  match segments with
  | [] => Some m
  | segID :: segments' =>
      q ← inject injection (getFlushQueue segID m);
      injectFlush injection segments' (putFlushQueue segID q m)
  end.

(** ** What the specification says about executions *)

(** P1, flush ordering: of two runners of one queue, the one created first
    (runners are numbered in the order getFlushTaskRunner creates them) has
    returned from notifyFunc before notifyFunc is entered for the other. *)
Definition notifyInOrder (ls : list label) : Prop :=
  ∀ pre post r1 r2,
    (r1 < r2)%nat →
    ls = pre ++ L_notifyBegin r2 :: post →
    L_notifyEnd r1 ∈ pre.

(** P2, injection barrier, as stated: after a handler has signalled
    [injected], notifyFunc is not entered for any runner before the
    injector has signalled [injectOver] to that handler. *)
Definition injectionBarrier (ls : list label) : Prop :=
  ∀ pre mid post h r,
    ls = pre ++ L_injected h :: mid ++ L_notifyBegin r :: post →
    L_injectOver h ∈ mid.

(** The int32 counter runningTasks cannot wrap while fewer than 2^31 runners
    have been created. *)
Definition inBounds (q : orderFlushQueue) : Prop :=
  Z.of_nat (length (runners q)) < 2 ^ 31.

Fixpoint countWaiting (rs : list flushTaskRunner) : nat :=
  match rs with
  | [] => 0
  | t :: rs' => (if decide (stage t = Waiting) then 1 else 0) + countWaiting rs'
  end.

(** The invariant behind the inject handler: runningTasks counts the
    runners that have not reached postTask, and a handler whose goroutine
    has not returned is the queue's current injectHandler and exists only
    while runningTasks is 0. *)
Definition handlerInvariant (q : orderFlushQueue) : Prop :=
  runningTasks q = Z.of_nat (countWaiting (runners q))
  ∧ ∀ h pc, handlers q !! h = Some pc → pc ≠ HExited →
            injectHandler q = Some h ∧ runningTasks q = 0.

(** What [working] holds: only runners that have not reached postTask, each
    under its own msgID; and an insert half lies with the runner of its
    position. *)
Definition queueWellFormed (q : orderFlushQueue) : Prop :=
  (∀ k r, working q !! k = Some r →
          ∃ t, runners q !! r = Some t ∧ runner_msgID t = k ∧ stage t = Waiting)
  ∧ (∀ r t ih, runners q !! r = Some t → insertPart t = Some ih →
               Pos_MsgID (ih_pos ih) = runner_msgID t).

(** The handler of the queue is in the middle of an injection. *)
Definition handlingInjection (q : orderFlushQueue) : Prop :=
  ∃ h pc, injectHandler q = Some h ∧ handlers q !! h = Some pc
          ∧ pc ≠ HSelect ∧ pc ≠ HExited.

(** After an enqueue for position [p]: the runner registered under the
    msgID of [p] is waiting and holds the half, the one just handed over
    unless the runner had one already. *)
Definition holdsInsertHalf (p : MsgPosition) (half : insertHalf)
    (q q' : orderFlushQueue) : Prop :=
  ∃ r t, working q' !! Pos_MsgID p = Some r ∧ runners q' !! r = Some t
         ∧ stage t = Waiting
         ∧ insertPart t = Some (default half (runners q !! r ≫= insertPart)).

Definition holdsDeleteHalf (p : MsgPosition) (half : deleteHalf)
    (q q' : orderFlushQueue) : Prop :=
  ∃ r t, working q' !! Pos_MsgID p = Some r ∧ runners q' !! r = Some t
         ∧ stage t = Waiting
         ∧ deletePart t = Some (default half (runners q !! r ≫= deletePart)).

(** *** Concrete executions *)

Definition position (msgID : string) (ts : Timestamp) : MsgPosition :=
  mkMsgPosition "by-dev-dml_0" msgID ts.

(** The queue of segment 5 as getFlushQueue creates it. *)
Definition queueOfSegment5 : orderFlushQueue := freshQueue 5.

Definition pos0001 : MsgPosition := position "0001" 10.
Definition pos0002 : MsgPosition := position "0002" 20.

(** The halves of an empty flush. *)
Definition emptyInsert (flushed dropped : bool) (p : MsgPosition) : insertHalf :=
  mkinsertHalf ∅ ∅ flushed dropped p None.

Definition emptyDelete : deleteHalf := mkdeleteHalf None None.

(** A flush at position "0001" goes through postTask (runner 0), which finds
    runningTasks = 0 and starts inject handler 1; an injection is handled
    from beginning to end; a flush at "0002" is then chained after the
    closed injectDone signal, and its runner 1 enters notifyFunc while
    runner 0 has not yet entered it. *)
Definition overtakingSchedule : list label :=
  [ L_enqueueInsert (emptyInsert false false pos0001);
    L_enqueueDel pos0001 emptyDelete;
    L_post 0;
    L_inject 7; L_receive 1; L_setTail 1; L_injected 1; L_injectOver 1; L_closeDone 1;
    L_enqueueInsert (emptyInsert false false pos0002);
    L_enqueueDel pos0002 emptyDelete;
    L_post 1;
    L_notifyBegin 1 ]%nat.

(** Runner 0 has been through postTask, which started handler 1; the
    handler accepts an injection and signals [injected]; runner 0 then
    enters notifyFunc, before [injectOver]. *)
Definition lateNotifySchedule : list label :=
  [ L_enqueueInsert (emptyInsert false false pos0001);
    L_enqueueDel pos0001 emptyDelete;
    L_post 0;
    L_inject 7; L_receive 1; L_setTail 1; L_injected 1;
    L_notifyBegin 0 ]%nat.

(** An injection on an idle queue, up to the point where handler 0 is about
    to signal [injected]. *)
Definition injectionAccepted : list label :=
  [ L_inject 7; L_receive 0; L_setTail 0 ]%nat.

(** The injector releases the injection; a flush at "0001" follows and
    its runner 0 goes through postTask. *)
Definition flushAfterRelease : list label :=
  [ L_injectOver 0; L_closeDone 0;
    L_enqueueInsert (emptyInsert true false pos0001);
    L_enqueueDel pos0001 emptyDelete;
    L_post 0 ]%nat.

(** *** A concrete environment

    A key-value store that accepts every write, an allocator that counts
    up, and a replica holding every segment in collection 42, partition 7;
    used to run the flush manager on explicit inputs. *)
Module testnode.

Record Env := mkEnv {
  saved : gmap string string;
  nextLogID : UniqueID
}.

(** The ids in decimal, joined by "/" (what path.Join gives for them). *)
Fixpoint joinIDs (ids : list UniqueID) : string :=
  match ids with
  | [] => ""
  | id :: ids' =>
      match ids' with
      | [] => fmt_d id
      | _ => fmt_d id +:+ "/" +:+ joinIDs ids'
      end
  end.

(** path.Join of two elements that are clean paths already (no empty, "."
    or ".." component and no trailing slash, as the root paths and the keys
    used here): an empty element is ignored, the others are joined by
    "/". *)
Definition joinPath (a b : string) : string :=
  if bool_decide (a = "") then b
  else if bool_decide (b = "") then a
  else a +:+ "/" +:+ b.

Global Instance flushEnv : FlushEnv Env := {|
  MultiSave := fun data e => (None, mkEnv (data ∪ saved e) (nextLogID e));
  allocID := fun e => (Ok (nextLogID e), mkEnv (saved e) (nextLogID e + 1));
  allocIDBatch := fun n e =>
    (Ok (nextLogID e, nextLogID e + n), mkEnv (saved e) (nextLogID e + n));
  genKey := joinIDs;
  hasSegment := fun _ _ _ => true;
  getCollectionAndPartitionID := fun _ _ => Ok (42, 7);
  getCollectionSchema := fun _ _ e => (Ok "schema", e);
  updateSegmentCheckPoint := fun _ e => e;
  InsertCodec_Serialize := fun _ _ _ _ => Ok ([], []);
  DeleteCodec_Serialize := fun _ _ _ _ => Ok (mkBlob "" "");
  ParseInt := fun _ => Err "invalid syntax";
  path_Join := joinPath;
  Params_InsertBinlogRootPath := "insert_log";
  Params_StatsBinlogRootPath := "stats_log";
  Params_DeleteBinlogRootPath := "delta_log"
|}.

Definition env0 : Env := mkEnv ∅ 100.

(** NewRendezvousFlushManager(allocator, kv, replica, f): no queue yet. *)
Definition manager0 : rendezvousFlushManager := mkrendezvousFlushManager ∅ true.

End testnode.

(** ** flushNotifyFunc (data_sync_service.go / flush_manager.go) *)

(** What the notify closure reaches through dsService: the replica, the
    DataCoord client, the flushing-segment cache, and Params.NodeID.  [N] is
    the state of the node together with the coordinator it talks to. *)
Class DataSyncEnv (N : Type) := {
  (* updates, _ := replica.getSegmentStatisticsUpdates(id); updates.GetNumRows() *)
  getSegmentStatisticsUpdates_NumRows : UniqueID → N → Z;
  (* drain-and-return *)
  listNewSegmentsStartPositions : N → list SegmentStartPosition * N;
  segmentFlushed : UniqueID → N → N;
  flushingSegCache_Remove : UniqueID → N → N;
  (* dsService.dataCoord.SaveBinlogPaths: (rsp, err) *)
  dataCoord_SaveBinlogPaths : SaveBinlogPathsRequest → N → outcome Status * N;
  dsService_collectionID : N → UniqueID;
  Params_NodeID : UniqueID;
  (* fmt.Errorf(format) without operands: the text of the error it returns,
     which is the format with its % verbs expanded *)
  fmt_Errorf : string → error
}.

(** The two places where the closure panics. *)
Inductive panicSite :=
  | panic_packErr      (* panic(pack.err) *)
  | panic_saveFailed.  (* panic(err) after retry.Do *)

Inductive notifyResult :=
  | Returned
  | Panicked (site : panicSite) (v : error).

Definition uint64_of (x : Z) : Z := x mod 2 ^ 64.

Section notify.
Context `{DataSyncEnv N}.

(** Modelled from the spec: retry.Do (internal/util/retry is not part of the
    sources).  §4.9: "If the RPC fails, notifyFunc retries with exponential
    backoff ... until the DC responds Success or a terminal error"; the
    closure panics when retry.Do gives up, so the number of attempts is
    finite: it is what [opts] configure.  The waiting between attempts is
    not modelled. *)
Fixpoint retry_Do (attempts : nat) (fn : N → option error * N) (n : N) : option error * N :=
  match attempts with
  | O => (None, n)
  | S k =>
      match fn n with
      | (None, n1) => (None, n1)
      | (Some er, n1) =>
          match k with
          | O => (Some er, n1)
          | S _ => retry_Do k fn n1
          end
      end
  end.

(** The request the closure builds. Ranging over a Go map visits the keys
    in an unspecified order; [map_to_list] fixes one. *)
Definition buildRequest (pack : segmentFlushPack) (n : N) : SaveBinlogPathsRequest * N :=
  let fieldInsert :=
    map (fun '(k, v) => mkFieldBinlog k [v]) (map_to_list (insertLogs pack)) in
  let fieldStats :=
    map (fun '(k, v) => mkFieldBinlog k [v]) (map_to_list (statsLogs pack)) in
  let deltaInfos :=
    map (fun d => {| RecordEntries := uint64_of (DelDataBuf_size d);
                     TimestampFrom := tsFrom d; TimestampTo := tsTo d;
                     DeltaLogPath := filePath d; DeltaLogSize := fileSize d |})
        (deltaLogs pack) in
  (* only current segment checkpoint info *)
  let checkPoints :=
    [{| CheckPoint_SegmentID := segmentID pack;
        CheckPoint_NumOfRows := getSegmentStatisticsUpdates_NumRows (segmentID pack) n;
        CheckPoint_Position := Some (pos pack) |}] in
  let '(startPositions, n1) := listNewSegmentsStartPositions n in
  ({| SBP_Base := Some (mkMsgBase 0 0 0 Params_NodeID);
      SBP_SegmentID := segmentID pack;
      SBP_CollectionID := dsService_collectionID n;
      SBP_Field2BinlogPaths := fieldInsert;
      SBP_Field2StatslogPaths := fieldStats;
      SBP_Deltalogs := deltaInfos;
      SBP_CheckPoints := checkPoints;
      SBP_StartPositions := startPositions;
      SBP_Flushed := flushed pack;
      SBP_Dropped := dropped pack |}, n1).

(** The function handed to retry.Do. *)
Definition saveOnce (req : SaveBinlogPathsRequest) (n : N) : option error * N :=
  match dataCoord_SaveBinlogPaths req n with
  | (Err er, n1) =>
      (* should be network issue, return error and retry *)
      (Some (fmt_Errorf er), n1)
  | (Ok rsp, n1) =>
      match Status_ErrorCode rsp with
      | ErrorCode_Success => (None, n1)
      | _ =>
          (Some ("data service save bin log path failed, reason = " +:+ Status_Reason rsp), n1)
      end
  end.

(** flushNotifyFunc(dsService, opts...): the notifyMetaFunc of the queues.
    [attempts] is what [opts] give retry.Do. *)
Definition flushNotifyFunc (attempts : nat) (pack : segmentFlushPack) (n : N)
  : notifyResult * N :=
  match err pack with
  | Some er =>
      (* flush pack with error, data node quit now *)
      (Panicked panic_packErr er, n)
  | None =>
      let '(req, n1) := buildRequest pack n in
      match retry_Do attempts (saveOnce req) n1 with
      | (Some er, n2) => (Panicked panic_saveFailed er, n2)
      | (None, n2) =>
          let n3 := if flushed pack || dropped pack
                    then segmentFlushed (segmentID pack) n2 else n2 in
          (Returned, flushingSegCache_Remove (SBP_SegmentID req) n3)
      end
  end.

End notify.

End datanode.

(** * The data sync service (data_sync_service.go) *)

Module datanode_service.
Import datacoord.

(** segmentCheckPoint{numRows, pos} *)
Record segmentCheckPoint := mksegmentCheckPoint {
  cp_numRows : Z;
  cp_pos : MsgPosition
}.

Record parallelConfig := mkparallelConfig {
  maxQueueLength : Z;
  maxParallelism : Z
}.

(** nodeConfig; msFactory, replica and allocator are the service's own and
    are reached through the world the constructors work on. *)
Record nodeConfig := mknodeConfig {
  cfg_collectionID : UniqueID;
  cfg_vChannelName : string;
  cfg_parallelConfig : parallelConfig
}.

(** A flow graph node is used through Name() only. *)
Record Node := mkNode { Node_Name : string }.

(** A value of the parameter map handed to msFactory.SetParams. *)
Inductive paramValue := ParamString (s : string) | ParamInt (n : Z).

(** What initNodes calls: the msgstream factory, the replica, the flow graph
    and the constructors of its four nodes, all declared in other files.
    [W] is the state they work on. *)
Class ServiceEnv (W : Type) := {
  Params_PulsarAddress : string;
  Params_FlowGraphMaxQueueLength : Z;
  Params_FlowGraphMaxParallelism : Z;
  NewTimeTickedFlowGraph : W → W;
  msFactory_SetParams : gmap string paramValue → W → option error * W;
  addNormalSegment :
    UniqueID → UniqueID → UniqueID → string → Z → list FieldBinlog →
    segmentCheckPoint → W → option error * W;
  addFlushedSegment :
    UniqueID → UniqueID → UniqueID → string → Z → list FieldBinlog →
    W → option error * W;
  newDmInputNode : option MsgPosition → nodeConfig → W → outcome Node * W;
  newDDNode : UniqueID → option VchannelInfo → W → Node * W;
  newInsertBufferNode : nodeConfig → W → outcome Node * W;
  newDeleteNode : nodeConfig → W → outcome Node * W;
  fg_AddNode : Node → W → W;
  fg_SetEdges : string → list string → list string → W → option error * W
}.

(** How a call ends: it returns, or the goroutine panics on a nil pointer
    dereference. *)
Inductive execution (A : Type) :=
  | Returns (a : A)
  | NilDereference.
Arguments Returns {A} a.
Arguments NilDereference {A}.

(** dataSyncService: the fields initNodes reads or sets; the rest of the
    node is in the world. *)
Record dataSyncService (W : Type) := mkdataSyncService {
  world : W;
  dss_collectionID : UniqueID;
  dss_hasBlobKV : bool;
  dss_flushManager : option datanode.rendezvousFlushManager
}.
Arguments mkdataSyncService {W}.
Arguments world {W}.
Arguments dss_collectionID {W}.
Arguments dss_hasBlobKV {W}.
Arguments dss_flushManager {W}.

(** The getters of *datapb.VchannelInfo, which read a nil message as one of
    zero values. *)
Definition GetCollectionID (v : option VchannelInfo) : UniqueID :=
  match v with Some v => VI_CollectionID v | None => 0 end.
Definition GetChannelName (v : option VchannelInfo) : string :=
  match v with Some v => VI_ChannelName v | None => "" end.
Definition GetSeekPosition (v : option VchannelInfo) : option MsgPosition :=
  v ≫= VI_SeekPosition.
Definition GetUnflushedSegments (v : option VchannelInfo) : list SegmentInfo :=
  match v with Some v => VI_UnflushedSegments v | None => [] end.
Definition GetFlushedSegments (v : option VchannelInfo) : list SegmentInfo :=
  match v with Some v => VI_FlushedSegments v | None => [] end.

Section service.
Context `{ServiceEnv W}.

Definition newParallelConfig : parallelConfig :=
  mkparallelConfig Params_FlowGraphMaxQueueLength Params_FlowGraphMaxParallelism.

(** The test at the head of both recovery loops. *)
Definition notCompact (collectionID : UniqueID) (channelName : string)
    (segment : SegmentInfo) : bool :=
  bool_decide (CollectionID segment ≠ collectionID)
  || bool_decide (InsertChannel segment ≠ channelName).

(** recover segment checkpoints: the loop over vchanInfo.GetUnflushedSegments()
    (the segments of a decoded message are not nil).  [channelName] is
    vchanInfo.ChannelName, read inside the loop only.  The checkpoint is
    built from *us.GetDmlPosition() before addNormalSegment is called. *)
Fixpoint recoverUnflushed (collectionID : UniqueID) (channelName : string)
    (segments : list SegmentInfo) (w : W) : execution (option error * W) :=
  match segments with
  | [] => Returns (None, w)
  | us :: segments' =>
      if notCompact collectionID channelName us then
        recoverUnflushed collectionID channelName segments' w
      else
        match DmlPosition us with
        | None => NilDereference
        | Some dmlPosition =>
            match addNormalSegment (ID us) (CollectionID us) (PartitionID us)
                    (InsertChannel us) (NumOfRows us) (Statslogs us)
                    (mksegmentCheckPoint (NumOfRows us) dmlPosition) w with
            | (Some err, w1) => Returns (Some err, w1)
            | (None, w1) => recoverUnflushed collectionID channelName segments' w1
            end
        end
  end.

(** The loop over vchanInfo.GetFlushedSegments(). *)
Fixpoint recoverFlushed (collectionID : UniqueID) (channelName : string)
    (segments : list SegmentInfo) (w : W) : option error * W :=
  match segments with
  | [] => (None, w)
  | fs :: segments' =>
      if notCompact collectionID channelName fs then
        recoverFlushed collectionID channelName segments' w
      else
        match addFlushedSegment (ID fs) (CollectionID fs) (PartitionID fs)
                (InsertChannel fs) (NumOfRows fs) (Statslogs fs) w with
        | (Some err, w1) => (Some err, w1)
        | (None, w1) => recoverFlushed collectionID channelName segments' w1
        end
  end.

(** The second half of initNodes: the four nodes and their edges. *)
Definition buildFlowGraph (collectionID : UniqueID) (vchanInfo : option VchannelInfo)
    (w : W) : option error * W :=
  let c := {| cfg_collectionID := GetCollectionID vchanInfo;
              cfg_vChannelName := GetChannelName vchanInfo;
              cfg_parallelConfig := newParallelConfig |} in
  match newDmInputNode (GetSeekPosition vchanInfo) c w with
  | (Err err, w1) => (Some err, w1)
  | (Ok dmStreamNode, w1) =>
      let '(ddNode, w2) := newDDNode collectionID vchanInfo w1 in
      match newInsertBufferNode c w2 with
      | (Err err, w3) => (Some err, w3)
      | (Ok insertBufferNode, w3) =>
          match newDeleteNode c w3 with
          | (Err err, w4) => (Some err, w4)
          | (Ok deleteNode, w4) =>
              let w5 :=
                fg_AddNode deleteNode
                  (fg_AddNode insertBufferNode
                     (fg_AddNode ddNode (fg_AddNode dmStreamNode w4))) in
              (* ddStreamNode *)
              match fg_SetEdges (Node_Name dmStreamNode) [] [Node_Name ddNode] w5 with
              | (Some err, w6) => (Some err, w6)
              | (None, w6) =>
                  (* ddNode *)
                  match fg_SetEdges (Node_Name ddNode) [Node_Name dmStreamNode]
                          [Node_Name insertBufferNode] w6 with
                  | (Some err, w7) => (Some err, w7)
                  | (None, w7) =>
                      (* insertBufferNode *)
                      match fg_SetEdges (Node_Name insertBufferNode) [Node_Name ddNode]
                              [Node_Name deleteNode] w7 with
                      | (Some err, w8) => (Some err, w8)
                      | (None, w8) =>
                          (* deleteNode *)
                          fg_SetEdges (Node_Name deleteNode)
                            [Node_Name insertBufferNode] [] w8
                      end
                  end
              end
          end
      end
  end.

Definition with_world (w : W) (service : dataSyncService W) : dataSyncService W :=
  mkdataSyncService w (dss_collectionID service) (dss_hasBlobKV service)
    (dss_flushManager service).

(** initNodes inits a TimetickedFlowGraph *)
Definition initNodes (vchanInfo : option VchannelInfo) (service : dataSyncService W)
  : execution (option error * dataSyncService W) :=
  let w0 := NewTimeTickedFlowGraph (world service) in
  let m : gmap string paramValue :=
    {[ "PulsarAddress" := ParamString Params_PulsarAddress;
       "ReceiveBufSize" := ParamInt 1024;
       "PulsarBufSize" := ParamInt 1024 ]} in
  match msFactory_SetParams m w0 with
  | (Some err, w1) => Returns (Some err, with_world w1 service)
  | (None, w1) =>
      (* initialize flush manager for DataSync Service *)
      let service1 :=
        mkdataSyncService w1 (dss_collectionID service) (dss_hasBlobKV service)
          (Some (datanode.mkrendezvousFlushManager ∅ (dss_hasBlobKV service))) in
      (* recover segment checkpoints *)
      match recoverUnflushed (dss_collectionID service) (GetChannelName vchanInfo)
              (GetUnflushedSegments vchanInfo) w1 with
      | NilDereference => NilDereference
      | Returns (Some err, w2) => Returns (Some err, with_world w2 service1)
      | Returns (None, w2) =>
          match recoverFlushed (dss_collectionID service) (GetChannelName vchanInfo)
                  (GetFlushedSegments vchanInfo) w2 with
          | (Some err, w3) => Returns (Some err, with_world w3 service1)
          | (None, w3) =>
              let '(err, w4) := buildFlowGraph (dss_collectionID service) vchanInfo w3 in
              Returns (err, with_world w4 service1)
          end
      end
  end.

(** newDataSyncService; [replica] says whether the replica handed in is
    non-nil, [blobKV] whether the blob store is. *)
Definition newDataSyncService (replica : bool) (w : W) (vchan : option VchannelInfo)
    (blobKV : bool) : execution (outcome (dataSyncService W)) :=
  if negb replica then Returns (Err "Nil input")
  else
    let service :=
      {| world := w; dss_collectionID := GetCollectionID vchan;
         dss_hasBlobKV := blobKV; dss_flushManager := None |} in
    match initNodes vchan service with
    | NilDereference => NilDereference
    | Returns (Some err, _) => Returns (Err err)
    | Returns (None, service') => Returns (Ok service')
    end.

End service.

End datanode_service.

(** * Concrete inputs

    Servers, environments and requests on which the handlers and the flush
    manager are run. *)
Module samples.

(** ** DataCoord *)

Module coord.
Import datacoord.

(** Segment 2 of collection 42, partition 7: Flushed, with two binlogs of
    field 100, one of field 101 and a statslog of field 100. *)
Definition flushedSegment : SegmentInfo :=
  {| ID := 2; CollectionID := 42; PartitionID := 7; InsertChannel := "c1";
     NumOfRows := 500; State := SegmentState_Flushed; MaxRowNum := 1000;
     LastExpireTime := 0;
     StartPosition := Some (mkMsgPosition "c1" "0001" 900);
     DmlPosition := Some (mkMsgPosition "c1" "0007" 970);
     Binlogs := [mkFieldBinlog 100 ["insert_log/42/7/2/100/11"];
                 mkFieldBinlog 101 ["insert_log/42/7/2/101/12"];
                 mkFieldBinlog 100 ["insert_log/42/7/2/100/13"]];
     Statslogs := [mkFieldBinlog 100 ["stats_log/42/7/2/100/11"]];
     Deltalogs := [mkDeltaLogInfo 3 950 960 "delta_log/42/7/2/14" 64];
     CreatedByCompaction := false; CompactionFrom := [] |}.

(** The server [testbed.healthy] with that segment 2. *)
Definition recovering : testbed.Server :=
  testbed.set_segments (insert 2 flushedSegment) testbed.healthy.

(** A meta whose partition index has gone stale: it lists segment 77, which
    the segment table does not hold. *)
Definition staleMeta : Meta testbed.Server :=
  {| GetSegment := fun id s => testbed.segments s !! id;
     GetNumRowsOfCollection := fun _ _ => 0;
     GetNumRowsOfPartition := fun _ _ _ => 0;
     GetSegmentsByChannel := fun _ _ => [];
     GetSegmentsIDOfCollection := fun _ _ => [2; 77; 3];
     GetSegmentsIDOfPartition := fun _ _ _ => [2; 77; 3];
     UpdateFlushSegmentsInfo := fun _ _ _ _ _ _ _ _ s => (None, s) |}.

(** The constants of [testbed.consts] with compaction switched on. *)
Definition compactingConsts : Consts :=
  {| ServerStateInitializing := 1;
     ServerStateHealthy := 2;
     serverNotServingErrMsg := "server is not serving";
     msgDataCoordIsUnhealthy := fun id => "DataCoord " +:+ fmt_d id +:+ " is not ready";
     Params_TimeTickChannelName := "datacoord-timetick-channel";
     Params_StatisticsChannelName := "datacoord-statistics-channel";
     Params_SegmentInfoChannelName := "datacoord-segment-info-channel";
     Params_NodeID := 1;
     Params_EnableCompaction := true;
     ParseMetricType := fun request => Ok request;
     SystemInfoMetrics := "system_info";
     MsgUnimplementedMetric := "metric type not implemented" |}.

(** Compaction 9 with five plans, one in each state. *)
Definition plansOf9 : list compactionTask :=
  [ mkcompactionTask 9 [1; 2] executing None;
    mkcompactionTask 9 [3] completed (Some (mkCompactionResult 31 8));
    mkcompactionTask 9 [4] timeout None;
    mkcompactionTask 9 [5] failed None;
    mkcompactionTask 9 [6] pipelining None ].

Definition compactionOf9 : Compaction testbed.Server :=
  {| getTimetravelReverseTime := fun s => (Ok (testbed.now s), s);
     triggerSingleCompaction := fun _ _ _ _ _ s => (None, s);
     forceTriggerCompaction := fun _ _ s => (Ok 9, s);
     completeCompaction := fun _ s => (None, s);
     getCompactionTasksBySignalID :=
       fun id _ => if bool_decide (id = 9) then plansOf9 else [] |}.

End coord.

(** ** DataNode *)

Module node.
Import datanode.

(** The environment of [testnode] with a replica that has lost its
    segments. *)
Definition emptyReplicaEnv : FlushEnv testnode.Env :=
  {| MultiSave := fun data e =>
       (None, testnode.mkEnv (data ∪ testnode.saved e) (testnode.nextLogID e));
     allocID := fun e =>
       (Ok (testnode.nextLogID e),
        testnode.mkEnv (testnode.saved e) (testnode.nextLogID e + 1));
     allocIDBatch := fun n e =>
       (Ok (testnode.nextLogID e, testnode.nextLogID e + n),
        testnode.mkEnv (testnode.saved e) (testnode.nextLogID e + n));
     genKey := testnode.joinIDs;
     hasSegment := fun _ _ _ => false;
     getCollectionAndPartitionID := fun _ _ => Err "segment not found";
     getCollectionSchema := fun _ _ e => (Err "collection not found", e);
     updateSegmentCheckPoint := fun _ e => e;
     InsertCodec_Serialize := fun _ _ _ _ => Ok ([], []);
     DeleteCodec_Serialize := fun _ _ _ _ => Ok (mkBlob "" "");
     ParseInt := fun _ => Err "invalid syntax";
     path_Join := testnode.joinPath;
     Params_InsertBinlogRootPath := "insert_log";
     Params_StatsBinlogRootPath := "stats_log";
     Params_DeleteBinlogRootPath := "delta_log" |}.

(** The environment of [testnode] with a ParseInt that reads the field ids
    100, 101 and 102. *)
Definition parsingEnv : FlushEnv testnode.Env :=
  {| MultiSave := fun data e =>
       (None, testnode.mkEnv (data ∪ testnode.saved e) (testnode.nextLogID e));
     allocID := fun e =>
       (Ok (testnode.nextLogID e),
        testnode.mkEnv (testnode.saved e) (testnode.nextLogID e + 1));
     allocIDBatch := fun n e =>
       (Ok (testnode.nextLogID e, testnode.nextLogID e + n),
        testnode.mkEnv (testnode.saved e) (testnode.nextLogID e + n));
     genKey := testnode.joinIDs;
     hasSegment := fun _ _ _ => true;
     getCollectionAndPartitionID := fun _ _ => Ok (42, 7);
     getCollectionSchema := fun _ _ e => (Ok "schema", e);
     updateSegmentCheckPoint := fun _ e => e;
     InsertCodec_Serialize := fun _ _ _ _ => Ok ([], []);
     DeleteCodec_Serialize := fun _ _ _ _ => Ok (mkBlob "" "");
     ParseInt := fun s =>
       if bool_decide (s = "100") then Ok 100
       else if bool_decide (s = "101") then Ok 101
       else if bool_decide (s = "102") then Ok 102
       else Err "invalid syntax";
     path_Join := testnode.joinPath;
     Params_InsertBinlogRootPath := "insert_log";
     Params_StatsBinlogRootPath := "stats_log";
     Params_DeleteBinlogRootPath := "delta_log" |}.

(** Insert binlogs of fields 100 and 101, stats binlogs of fields 101 and
    102. *)
Definition binLogs : list Blob := [mkBlob "100" "rows of 100"; mkBlob "101" "rows of 101"].
Definition statsBinlogs : list Blob :=
  [mkBlob "101" "stats of 101"; mkBlob "102" "stats of 102"].

(** A buffer with rows of field 100. *)
Definition someRows : BufferData :=
  mkBufferData (Some {[ 100 := ["row"] ]}) 1 16.

End node.

(** ** The data sync service *)

Module service.
Import datacoord datanode_service.

(** A world that records what the replica was given and what the flow graph
    was built from. *)
Record World := mkWorld {
  normalSegments : list UniqueID;
  flushedSegments : list UniqueID;
  graphNodes : list string;
  graphEdges : list (string * list string * list string)
}.

Global Instance serviceEnv : ServiceEnv World := {|
  Params_PulsarAddress := "pulsar://localhost:6650";
  Params_FlowGraphMaxQueueLength := 1024;
  Params_FlowGraphMaxParallelism := 1024;
  NewTimeTickedFlowGraph := fun w =>
    mkWorld (normalSegments w) (flushedSegments w) [] [];
  msFactory_SetParams := fun _ w => (None, w);
  addNormalSegment := fun id _ _ _ _ _ _ w =>
    (None, mkWorld (normalSegments w ++ [id]) (flushedSegments w)
             (graphNodes w) (graphEdges w));
  addFlushedSegment := fun id _ _ _ _ _ w =>
    (None, mkWorld (normalSegments w) (flushedSegments w ++ [id])
             (graphNodes w) (graphEdges w));
  newDmInputNode := fun _ _ w => (Ok (mkNode "dmInputNode"), w);
  newDDNode := fun _ _ w => (mkNode "ddNode", w);
  newInsertBufferNode := fun _ w => (Ok (mkNode "ibNode"), w);
  newDeleteNode := fun _ w => (Ok (mkNode "deleteNode"), w);
  fg_AddNode := fun node w =>
    mkWorld (normalSegments w) (flushedSegments w)
      (graphNodes w ++ [Node_Name node]) (graphEdges w);
  fg_SetEdges := fun name ins outs w =>
    (None, mkWorld (normalSegments w) (flushedSegments w) (graphNodes w)
             (graphEdges w ++ [(name, ins, outs)]))
|}.

Definition emptyWorld : World := mkWorld [] [] [] [].

(** Channel "c1" of collection 42 with three unflushed segments: segment 2
    with a DmlPosition, segment 5 of collection 43, and segment 1, which
    has no DmlPosition. *)
Definition vchanOf42 : VchannelInfo :=
  {| VI_CollectionID := 42; VI_ChannelName := "c1";
     VI_SeekPosition := Some (mkMsgPosition "c1" "0001" 900);
     VI_UnflushedSegments :=
       [ coord.flushedSegment;
         testbed.segmentOf 5 43 9 "c2" SegmentState_Growing 30;
         testbed.segmentOf 1 42 7 "c1" SegmentState_Growing 10 ];
     VI_FlushedSegments := [] |}.

Definition serviceOf42 : dataSyncService World :=
  {| world := emptyWorld; dss_collectionID := 42; dss_hasBlobKV := true;
     dss_flushManager := None |}.

End service.

End samples.

(** * Properties of the DataCoord services *)

Module datacoord_spec.
Import datacoord.

(** ** getCompactionState *)

Definition countState (st : compactionTaskState) (tasks : list compactionTask) : Z :=
  Z.of_nat (length (filter (fun t => state t = st) tasks)).

Lemma countState_cons st t tasks :
  countState st (t :: tasks)
  = (if decide (state t = st) then 1 else 0) + countState st tasks.
Proof.
  unfold countState. rewrite filter_cons.
  destruct (decide (state t = st)); simpl; lia.
Qed.

Lemma countState_nonneg st tasks : 0 ≤ countState st tasks.
Proof. unfold countState. lia. Qed.

Lemma countState_pos_iff st tasks :
  countState st tasks ≠ 0 ↔ ∃ t, t ∈ tasks ∧ state t = st.
Proof.
  unfold countState. split.
  - intros Hne.
    destruct (filter (fun t => state t = st) tasks) as [|t l] eqn:E; [done|].
    assert (t ∈ filter (fun t => state t = st) tasks) as Ht by (rewrite E; left).
    apply list_elem_of_filter in Ht as [? ?]. by exists t.
  - intros (t & Hin & Hst).
    assert (t ∈ filter (fun t => state t = st) tasks) as Ht
      by (apply list_elem_of_filter; done).
    destruct (filter (fun t => state t = st) tasks); [by apply elem_of_nil in Ht|].
    simpl. lia.
Qed.

Lemma countTask_eq e c t x :
  countTask (e, c, t) x
  = (e + (if decide (state x = executing) then 1 else 0),
     c + (if decide (state x = completed) then 1 else 0),
     t + (if decide (state x = timeout) then 1 else 0)).
Proof.
  unfold countTask. destruct (state x); simpl; by rewrite ?Z.add_0_r.
Qed.

Lemma foldl_countTask tasks e c t :
  foldl countTask (e, c, t) tasks
  = (e + countState executing tasks, c + countState completed tasks,
     t + countState timeout tasks).
Proof.
  revert e c t. induction tasks as [|x tasks IH]; intros e c t.
  - unfold countState. simpl. by rewrite !Z.add_0_r.
  - cbn [foldl]. rewrite countTask_eq, IH, !countState_cons.
    by rewrite !Z.add_assoc.
Qed.

(** C9. getCompactionState reports Executing exactly when some task is in the
    executing state and Completed otherwise; in particular an empty list, or
    a list of failed and timed-out tasks only, is reported Completed.  The
    three counters are the numbers of executing, completed and timed-out
    tasks. *)
Theorem getCompactionState_executing_iff (tasks : list compactionTask) :
  ∃ st, getCompactionState tasks
        = (st, countState executing tasks, countState completed tasks,
           countState timeout tasks)
  ∧ (st = CompactionState_Executing ↔ ∃ t, t ∈ tasks ∧ state t = executing)
  ∧ (st ≠ CompactionState_Executing → st = CompactionState_Completed)
  ∧ (Forall (fun t => state t = failed ∨ state t = timeout) tasks →
     st = CompactionState_Completed).
Proof.
  unfold getCompactionState. rewrite foldl_countTask. rewrite !Z.add_0_l.
  pose proof (countState_pos_iff executing tasks) as Hiff.
  case_bool_decide as Hex; eexists; (split; [reflexivity|]).
  - split; [tauto|]. split; [done|].
    intros Hall. apply Hiff in Hex as (t & Hin & Hst).
    rewrite Forall_forall in Hall. destruct (Hall t Hin); congruence.
  - split; [|done]. split; [done|]. intros Hsome. apply Hiff in Hsome. done.
Qed.

(** ** The handlers, for every implementation of the components *)

Section handlers.
Context `{Consts} {S : Type}.
Context `{!ServerOps S, !Meta S, !Manager S, !ChannelManager S, !Compaction S, !Remote S}.

(** C3. A SaveBinlogPaths request that reaches the owner check and fails it
    (the server is Healthy, the segment is in meta, and
    channelManager.Match(nodeID, channel) is false) is answered with
    UnexpectedError and the reason "channel <c> is not watched on node <n>",
    and the server is left exactly as it was: no DropSegment,
    UpdateFlushSegmentsInfo, RemoveChannel, flushCh send or compaction
    trigger is applied, whatever their implementation. *)
Theorem SaveBinlogPaths_rejects_stale_owner
    (req : SaveBinlogPathsRequest) (s : S) (segment : SegmentInfo) :
  isClosed s = false →
  GetSegment (SBP_SegmentID req) s = Some segment →
  Match (GetSourceID (SBP_Base req)) (InsertChannel segment) s = false →
  SaveBinlogPaths req s
  = (mkStatus ErrorCode_UnexpectedError
       ("channel " +:+ InsertChannel segment +:+ " is not watched on node "
        +:+ fmt_d (GetSourceID (SBP_Base req))),
     s).
Proof.
  intros Hserving Hseg Hmatch. unfold SaveBinlogPaths.
  rewrite Hserving, Hseg, Hmatch. reflexivity.
Qed.

(** The ids GetFlushedSegments starts from. *)
Definition candidateIDs (req : GetFlushedSegmentsRequest) (s : S) : list UniqueID :=
  if bool_decide (GFS_PartitionID req < 0)
  then GetSegmentsIDOfCollection (GFS_CollectionID req) s
  else GetSegmentsIDOfPartition (GFS_CollectionID req) (GFS_PartitionID req) s.

Lemma keepFlushed_true (s : S) (id : UniqueID) :
  keepFlushed s id = true
  ↔ GetSegment id s = None
    ∨ ∃ seg, GetSegment id s = Some seg ∧ State seg = SegmentState_Flushed.
Proof.
  unfold keepFlushed. destruct (GetSegment id s) as [seg|].
  - case_bool_decide as Hst; simpl; split.
    + done.
    + intros [?|(seg' & [= <-] & ?)]; done.
    + intros _. right. exists seg. split; [done|].
      destruct (decide (State seg = SegmentState_Flushed)); done.
    + done.
  - split; auto.
Qed.

(** C8. On a Healthy server GetFlushedSegments answers Success, changes
    nothing, and keeps, of the ids returned by GetSegmentsIDOfCollection
    (partitionID < 0) or GetSegmentsIDOfPartition, exactly those whose meta
    lookup is nil or whose segment is Flushed: an id with a nil lookup is
    always included, and an id is left out only when its segment exists in a
    state other than Flushed. *)
Theorem GetFlushedSegments_keeps_missing_and_flushed
    (req : GetFlushedSegmentsRequest) (s : S) :
  isClosed s = false →
  (GetFlushedSegments req s).2 = s
  ∧ GFR_Status (GetFlushedSegments req s).1 = mkStatus ErrorCode_Success ""
  ∧ (∀ id, id ∈ GFR_Segments (GetFlushedSegments req s).1
           ↔ id ∈ candidateIDs req s
             ∧ (GetSegment id s = None
                ∨ ∃ seg, GetSegment id s = Some seg ∧ State seg = SegmentState_Flushed))
  ∧ (∀ id, id ∈ candidateIDs req s → GetSegment id s = None →
           id ∈ GFR_Segments (GetFlushedSegments req s).1)
  ∧ (∀ id, id ∈ candidateIDs req s →
           id ∉ GFR_Segments (GetFlushedSegments req s).1 →
           ∃ seg, GetSegment id s = Some seg ∧ State seg ≠ SegmentState_Flushed).
Proof.
  intros Hserving. unfold GetFlushedSegments. rewrite Hserving. simpl.
  fold (candidateIDs req s).
  assert (∀ id, id ∈ filter (fun id => keepFlushed s id = true) (candidateIDs req s)
                ↔ id ∈ candidateIDs req s
                  ∧ (GetSegment id s = None
                     ∨ ∃ seg, GetSegment id s = Some seg
                              ∧ State seg = SegmentState_Flushed)) as Hiff.
  { intros id. rewrite list_elem_of_filter, keepFlushed_true. tauto. }
  split; [done|]. split; [done|]. split; [exact Hiff|]. split.
  - intros i Hin Hnone. apply Hiff. auto.
  - intros i Hin Hout. destruct (GetSegment i s) as [seg|] eqn:E.
    + exists seg. split; [done|]. intros Hst. apply Hout, Hiff. eauto.
    + exfalso. apply Hout, Hiff. auto.
Qed.

(** The reason a handler that checks [isClosed] gives on a server that is
    not Healthy: msgDataCoordIsUnhealthy(Params.NodeID) in GetMetrics, the
    four compaction handlers and WatchChannels, serverNotServingErrMsg in
    the others. *)
Definition notServingReason (rq : Request) : string :=
  match rq with
  | Req_GetMetrics _ | Req_CompleteCompaction _ | Req_ManualCompaction _
  | Req_GetCompactionState _ | Req_GetCompactionStateWithPlans _
  | Req_WatchChannels _ => msgDataCoordIsUnhealthy Params_NodeID
  | _ => serverNotServingErrMsg
  end.

(** What a handler answers on a server that is not Healthy: the four
    handlers without the [isClosed] check give the answer they always give,
    the others UnexpectedError with their not-serving reason. *)
Definition notServingAnswer (rq : Request) (s : S) : Prop :=
  match rq with
  | Req_GetTimeTickChannel =>
      (serve rq s).1
      = Resp_String (mkStringResponse (mkStatus ErrorCode_Success "")
                       Params_TimeTickChannelName)
  | Req_GetStatisticsChannel =>
      (serve rq s).1
      = Resp_String (mkStringResponse (mkStatus ErrorCode_Success "")
                       Params_StatisticsChannelName)
  | Req_GetSegmentInfoChannel =>
      (serve rq s).1
      = Resp_String (mkStringResponse (mkStatus ErrorCode_Success "")
                       Params_SegmentInfoChannelName)
  | Req_GetComponentStates =>
      (serve rq s).1
      = Resp_ComponentStates
          {| CS_State :=
               {| CI_NodeID := Params_NodeID; CI_Role := "datacoord";
                  CI_StateCode :=
                    if bool_decide (isServing s = ServerStateInitializing)
                    then StateCode_Initializing else StateCode_Abnormal |};
             CS_Status := mkStatus ErrorCode_Success "" |}
  | _ =>
      statusOf (serve rq s).1
      = Some (mkStatus ErrorCode_UnexpectedError (notServingReason rq))
  end.

(** C4, as the code has it. When the server is not Healthy, no RPC changes
    the server.  Every handler that starts with the isClosed check answers
    UnexpectedError with its not-serving reason: serverNotServingErrMsg in
    Flush, AssignSegmentID, GetSegmentStates, GetInsertBinlogPaths, the two
    statistics handlers, GetSegmentInfo, SaveBinlogPaths, GetRecoveryInfo
    and GetFlushedSegments, msgDataCoordIsUnhealthy(Params.NodeID) in
    GetMetrics, the four compaction handlers and WatchChannels.  The three
    legacy channel-name getters have no such check and answer Success with
    their channel name (Params.TimeTickChannelName,
    Params.StatisticsChannelName, Params.SegmentInfoChannelName);
    GetComponentStates answers Success with the state code Initializing
    when the server state is ServerStateInitializing and Abnormal
    otherwise. *)
Theorem not_serving_rpc_answers (rq : Request) (s : S) :
  isClosed s = true →
  (serve rq s).2 = s ∧ notServingAnswer rq s.
Proof.
  intros Hclosed. unfold notServingAnswer.
  destruct rq; cbn [notServingReason serve wrap fst snd];
    unfold Flush, AssignSegmentID, GetSegmentStates, GetInsertBinlogPaths,
      GetCollectionStatistics, GetPartitionStatistics, GetSegmentInfo,
      SaveBinlogPaths, GetRecoveryInfo, GetFlushedSegments, GetMetrics,
      CompleteCompaction, ManualCompaction, GetCompactionState,
      GetCompactionStateWithPlans, WatchChannels, GetTimeTickChannel,
      GetStatisticsChannel, GetSegmentInfoChannel, GetComponentStates;
    rewrite ?Hclosed; cbn; (split; [reflexivity|]); try reflexivity.
  unfold isClosed in Hclosed. apply bool_decide_eq_true in Hclosed.
  do 3 f_equal. repeat case_bool_decide; congruence.
Qed.

(** The part of C5 that is Flush's own: on a Healthy server the response is
    built from what SealAllSegments returns. *)
Lemma Flush_healthy (req : FlushRequest) (s : S) :
  isClosed s = false →
  Flush req s
  = match SealAllSegments (FlushRequest_CollectionID req) s with
    | (Ok sealedSegments, s1) =>
        ({| FlushResponse_Status := mkStatus ErrorCode_Success "";
            FlushResponse_DbID := FlushRequest_DbID req;
            FlushResponse_CollectionID := FlushRequest_CollectionID req;
            FlushResponse_SegmentIDs := sealedSegments |}, s1)
    | (Err err, s1) =>
        ({| FlushResponse_Status :=
              mkStatus ErrorCode_UnexpectedError
                ("failed to flush " +:+ fmt_d (FlushRequest_CollectionID req)
                 +:+ ", " +:+ err);
            FlushResponse_DbID := 0; FlushResponse_CollectionID := 0;
            FlushResponse_SegmentIDs := [] |}, s1)
    end.
Proof.
  intros Hserving. unfold Flush. rewrite Hserving.
  destruct (SealAllSegments _ s) as [[ids|err] s1]; reflexivity.
Qed.

End handlers.

(** ** The handlers on the concrete server *)

Section on_testbed.
Import testbed.

Lemma SealAllSegments_ids (collectionID : UniqueID) (s : Server) (ids : list UniqueID)
    (s' : Server) :
  testbed.SealAllSegments collectionID s = (Ok ids, s') →
  NoDup ids
  ∧ (∀ id, id ∈ ids ↔ ∃ seg, segments s !! id = Some seg
                              ∧ CollectionID seg = collectionID
                              ∧ State seg = SegmentState_Growing)
  ∧ (∀ id, id ∈ ids → ∃ seg, segments s' !! id = Some seg
                              ∧ CollectionID seg = collectionID
                              ∧ State seg = SegmentState_Sealed)
  ∧ (∀ id seg, segments s' !! id = Some seg →
               ¬ (CollectionID seg = collectionID ∧ State seg = SegmentState_Growing)).
Proof.
  unfold testbed.SealAllSegments. destruct (kvAvailable s); [|done].
  intros [= <- <-].
  assert (∀ id, id ∈ (filter (fun kv => isGrowingOf collectionID kv.2 = true)
                             (map_to_list (segments s))).*1
                ↔ ∃ seg, segments s !! id = Some seg
                         ∧ CollectionID seg = collectionID
                         ∧ State seg = SegmentState_Growing) as Hmem.
  { intros i. rewrite list_elem_of_fmap. split.
    - intros ([i' seg] & -> & Hin). apply list_elem_of_filter in Hin as [Hg Hin].
      apply elem_of_map_to_list in Hin. exists seg. split; [done|].
      unfold isGrowingOf in Hg. simpl in Hg. by apply bool_decide_eq_true in Hg.
    - intros (seg & Hl & Hc & Hst). exists (i, seg). split; [done|].
      apply list_elem_of_filter. split; [|by apply elem_of_map_to_list].
      unfold isGrowingOf. simpl. by apply bool_decide_eq_true. }
  split; [|split; [exact Hmem|split]].
  - eapply sublist_NoDup; [apply (NoDup_fst_map_to_list (segments s))|].
    apply fmap_sublist, sublist_filter.
  - intros i Hin. apply Hmem in Hin as (seg & Hl & Hc & Hst).
    exists (with_State SegmentState_Sealed seg). simpl. rewrite lookup_fmap, Hl. simpl.
    unfold isGrowingOf. rewrite bool_decide_eq_true_2 by done. done.
  - intros i seg'. simpl. rewrite lookup_fmap.
    destruct (segments s !! i) as [seg|]; [|done]. simpl. intros [= <-].
    unfold isGrowingOf. case_bool_decide as Hg; simpl; [|done].
    intros [_ ?]. done.
Qed.

(** The ids are exactly the Growing segments of the collection in [s], each
    of them is Sealed in [s'], and [s'] has no Growing segment of the
    collection left. *)
Definition sealedExactly (collectionID : UniqueID) (ids : list UniqueID)
    (s s' : Server) : Prop :=
  NoDup ids
  ∧ (∀ id, id ∈ ids ↔ ∃ seg, GetSegment id s = Some seg
                              ∧ CollectionID seg = collectionID
                              ∧ State seg = SegmentState_Growing)
  ∧ (∀ id, id ∈ ids → ∃ seg, GetSegment id s' = Some seg
                              ∧ CollectionID seg = collectionID
                              ∧ State seg = SegmentState_Sealed)
  ∧ (∀ id seg, GetSegment id s' = Some seg →
               ¬ (CollectionID seg = collectionID
                  ∧ State seg = SegmentState_Growing)).

(** C5. Flush on a Healthy server returns exactly the ids SealAllSegments
    returns, with Success and the request's DbID and CollectionID, and on a
    SealAllSegments error a failure status with an empty id list.  With the
    segment manager of the spec, the ids returned are exactly the Growing
    segments of the requested collection, each of them is Sealed afterwards
    and no Growing segment of the collection remains. *)
Theorem Flush_returns_sealed_segments (req : FlushRequest) (s : Server) :
  isClosed s = false →
  match testbed.SealAllSegments (FlushRequest_CollectionID req) s with
  | (Ok sealedSegments, s1) =>
      Flush req s
      = ({| FlushResponse_Status := mkStatus ErrorCode_Success "";
            FlushResponse_DbID := FlushRequest_DbID req;
            FlushResponse_CollectionID := FlushRequest_CollectionID req;
            FlushResponse_SegmentIDs := sealedSegments |}, s1)
      ∧ sealedExactly (FlushRequest_CollectionID req) sealedSegments s s1
  | (Err err, s1) =>
      Flush req s
      = ({| FlushResponse_Status :=
              mkStatus ErrorCode_UnexpectedError
                ("failed to flush " +:+ fmt_d (FlushRequest_CollectionID req)
                 +:+ ", " +:+ err);
            FlushResponse_DbID := 0; FlushResponse_CollectionID := 0;
            FlushResponse_SegmentIDs := [] |}, s1)
  end.
Proof.
  intros Hserving. rewrite (Flush_healthy req s Hserving).
  change (datacoord.SealAllSegments (FlushRequest_CollectionID req) s)
    with (testbed.SealAllSegments (FlushRequest_CollectionID req) s).
  destruct (testbed.SealAllSegments (FlushRequest_CollectionID req) s)
    as [[ids|err] s1] eqn:E; [|done].
  split; [done|]. by apply SealAllSegments_ids in E.
Qed.

(** *** AssignSegmentID *)

(** The fields of the server that no operation of an AssignSegmentID call
    changes. *)
Definition sameSettings (s s' : Server) : Prop :=
  collections s' = collections s ∧ now s' = now s
  ∧ allocationTTL s' = allocationTTL s
  ∧ allocatorAvailable s' = allocatorAvailable s
  ∧ kvAvailable s' = kvAvailable s
  ∧ serving s' = serving s.

Lemma sameSettings_refl s : sameSettings s s.
Proof. by repeat split. Qed.

Lemma sameSettings_trans s1 s2 s3 :
  sameSettings s1 s2 → sameSettings s2 s3 → sameSettings s1 s3.
Proof.
  unfold sameSettings. intros (?&?&?&?&?&?) (?&?&?&?&?&?).
  repeat split; congruence.
Qed.

Lemma Watch_sameSettings ch s : sameSettings s (Watch ch s).
Proof.
  unfold Watch. destruct (watching s !! ch), (leastLoaded s);
    by repeat split.
Qed.

Lemma AllocSegment_result collectionID partitionID channelName count s :
  let r := testbed.AllocSegment collectionID partitionID channelName count s in
  sameSettings s r.2
  ∧ match r.1 with
    | Ok allocations =>
        ∃ id, allocations = [mkAllocation id count (now s + allocationTTL s)]
    | Err _ =>
        collections s !! collectionID = None
        ∨ allocatorAvailable s = false ∨ kvAvailable s = false
    end.
Proof.
  unfold testbed.AllocSegment.
  destruct (collections s !! collectionID) as [maxRows|] eqn:Hc; simpl;
    [|split; [apply sameSettings_refl|by left]].
  destruct (filter _ (map_to_list (segments s))) as [|[id seg] l]; simpl.
  - destruct (allocatorAvailable s) eqn:Ha; simpl;
      [|split; [apply sameSettings_refl|by right; left]].
    destruct (kvAvailable s) eqn:Hk; simpl;
      [|split; [apply sameSettings_refl|by right; right]].
    split; [by repeat split|]. by eexists.
  - split; [by repeat split|]. by eexists.
Qed.

Lemma assignedCount_app l1 l2 :
  assignedCount (l1 ++ l2) = assignedCount l1 + assignedCount l2.
Proof.
  unfold assignedCount. induction l1 as [|a l1 IH]; simpl; [done|].
  rewrite IH. lia.
Qed.

Lemma assignLoop_testbed (reqs : list SegmentIDRequest) :
  ∀ (assigns : list SegmentIDAssignment) (s : Server) (t : Timestamp),
    Forall (fun r => 0 ≤ SIR_Count r < 2 ^ 32) reqs →
    t = now s + allocationTTL s →
    Forall (fun a => SIA_ExpireTime a = t) assigns →
    sameSettings s (assignLoop reqs assigns s).2
    ∧ assignedCount (assignLoop reqs assigns s).1
      = assignedCount assigns + requestedCount (servedRequests reqs s)
    ∧ Forall (fun a => SIA_ExpireTime a = t) (assignLoop reqs assigns s).1
    ∧ servedRequests reqs s `sublist_of` reqs
    ∧ Forall (fun r => is_Some (collections s !! SIR_CollectionID r))
             (servedRequests reqs s)
    ∧ (allocatorAvailable s = true → kvAvailable s = true →
       servedRequests reqs s
       = filter (fun r => is_Some (collections s !! SIR_CollectionID r)) reqs).
Proof.
  induction reqs as [|r reqs IH]; intros assigns s t Hrange Ht Hacc.
  - simpl. split; [apply sameSettings_refl|]. split; [lia|].
    split; [done|]. split; [done|]. split; [done|]. done.
  - apply Forall_cons in Hrange as [Hr Hrange].
    cbn [assignLoop servedRequests GetCollection serverOps].
    destruct (collections s !! SIR_CollectionID r) as [maxRows|] eqn:Hc; cbn [fmap option_fmap option_map].
    + cbn [cluster_Watch channelManager AllocSegment manager].
      pose proof (Watch_sameSettings (SIR_ChannelName r) s) as Hw.
      set (s2 := Watch (SIR_ChannelName r) s) in *.
      change (datacoord.AllocSegment (SIR_CollectionID r) (SIR_PartitionID r)
                (SIR_ChannelName r) (SIR_Count r) s2)
        with (testbed.AllocSegment (SIR_CollectionID r) (SIR_PartitionID r)
                (SIR_ChannelName r) (SIR_Count r) s2).
      pose proof (AllocSegment_result (SIR_CollectionID r) (SIR_PartitionID r)
                    (SIR_ChannelName r) (SIR_Count r) s2) as [Hs3 Hres].
      destruct (testbed.AllocSegment _ _ _ _ s2) as [[allocations|err] s3]; simpl in Hs3, Hres.
      * destruct Hres as [id ->].
        pose proof (sameSettings_trans _ _ _ Hw Hs3) as Hs.
        assert (t = now s3 + allocationTTL s3) as Ht3.
        { destruct Hs as (?&?&?&?&?&?). congruence. }
        assert (now s2 + allocationTTL s2 = t) as Ht2.
        { destruct Hw as (?&?&?&?&?&?). congruence. }
        specialize (IH (assigns ++ map (assignmentOf r)
                          [mkAllocation id (SIR_Count r) (now s2 + allocationTTL s2)])
                      s3 t Hrange Ht3).
        destruct IH as (IH1 & IH2 & IH3 & IH4 & IH5 & IH6).
        { apply Forall_app. split; [done|]. simpl. by repeat constructor. }
        split; [by eapply sameSettings_trans|].
        split.
        { rewrite IH2, assignedCount_app. simpl. unfold to_uint32.
          rewrite Z.mod_small by lia. lia. }
        split; [done|]. split; [by apply sublist_skip|].
        assert (collections s3 = collections s) as Hcs by (by destruct Hs).
        split.
        { constructor; [by rewrite Hc|]. by rewrite <- Hcs. }
        intros Ha Hk. rewrite filter_cons, decide_True by (by rewrite Hc).
        f_equal. rewrite IH6.
        -- by rewrite Hcs.
        -- destruct Hs as (?&?&?&?&?&?). congruence.
        -- destruct Hs as (?&?&?&?&?&?). congruence.
      * pose proof (sameSettings_trans _ _ _ Hw Hs3) as Hs.
        assert (t = now s3 + allocationTTL s3) as Ht3.
        { destruct Hs as (?&?&?&?&?&?). congruence. }
        specialize (IH assigns s3 t Hrange Ht3 Hacc).
        destruct IH as (IH1 & IH2 & IH3 & IH4 & IH5 & IH6).
        assert (collections s3 = collections s) as Hcs by (by destruct Hs).
        split; [by eapply sameSettings_trans|]. split; [done|]. split; [done|].
        split; [by apply sublist_cons|].
        split; [by rewrite <- Hcs|].
        intros Ha Hk. exfalso.
        destruct Hw as (Hw1&_&_&Hw4&Hw5&_).
        destruct Hres as [Hn|[Hn|Hn]]; congruence.
    + specialize (IH assigns s t Hrange Ht Hacc).
      destruct IH as (IH1 & IH2 & IH3 & IH4 & IH5 & IH6).
      split; [done|]. split; [done|]. split; [done|].
      split; [by apply sublist_cons|]. split; [done|].
      intros Ha Hk. rewrite filter_cons, decide_False; [by apply IH6|].
      rewrite Hc. by intros [? ?].
Qed.

(** C6 as the specification states it: the counts of the returned
    allocations add up to the counts requested, and every ExpireTime is
    later than the time of the call. *)
Definition allocatesAllRequested (reqs : list SegmentIDRequest) (s : Server) : Prop :=
  isClosed s = false →
  let assigns := ASR_SegIDAssignments (AssignSegmentID reqs s).1 in
  assignedCount assigns = requestedCount reqs
  ∧ Forall (fun a => now s < SIA_ExpireTime a) assigns.

(** C6, as the code has it. On a Healthy server AssignSegmentID answers
    Success; a request whose collection the server does not know, or whose
    AllocSegment call fails, is skipped without an error; the counts of the
    returned allocations add up to the counts of the requests that were
    served, which are the requests for known collections when allocator and
    storage are available; every returned ExpireTime is
    now + allocationTTL, later than the time of the call. *)
Theorem AssignSegmentID_allocates_served_requests
    (reqs : list SegmentIDRequest) (s : Server) :
  isClosed s = false →
  0 < allocationTTL s →
  Forall (fun r => 0 ≤ SIR_Count r < 2 ^ 32) reqs →
  let resp := (AssignSegmentID reqs s).1 in
  ASR_Status resp = mkStatus ErrorCode_Success ""
  ∧ assignedCount (ASR_SegIDAssignments resp) = requestedCount (servedRequests reqs s)
  ∧ servedRequests reqs s `sublist_of` reqs
  ∧ Forall (fun r => is_Some (GetCollection (SIR_CollectionID r) s).1)
           (servedRequests reqs s)
  ∧ (allocatorAvailable s = true → kvAvailable s = true →
     servedRequests reqs s
     = filter (fun r => is_Some (GetCollection (SIR_CollectionID r) s).1) reqs)
  ∧ Forall (fun a => SIA_ExpireTime a = now s + allocationTTL s
                     ∧ now s < SIA_ExpireTime a)
           (ASR_SegIDAssignments resp).
Proof.
  intros Hserving Httl Hrange. unfold AssignSegmentID. rewrite Hserving.
  pose proof (assignLoop_testbed reqs [] s (now s + allocationTTL s) Hrange eq_refl
                (Forall_nil_2 _)) as (H1 & H2 & H3 & H4 & H5 & H6).
  destruct (assignLoop reqs [] s) as [assigns s1] eqn:E. simpl in *.
  assert (∀ r, is_Some (((fun _ => mkcollectionInfo (SIR_CollectionID r) [])
                          <$> collections s !! SIR_CollectionID r))
               ↔ is_Some (collections s !! SIR_CollectionID r)) as Hsome.
  { intros r. by rewrite fmap_is_Some. }
  split; [done|]. split; [done|]. split; [done|]. split.
  { eapply Forall_impl; [exact H5|]. intros r Hr. by apply Hsome. }
  split.
  { intros Ha Hk. rewrite (H6 Ha Hk). apply list_filter_iff. intros r. by rewrite Hsome. }
  eapply Forall_impl; [exact H3|]. intros a ->. split; [done|lia].
Qed.

(** *** The handlers run on the concrete servers *)

Lemma SaveBinlogPaths_rejects_stale_owner_witness :
  isClosed healthy = false
  ∧ GetSegment 1 healthy = Some (segmentOf 1 42 7 "c1" SegmentState_Growing 10)
  ∧ Match 101 "c1" healthy = false
  ∧ SaveBinlogPaths staleReport healthy
    = (mkStatus ErrorCode_UnexpectedError "channel c1 is not watched on node 101",
       healthy).
Proof.
  split; [reflexivity|]. split; [reflexivity|]. split; [reflexivity|].
  apply (SaveBinlogPaths_rejects_stale_owner staleReport healthy
           (segmentOf 1 42 7 "c1" SegmentState_Growing 10)); reflexivity.
Defined.

Lemma GetFlushedSegments_keeps_missing_and_flushed_witness :
  isClosed healthy = false
  ∧ GFR_Status (GetFlushedSegments (mkGetFlushedSegmentsRequest 42 (-1)) healthy).1
    = mkStatus ErrorCode_Success "".
Proof.
  split; [reflexivity|].
  apply (GetFlushedSegments_keeps_missing_and_flushed
           (mkGetFlushedSegmentsRequest 42 (-1)) healthy).
  reflexivity.
Defined.

(** GetTimeTickChannel answers Success on a server that is still
    initializing: C4 does not hold for it. *)
Lemma GetTimeTickChannel_ignores_serving_state :
  ¬ rejectsWhenNotServing Req_GetTimeTickChannel initializing.
Proof.
  intros Hclaim. destruct (Hclaim eq_refl) as [(reason & Hst & _) _].
  simpl in Hst. discriminate Hst.
Qed.

Lemma not_serving_rpc_answers_witness :
  isClosed initializing = true
  ∧ (serve (Req_SaveBinlogPaths staleReport) initializing).2 = initializing
  ∧ notServingAnswer (Req_SaveBinlogPaths staleReport) initializing
  ∧ notServingAnswer Req_GetSegmentInfoChannel initializing
  ∧ notServingAnswer Req_GetComponentStates initializing.
Proof.
  assert (isClosed initializing = true) as Hclosed by reflexivity.
  split; [exact Hclosed|].
  destruct (not_serving_rpc_answers (Req_SaveBinlogPaths staleReport) initializing
              Hclosed) as [Hsame Hsave].
  destruct (not_serving_rpc_answers Req_GetSegmentInfoChannel initializing Hclosed)
    as [_ Hchannel].
  destruct (not_serving_rpc_answers Req_GetComponentStates initializing Hclosed)
    as [_ Hstates].
  split; [exact Hsame|]. split; [exact Hsave|]. split; [exact Hchannel|exact Hstates].
Defined.

Lemma Flush_returns_sealed_segments_witness :
  isClosed healthy = false
  ∧ ∃ ids s1,
      testbed.SealAllSegments 42 healthy = (Ok ids, s1)
      ∧ Flush (mkFlushRequest 0 42) healthy
        = ({| FlushResponse_Status := mkStatus ErrorCode_Success "";
              FlushResponse_DbID := 0; FlushResponse_CollectionID := 42;
              FlushResponse_SegmentIDs := ids |}, s1)
      ∧ sealedExactly 42 ids healthy s1.
Proof.
  split; [reflexivity|].
  pose proof (Flush_returns_sealed_segments (mkFlushRequest 0 42) healthy eq_refl) as Hflush.
  cbn [FlushRequest_CollectionID FlushRequest_DbID] in Hflush.
  destruct (testbed.SealAllSegments 42 healthy) as [[ids|err] s1] eqn:E.
  - exists ids, s1. split; [reflexivity|]. exact Hflush.
  - exfalso. vm_compute in E. discriminate E.
Defined.

(** A request for 5 rows in collection 7, which the server does not know,
    is skipped: the response is Success with no allocation. *)
Lemma AssignSegmentID_skips_unknown_collection :
  ¬ allocatesAllRequested [mkSegmentIDRequest 5 "c1" 7 1] healthy.
Proof.
  intros Hclaim. destruct (Hclaim eq_refl) as [Hsum _].
  vm_compute in Hsum. discriminate Hsum.
Qed.

Lemma AssignSegmentID_allocates_served_requests_witness :
  isClosed healthy = false
  ∧ 0 < allocationTTL healthy
  ∧ assignedCount
      (ASR_SegIDAssignments
         (AssignSegmentID [mkSegmentIDRequest 5 "c1" 7 1; mkSegmentIDRequest 30 "c1" 42 7]
            healthy).1)
    = requestedCount
        (servedRequests [mkSegmentIDRequest 5 "c1" 7 1; mkSegmentIDRequest 30 "c1" 42 7]
           healthy).
Proof.
  split; [reflexivity|]. split; [reflexivity|].
  apply (AssignSegmentID_allocates_served_requests
           [mkSegmentIDRequest 5 "c1" 7 1; mkSegmentIDRequest 30 "c1" 42 7] healthy).
  - reflexivity.
  - reflexivity.
  - repeat constructor; vm_compute; congruence.
Defined.

End on_testbed.

End datacoord_spec.

(** * Properties of the DataNode flush manager *)

Module datanode_spec.
Import datanode.

(** ** flushNotifyFunc *)

Section notify.
Context `{DataSyncEnv N}.

(** C7. Given a pack whose err is non-nil, the notify function panics with
    that error and leaves the node and the coordinator exactly as they were:
    no SaveBinlogPaths call is made and nothing of the replica or the cache
    is touched, whatever their implementation.  Given a pack whose err is
    nil, it never panics at that place: it returns, or panics with the error
    retry.Do gave up with. *)
Theorem flushNotifyFunc_panics_on_pack_error (attempts : nat)
    (pack : segmentFlushPack) (n : N) :
  match err pack with
  | Some er => flushNotifyFunc attempts pack n = (Panicked panic_packErr er, n)
  | None => ∀ er, (flushNotifyFunc attempts pack n).1 ≠ Panicked panic_packErr er
  end.
Proof.
  unfold flushNotifyFunc. destruct (err pack) as [er|]; [reflexivity|].
  intros er. destruct (buildRequest pack n) as [req n1].
  destruct (retry_Do attempts (saveOnce req) n1) as [[er'|] n2]; simpl; congruence.
Qed.

End notify.

(** ** Executions of a queue *)

Local Arguments postTask : simpl never.
Local Arguments getFlushTaskRunner : simpl never.
Local Arguments handler_close : simpl never.
Local Arguments recordInsert : simpl never.
Local Arguments recordDelete : simpl never.

(** Projections of an updated queue. *)
Ltac qsimpl :=
  unfold set_runner, set_handler, close_chan in *;
  cbn [runners handlers injectHandler runningTasks closedChans tailCh working
       injectCh nextChan once_done queue_segmentID postInjection
       stage startSignal finishSignal insertPart deletePart runner_pack
       runner_msgID runner_segmentID with_stage with_pack fst snd] in *.

Lemma run_app (ls1 ls2 : list label) (q : orderFlushQueue) :
  run (ls1 ++ ls2) q = run ls1 q ≫= run ls2.
Proof.
  revert q. induction ls1 as [|l ls1 IH]; intros q; simpl; [done|].
  destruct (stepf l q) as [q'|]; simpl; [apply IH|done].
Qed.

Lemma run_snoc (ls : list label) (l : label) (q q' : orderFlushQueue) :
  run (ls ++ [l]) q = Some q' ↔ ∃ q1, run ls q = Some q1 ∧ stepf l q1 = Some q'.
Proof.
  rewrite run_app. destruct (run ls q) as [q1|]; simpl.
  - destruct (stepf l q1) as [q2|] eqn:E; simpl.
    + split; [intros [= <-]; eauto|intros (? & [= <-] & Hs); congruence].
    + split; [done|intros (? & [= <-] & Hs); congruence].
  - split; [done|]. intros (? & ? & ?). done.
Qed.

Definition waitingWeight (t : flushTaskRunner) : nat :=
  if decide (stage t = Waiting) then 1 else 0.

Lemma countWaiting_app (rs1 rs2 : list flushTaskRunner) :
  countWaiting (rs1 ++ rs2) = (countWaiting rs1 + countWaiting rs2)%nat.
Proof. induction rs1 as [|t rs1 IH]; simpl; [done|]. rewrite IH. lia. Qed.

Lemma countWaiting_insert (rs : list flushTaskRunner) (r : nat) (t t' : flushTaskRunner) :
  rs !! r = Some t →
  (countWaiting (<[r := t']> rs) + waitingWeight t
   = countWaiting rs + waitingWeight t')%nat.
Proof.
  revert r. induction rs as [|x rs IH]; intros r Hr; [done|].
  destruct r as [|r]; simpl in *.
  - injection Hr as ->. unfold waitingWeight. lia.
  - specialize (IH r Hr). lia.
Qed.

Lemma countWaiting_le (rs : list flushTaskRunner) : (countWaiting rs ≤ length rs)%nat.
Proof. induction rs as [|t rs IH]; simpl; [done|]. case_decide; lia. Qed.

Lemma countWaiting_pos (rs : list flushTaskRunner) (r : nat) (t : flushTaskRunner) :
  rs !! r = Some t → stage t = Waiting → (1 ≤ countWaiting rs)%nat.
Proof.
  revert r. induction rs as [|x rs IH]; intros r Hr Hst; [done|].
  destruct r as [|r]; simpl in *.
  - injection Hr as ->. rewrite decide_True by done. lia.
  - specialize (IH r Hr Hst). lia.
Qed.

Lemma wrap32_small (x : Z) : - 2 ^ 31 ≤ x < 2 ^ 31 → wrap32 x = x.
Proof. intros Hx. unfold wrap32. rewrite Z.mod_small; lia. Qed.

(** *** What one step does to the runners and the handlers *)

Lemma handler_close_runners h q q' :
  handler_close h q = Some q' → runners q' = runners q.
Proof.
  unfold handler_close. intros Hc.
  destruct (handlers q !! h) as [[]|]; simplify_eq; done.
Qed.

Lemma recordInsert_length r half q :
  length (runners (recordInsert r half q)) = length (runners q).
Proof.
  unfold recordInsert. destruct (runners q !! r) as [t|]; [|done].
  destruct (insertPart t); [done|]. simpl. by rewrite length_insert.
Qed.

Lemma recordDelete_length r half q :
  length (runners (recordDelete r half q)) = length (runners q).
Proof.
  unfold recordDelete. destruct (runners q !! r) as [t|]; [|done].
  destruct (deletePart t); [done|]. simpl. by rewrite length_insert.
Qed.

Lemma getFlushTaskRunner_length p q r q' :
  getFlushTaskRunner p q = Some (r, q') →
  (length (runners q) ≤ length (runners q'))%nat.
Proof.
  unfold getFlushTaskRunner. destruct (working q !! Pos_MsgID p); [by intros [= <- <-]|].
  destruct (injectHandler q) as [h|]; simpl.
  - destruct (handler_close h q) as [q1|] eqn:E; simpl; [|done].
    intros [= <- <-]. simpl. rewrite length_app.
    apply handler_close_runners in E. rewrite E. lia.
  - intros [= <- <-]. simpl. rewrite length_app. lia.
Qed.

(** Inversion of the steps. *)

Lemma post_inv r q q' :
  stepf (L_post r) q = Some q' →
  ∃ t ih dh,
    runners q !! r = Some t ∧ insertPart t = Some ih ∧ deletePart t = Some dh
    ∧ stage t = Waiting ∧ isClosedChan (startSignal t) q = true
    ∧ q' = set_runner r
             (with_stage Posted (with_pack (postTask (getFlushPack t ih dh) None q).1 t))
             (postTask (getFlushPack t ih dh) None q).2.
Proof.
  simpl. intros Hs.
  destruct (runners q !! r) as [t|]; simplify_eq/=.
  destruct (insertPart t) as [ih|] eqn:Ei; simplify_eq/=.
  destruct (deletePart t) as [dh|] eqn:Ed; simplify_eq/=.
  destruct (bool_decide (stage t = Waiting)) eqn:Est; simplify_eq/=.
  destruct (isClosedChan (startSignal t) q) eqn:Ec; simplify_eq/=.
  destruct (postTask (getFlushPack t ih dh) None q) as [pack q1] eqn:E.
  simplify_eq/=. apply bool_decide_eq_true in Est.
  exists t, ih, dh. by repeat split.
Qed.

Lemma stage_step_inv (l : label) (r : nat) (from to : runnerStage) q q' :
  (l = L_notifyBegin r ∧ from = Posted ∧ to = Notifying)
  ∨ (l = L_notifyEnd r ∧ from = Notifying ∧ to = Notified) →
  stepf l q = Some q' →
  ∃ t, runners q !! r = Some t ∧ stage t = from
       ∧ q' = set_runner r (with_stage to t) q.
Proof.
  intros [(-> & -> & ->)|(-> & -> & ->)]; simpl; intros Hs;
    destruct (runners q !! r) as [t|]; simplify_eq/=;
    case_bool_decide; simplify_eq/=; by exists t.
Qed.

Lemma finish_inv r q q' :
  stepf (L_finish r) q = Some q' →
  ∃ t, runners q !! r = Some t ∧ stage t = Notified
       ∧ q' = close_chan (finishSignal t) (set_runner r (with_stage Finished t) q).
Proof.
  simpl. intros Hs. destruct (runners q !! r) as [t|]; simplify_eq/=.
  case_bool_decide; simplify_eq/=. by exists t.
Qed.

Lemma postTask_runners pack pi q : runners (postTask pack pi q).2 = runners q.
Proof. unfold postTask. simpl. by case_bool_decide. Qed.

Lemma stepf_length (l : label) (q q' : orderFlushQueue) :
  stepf l q = Some q' → (length (runners q) ≤ length (runners q'))%nat.
Proof.
  destruct l; intros Hs.
  - simpl in Hs.
    destruct (getFlushTaskRunner (ih_pos half) q) as [[r q1]|] eqn:E; simplify_eq/=.
    rewrite recordInsert_length. by eapply getFlushTaskRunner_length.
  - simpl in Hs. destruct (getFlushTaskRunner p q) as [[r q1]|] eqn:E; simplify_eq/=.
    rewrite recordDelete_length. by eapply getFlushTaskRunner_length.
  - simpl in Hs. unfold inject in Hs. case_bool_decide; simplify_eq/=. done.
  - simpl in Hs. destruct (injectHandler q) as [h|]; simplify_eq/=; [|done].
    apply handler_close_runners in Hs. by rewrite Hs.
  - apply post_inv in Hs as (t & ih & dh & _ & _ & _ & _ & _ & ->).
    qsimpl. by rewrite length_insert, postTask_runners.
  - eapply stage_step_inv in Hs as (t & _ & _ & ->); [|by left].
    qsimpl. by rewrite length_insert.
  - eapply stage_step_inv in Hs as (t & _ & _ & ->); [|by right].
    qsimpl. by rewrite length_insert.
  - apply finish_inv in Hs as (t & _ & _ & ->). qsimpl. by rewrite length_insert.
  - simpl in Hs. destruct (handlers q !! h) as [[]|]; simplify_eq/=.
    destruct (injectCh q); simplify_eq/=. done.
  - simpl in Hs. destruct (handlers q !! h) as [[]|]; simplify_eq/=. done.
  - simpl in Hs. destruct (handlers q !! h) as [[]|]; simplify_eq/=. done.
  - simpl in Hs. destruct (handlers q !! h) as [[]|]; simplify_eq/=. done.
  - simpl in Hs. destruct (handlers q !! h) as [[]|]; simplify_eq/=. done.
Qed.

Lemma run_length (ls : list label) (q q' : orderFlushQueue) :
  run ls q = Some q' → (length (runners q) ≤ length (runners q'))%nat.
Proof.
  revert q. induction ls as [|l ls IH]; intros q; simpl; [by intros [= <-]|].
  destruct (stepf l q) as [q1|] eqn:E; simpl; [|done].
  intros Hr. apply stepf_length in E. apply IH in Hr. lia.
Qed.

(** *** The inject handler and runningTasks *)

Definition labelHandler (l : label) : option nat :=
  match l with
  | L_receive h | L_setTail h | L_injected h | L_injectOver h | L_closeDone h => Some h
  | _ => None
  end.

(** The move of the handler's goroutine that a label stands for. *)
Definition handlerMove (l : label) (pc pc' : handlerPc) : Prop :=
  match l with
  | L_receive _ => pc = HSelect ∧ ∃ i, pc' = HReceived i
  | L_setTail _ => ∃ i d, pc = HReceived i ∧ pc' = HTailSet i d
  | L_injected _ => ∃ i d, pc = HTailSet i d ∧ pc' = HInjected i d
  | L_injectOver _ => ∃ i d, pc = HInjected i d ∧ pc' = HReleased i d
  | L_closeDone _ => ∃ i d, pc = HReleased i d ∧ pc' = HSelect
  | _ => False
  end.

Lemma handler_step_inv l q q' :
  handler_step l q = Some q' →
  ∃ h pc pc',
    labelHandler l = Some h
    ∧ handlers q !! h = Some pc
    ∧ handlers q' = <[h := pc']> (handlers q)
    ∧ runners q' = runners q
    ∧ injectHandler q' = injectHandler q
    ∧ runningTasks q' = runningTasks q
    ∧ handlerMove l pc pc'.
Proof.
  destruct l; simpl; intros Hs; try done;
    destruct (handlers q !! h) as [pc|] eqn:Eh; simplify_eq/=;
    destruct pc; simplify_eq/=.
  - destruct (injectCh q) as [|i rest]; simplify_eq/=.
    exists h, HSelect, (HReceived i). qsimpl. eauto 10.
  - exists h, (HReceived inject0), (HTailSet inject0 (nextChan q)). qsimpl. eauto 10.
  - exists h, (HTailSet inject0 injectDone), (HInjected inject0 injectDone).
    qsimpl. eauto 10.
  - exists h, (HInjected inject0 injectDone), (HReleased inject0 injectDone).
    qsimpl. eauto 10.
  - exists h, (HReleased inject0 injectDone), HSelect. qsimpl. eauto 10.
Qed.

Lemma handlerMove_alive l pc pc' : handlerMove l pc pc' → pc ≠ HExited ∧ pc' ≠ HExited.
Proof.
  destruct l; simpl; try done.
  - intros [-> [i ->]]. done.
  - intros (i & d & -> & ->). done.
  - intros (i & d & -> & ->). done.
  - intros (i & d & -> & ->). done.
  - intros (i & d & -> & ->). done.
Qed.

Lemma postTask_props pack pi q :
  runners (postTask pack pi q).2 = runners q
  ∧ runningTasks (postTask pack pi q).2 = wrap32 (runningTasks q - 1)
  ∧ if bool_decide (wrap32 (runningTasks q - 1) = 0)
    then handlers (postTask pack pi q).2 = handlers q ++ [HSelect]
         ∧ injectHandler (postTask pack pi q).2 = Some (length (handlers q))
    else handlers (postTask pack pi q).2 = handlers q
         ∧ injectHandler (postTask pack pi q).2 = injectHandler q.
Proof. unfold postTask. simpl. case_bool_decide; simpl; done. Qed.

Lemma handler_close_inv h q q' :
  handler_close h q = Some q' →
  (handlers q !! h = Some HSelect ∧ q' = set_handler h HExited q)
  ∨ ((handlers q !! h = Some HExited ∨ handlers q !! h = None) ∧ q' = q).
Proof.
  unfold handler_close. destruct (handlers q !! h) as [[]|]; intros; simplify_eq; eauto.
Qed.

(** After close() has returned no handler is left running. *)
Lemma handler_close_all_exited h q q' :
  handlerInvariant q → injectHandler q = Some h → handler_close h q = Some q' →
  runners q' = runners q ∧ runningTasks q' = runningTasks q
  ∧ ∀ h' pc, handlers q' !! h' = Some pc → pc = HExited.
Proof.
  intros [_ Hinv] Hh Hc. apply handler_close_inv in Hc as [[Hsel ->]|[Hex ->]]; qsimpl.
  - split; [done|]. split; [done|]. intros h' pc Hl.
    destruct (decide (h' = h)) as [->|Hne].
    + rewrite list_lookup_insert_eq in Hl by (by eapply lookup_lt_Some). congruence.
    + rewrite list_lookup_insert_ne in Hl by done.
      destruct (decide (pc = HExited)) as [|Hpc]; [done|].
      destruct (Hinv h' pc Hl Hpc) as [? _]. congruence.
  - split; [done|]. split; [done|]. intros h' pc Hl.
    destruct (decide (pc = HExited)) as [|Hpc]; [done|].
    destruct (Hinv h' pc Hl Hpc) as [? _].
    assert (h' = h) as -> by congruence. destruct Hex; congruence.
Qed.

Lemma getFlushTaskRunner_inv p q r q' :
  getFlushTaskRunner p q = Some (r, q') →
  (working q !! Pos_MsgID p = Some r ∧ q' = q)
  ∨ (working q !! Pos_MsgID p = None ∧ r = length (runners q)
     ∧ ∃ q1,
         match injectHandler q with
         | Some h => handler_close h q = Some q1
         | None => q1 = q
         end
         ∧ q' = mkorderFlushQueue (once_done q1) (queue_segmentID q1) (injectCh q1)
                  (<[Pos_MsgID p := r]> (working q1)) (Some (nextChan q1))
                  (wrap32 (runningTasks q1 + 1)) None (postInjection q1)
                  (runners q1
                   ++ [mkflushTaskRunner (queue_segmentID q1) (Pos_MsgID p) (tailCh q1)
                         (nextChan q1) None None None Waiting])
                  (handlers q1) (closedChans q1) (S (nextChan q1))).
Proof.
  unfold getFlushTaskRunner.
  destruct (working q !! Pos_MsgID p) as [r'|]; [intros [= <- <-]; by left|].
  intros Hs. right. split; [done|].
  destruct (injectHandler q) as [h|]; simpl in Hs.
  - destruct (handler_close h q) as [q1|] eqn:E; simplify_eq/=.
    split; [done|]. exists q1. split; [done|].
    by rewrite (handler_close_runners _ _ _ E).
  - simplify_eq/=. split; [done|]. by exists q.
Qed.

Lemma recordInsert_same r half q :
  handlers (recordInsert r half q) = handlers q
  ∧ injectHandler (recordInsert r half q) = injectHandler q
  ∧ runningTasks (recordInsert r half q) = runningTasks q
  ∧ countWaiting (runners (recordInsert r half q)) = countWaiting (runners q).
Proof.
  unfold recordInsert. destruct (runners q !! r) as [t|] eqn:E; [|done].
  destruct (insertPart t); [done|]. qsimpl. repeat split.
  pose proof (countWaiting_insert (runners q) r t
                (mkflushTaskRunner (runner_segmentID t) (runner_msgID t) (startSignal t)
                   (finishSignal t) (Some half) (deletePart t) (runner_pack t) (stage t))
                E) as Hc.
  unfold waitingWeight in Hc. simpl in Hc. lia.
Qed.

Lemma recordDelete_same r half q :
  handlers (recordDelete r half q) = handlers q
  ∧ injectHandler (recordDelete r half q) = injectHandler q
  ∧ runningTasks (recordDelete r half q) = runningTasks q
  ∧ countWaiting (runners (recordDelete r half q)) = countWaiting (runners q).
Proof.
  unfold recordDelete. destruct (runners q !! r) as [t|] eqn:E; [|done].
  destruct (deletePart t); [done|]. qsimpl. repeat split.
  pose proof (countWaiting_insert (runners q) r t
                (mkflushTaskRunner (runner_segmentID t) (runner_msgID t) (startSignal t)
                   (finishSignal t) (insertPart t) (Some half) (runner_pack t) (stage t))
                E) as Hc.
  unfold waitingWeight in Hc. simpl in Hc. lia.
Qed.

Lemma getFlushTaskRunner_handlerInvariant p q r q' :
  handlerInvariant q → getFlushTaskRunner p q = Some (r, q') → inBounds q' →
  handlerInvariant q'.
Proof.
  intros Hinv Hg Hb. apply getFlushTaskRunner_inv in Hg as [[_ ->]|(_ & _ & q1 & Hc & ->)];
    [done|].
  assert (runners q1 = runners q ∧ runningTasks q1 = runningTasks q
          ∧ ∀ h' pc, handlers q1 !! h' = Some pc → pc = HExited) as (Hr & Hrt & Hex).
  { destruct (injectHandler q) as [h|] eqn:Eh.
    - by eapply handler_close_all_exited.
    - subst q1. split; [done|]. split; [done|]. intros h' pc Hl.
      destruct (decide (pc = HExited)) as [|Hpc]; [done|].
      destruct Hinv as [_ Hinv]. destruct (Hinv h' pc Hl Hpc). congruence. }
  unfold inBounds in Hb. qsimpl. rewrite length_app in Hb. simpl in Hb.
  destruct Hinv as [Hcount _]. split; qsimpl.
  - rewrite Hrt, Hr, countWaiting_app, Hcount. simpl.
    pose proof (countWaiting_le (runners q)). rewrite Hr in Hb.
    rewrite wrap32_small; lia.
  - intros h' pc Hl Hpc. by apply Hex in Hl.
Qed.

Lemma stepf_handlerInvariant (l : label) (q q' : orderFlushQueue) :
  handlerInvariant q → stepf l q = Some q' → inBounds q' → handlerInvariant q'.
Proof.
  intros Hinv Hs Hb. destruct l.
  - simpl in Hs.
    destruct (getFlushTaskRunner (ih_pos half) q) as [[r q1]|] eqn:E; simplify_eq/=.
    destruct (recordInsert_same r half q1) as (Hh & Hi & Hrt & Hc).
    assert (handlerInvariant q1) as [H1 H2].
    { eapply getFlushTaskRunner_handlerInvariant; [done..|].
      unfold inBounds in *. by rewrite recordInsert_length in Hb. }
    split; [by rewrite Hrt, Hc|]. rewrite Hh, Hi, Hrt. done.
  - simpl in Hs.
    destruct (getFlushTaskRunner p q) as [[r q1]|] eqn:E; simplify_eq/=.
    destruct (recordDelete_same r half q1) as (Hh & Hi & Hrt & Hc).
    assert (handlerInvariant q1) as [H1 H2].
    { eapply getFlushTaskRunner_handlerInvariant; [done..|].
      unfold inBounds in *. by rewrite recordDelete_length in Hb. }
    split; [by rewrite Hrt, Hc|]. rewrite Hh, Hi, Hrt. done.
  - simpl in Hs. unfold inject in Hs. case_bool_decide; simplify_eq/=. done.
  - simpl in Hs. destruct (injectHandler q) as [h|] eqn:Eh; simplify_eq/=; [|done].
    destruct Hinv as [Hcount Hinv].
    apply handler_close_inv in Hs as [[Hsel ->]|[_ ->]]; [|done].
    split; qsimpl; [done|]. intros h' pc Hl Hpc.
    destruct (decide (h' = h)) as [->|Hne].
    + rewrite list_lookup_insert_eq in Hl by (by eapply lookup_lt_Some). congruence.
    + rewrite list_lookup_insert_ne in Hl by done. by apply Hinv in Hl.
  - apply post_inv in Hs as (t & ih & dh & Ht & _ & _ & Hst & _ & ->).
    destruct Hinv as [Hcount Hinv].
    pose proof (countWaiting_pos _ _ _ Ht Hst) as Hpos.
    pose proof (countWaiting_le (runners q)) as Hle.
    unfold inBounds in Hb. qsimpl.
    rewrite length_insert, postTask_runners in Hb.
    assert (∀ h pc, handlers q !! h = Some pc → pc = HExited) as Hex.
    { intros h pc Hl. destruct (decide (pc = HExited)) as [|Hpc]; [done|].
      destruct (Hinv h pc Hl Hpc). lia. }
    pose proof (countWaiting_insert (runners q) r t
                  (with_stage Posted (with_pack (postTask (getFlushPack t ih dh) None q).1 t))
                  Ht) as Hc.
    unfold waitingWeight in Hc. qsimpl. rewrite decide_True in Hc by done.
    rewrite decide_False in Hc by done.
    assert (wrap32 (runningTasks q - 1) = runningTasks q - 1) as Hw
      by (apply wrap32_small; lia).
    destruct (postTask_props (getFlushPack t ih dh) None q) as (Hr & Hrt & Hh).
    rewrite Hw in Hrt, Hh.
    split; qsimpl; rewrite ?Hr, ?Hrt.
    + lia.
    + case_bool_decide as Hz; destruct Hh as [Hh Hi]; rewrite Hh, Hi.
      * intros h pc Hl Hpc.
        apply lookup_app_Some in Hl as [Hl|[Hlen Hl]]; [by apply Hex in Hl|].
        apply list_lookup_singleton_Some in Hl as [Hh' <-].
        split; [f_equal; lia|lia].
      * intros h pc Hl Hpc. by apply Hex in Hl.
  - eapply stage_step_inv in Hs as (t & Ht & Hst & ->); [|by left].
    destruct Hinv as [Hcount Hinv]. split; qsimpl; [|done].
    pose proof (countWaiting_insert (runners q) r t (with_stage Notifying t) Ht) as Hc.
    unfold waitingWeight in Hc. qsimpl. rewrite Hst in Hc.
    rewrite !decide_False in Hc by done. lia.
  - eapply stage_step_inv in Hs as (t & Ht & Hst & ->); [|by right].
    destruct Hinv as [Hcount Hinv]. split; qsimpl; [|done].
    pose proof (countWaiting_insert (runners q) r t (with_stage Notified t) Ht) as Hc.
    unfold waitingWeight in Hc. qsimpl. rewrite Hst in Hc.
    rewrite !decide_False in Hc by done. lia.
  - apply finish_inv in Hs as (t & Ht & Hst & ->).
    destruct Hinv as [Hcount Hinv]. split; qsimpl; [|done].
    pose proof (countWaiting_insert (runners q) r t (with_stage Finished t) Ht) as Hc.
    unfold waitingWeight in Hc. qsimpl. rewrite Hst in Hc.
    rewrite !decide_False in Hc by done. lia.
  - apply (handler_step_inv (L_receive h)) in Hs
      as (h0 & pc & pc' & [= <-] & Hl & Hh & Hr & Hi & Hrt & Hm).
    destruct Hinv as [Hcount Hinv]. apply handlerMove_alive in Hm as [Hpc _].
    destruct (Hinv h pc Hl Hpc) as [Hih Hz].
    split; [by rewrite Hrt, Hr|]. rewrite Hh, Hi, Hrt. intros h' pc0 Hl' Hpc0.
    destruct (decide (h' = h)) as [->|Hne]; [done|].
    rewrite list_lookup_insert_ne in Hl' by done. by apply Hinv in Hl'.
  - apply (handler_step_inv (L_setTail h)) in Hs
      as (h0 & pc & pc' & [= <-] & Hl & Hh & Hr & Hi & Hrt & Hm).
    destruct Hinv as [Hcount Hinv]. apply handlerMove_alive in Hm as [Hpc _].
    destruct (Hinv h pc Hl Hpc) as [Hih Hz].
    split; [by rewrite Hrt, Hr|]. rewrite Hh, Hi, Hrt. intros h' pc0 Hl' Hpc0.
    destruct (decide (h' = h)) as [->|Hne]; [done|].
    rewrite list_lookup_insert_ne in Hl' by done. by apply Hinv in Hl'.
  - apply (handler_step_inv (L_injected h)) in Hs
      as (h0 & pc & pc' & [= <-] & Hl & Hh & Hr & Hi & Hrt & Hm).
    destruct Hinv as [Hcount Hinv]. apply handlerMove_alive in Hm as [Hpc _].
    destruct (Hinv h pc Hl Hpc) as [Hih Hz].
    split; [by rewrite Hrt, Hr|]. rewrite Hh, Hi, Hrt. intros h' pc0 Hl' Hpc0.
    destruct (decide (h' = h)) as [->|Hne]; [done|].
    rewrite list_lookup_insert_ne in Hl' by done. by apply Hinv in Hl'.
  - apply (handler_step_inv (L_injectOver h)) in Hs
      as (h0 & pc & pc' & [= <-] & Hl & Hh & Hr & Hi & Hrt & Hm).
    destruct Hinv as [Hcount Hinv]. apply handlerMove_alive in Hm as [Hpc _].
    destruct (Hinv h pc Hl Hpc) as [Hih Hz].
    split; [by rewrite Hrt, Hr|]. rewrite Hh, Hi, Hrt. intros h' pc0 Hl' Hpc0.
    destruct (decide (h' = h)) as [->|Hne]; [done|].
    rewrite list_lookup_insert_ne in Hl' by done. by apply Hinv in Hl'.
  - apply (handler_step_inv (L_closeDone h)) in Hs
      as (h0 & pc & pc' & [= <-] & Hl & Hh & Hr & Hi & Hrt & Hm).
    destruct Hinv as [Hcount Hinv]. apply handlerMove_alive in Hm as [Hpc _].
    destruct (Hinv h pc Hl Hpc) as [Hih Hz].
    split; [by rewrite Hrt, Hr|]. rewrite Hh, Hi, Hrt. intros h' pc0 Hl' Hpc0.
    destruct (decide (h' = h)) as [->|Hne]; [done|].
    rewrite list_lookup_insert_ne in Hl' by done. by apply Hinv in Hl'.
Qed.

Lemma freshQueue_handlerInvariant (segID : UniqueID) :
  handlerInvariant (freshQueue segID).
Proof.
  split; [done|]. simpl. intros h pc Hl _.
  apply list_lookup_singleton_Some in Hl as [-> _]. done.
Qed.

Lemma inBounds_step (l : label) (q q' : orderFlushQueue) :
  stepf l q = Some q' → inBounds q' → inBounds q.
Proof. intros Hs Hb. apply stepf_length in Hs. unfold inBounds in *. lia. Qed.

Lemma inBounds_run (ls : list label) (q q' : orderFlushQueue) :
  run ls q = Some q' → inBounds q' → inBounds q.
Proof. intros Hs Hb. apply run_length in Hs. unfold inBounds in *. lia. Qed.

Lemma run_handlerInvariant (ls : list label) (q q' : orderFlushQueue) :
  handlerInvariant q → run ls q = Some q' → inBounds q' → handlerInvariant q'.
Proof.
  revert q. induction ls as [|l ls IH]; intros q Hinv; simpl; [by intros [= <-]|].
  destruct (stepf l q) as [q1|] eqn:E; simpl; [|done].
  intros Hr Hb. eapply IH; [|done..].
  eapply stepf_handlerInvariant; [done..|]. by eapply inBounds_run.
Qed.

(** *** The injection barrier *)

(** While handler [h] waits for injectOver, no step but the injector's
    changes what it waits for, and no runner is created. *)
Lemma step_during_injection (l : label) (h : nat) (i : taskInjection) (d : chan)
    (q q' : orderFlushQueue) :
  handlerInvariant q →
  handlers q !! h = Some (HInjected i d) →
  stepf l q = Some q' →
  l = L_injectOver h
  ∨ (handlers q' !! h = Some (HInjected i d)
     ∧ length (runners q') = length (runners q)).
Proof.
  intros [Hcount Hinv] Hh Hs.
  destruct (Hinv h _ Hh) as [Hih Hz]; [done|].
  assert (∀ p r q1, getFlushTaskRunner p q = Some (r, q1) → q1 = q) as Hloaded.
  { intros p r q1 Hg. apply getFlushTaskRunner_inv in Hg as [[_ ->]|(_ & _ & q2 & Hc & _)];
      [done|].
    rewrite Hih in Hc. unfold handler_close in Hc. rewrite Hh in Hc. done. }
  destruct l.
  - right. simpl in Hs.
    destruct (getFlushTaskRunner (ih_pos half) q) as [[r q1]|] eqn:E; simplify_eq/=.
    apply Hloaded in E as ->. rewrite recordInsert_length.
    by destruct (recordInsert_same r half q) as (-> & _).
  - right. simpl in Hs.
    destruct (getFlushTaskRunner p q) as [[r q1]|] eqn:E; simplify_eq/=.
    apply Hloaded in E as ->. rewrite recordDelete_length.
    by destruct (recordDelete_same r half q) as (-> & _).
  - right. simpl in Hs. unfold inject in Hs. case_bool_decide; simplify_eq/=. done.
  - simpl in Hs. rewrite Hih in Hs. unfold handler_close in Hs. rewrite Hh in Hs. done.
  - apply post_inv in Hs as (t & ih & dh & Ht & _ & _ & Hst & _ & ->).
    pose proof (countWaiting_pos _ _ _ Ht Hst). lia.
  - right. eapply stage_step_inv in Hs as (t & _ & _ & ->); [|by left].
    qsimpl. by rewrite length_insert.
  - right. eapply stage_step_inv in Hs as (t & _ & _ & ->); [|by right].
    qsimpl. by rewrite length_insert.
  - right. apply finish_inv in Hs as (t & _ & _ & ->). qsimpl. by rewrite length_insert.
  - right. apply (handler_step_inv (L_receive h0)) in Hs
      as (h1 & pc & pc' & [= <-] & Hl & Hh' & Hr & _ & _ & Hm).
    rewrite Hh', Hr. split; [|done].
    destruct (decide (h0 = h)) as [->|Hne];
      [|by rewrite list_lookup_insert_ne].
    simpl in Hm. destruct Hm as [-> _]. congruence.
  - right. apply (handler_step_inv (L_setTail h0)) in Hs
      as (h1 & pc & pc' & [= <-] & Hl & Hh' & Hr & _ & _ & Hm).
    rewrite Hh', Hr. split; [|done].
    destruct (decide (h0 = h)) as [->|Hne];
      [|by rewrite list_lookup_insert_ne].
    simpl in Hm. destruct Hm as (? & ? & -> & _). congruence.
  - right. apply (handler_step_inv (L_injected h0)) in Hs
      as (h1 & pc & pc' & [= <-] & Hl & Hh' & Hr & _ & _ & Hm).
    rewrite Hh', Hr. split; [|done].
    destruct (decide (h0 = h)) as [->|Hne];
      [|by rewrite list_lookup_insert_ne].
    simpl in Hm. destruct Hm as (? & ? & -> & _). congruence.
  - destruct (decide (h0 = h)) as [->|Hne]; [by left|right].
    apply (handler_step_inv (L_injectOver h0)) in Hs
      as (h1 & pc & pc' & [= <-] & Hl & Hh' & Hr & _ & _ & Hm).
    rewrite Hh', Hr. by rewrite list_lookup_insert_ne.
  - right. apply (handler_step_inv (L_closeDone h0)) in Hs
      as (h1 & pc & pc' & [= <-] & Hl & Hh' & Hr & _ & _ & Hm).
    rewrite Hh', Hr. split; [|done].
    destruct (decide (h0 = h)) as [->|Hne];
      [|by rewrite list_lookup_insert_ne].
    simpl in Hm. destruct Hm as (? & ? & -> & _). congruence.
Qed.

Lemma run_during_injection (ls : list label) (h : nat) (i : taskInjection) (d : chan)
    (q q' : orderFlushQueue) :
  handlerInvariant q →
  handlers q !! h = Some (HInjected i d) →
  run ls q = Some q' →
  inBounds q' →
  L_injectOver h ∈ ls
  ∨ (handlers q' !! h = Some (HInjected i d)
     ∧ length (runners q') = length (runners q)).
Proof.
  revert q. induction ls as [|l ls IH]; intros q Hinv Hh; simpl.
  - intros [= <-] _. by right.
  - destruct (stepf l q) as [q1|] eqn:E; simpl; [|done]. intros Hr Hb.
    destruct (step_during_injection l h i d q q1 Hinv Hh E) as [->|[Hh1 Hlen]];
      [left; left|].
    assert (handlerInvariant q1) as Hinv1.
    { eapply stepf_handlerInvariant; [done..|]. by eapply inBounds_run. }
    destruct (IH q1 Hinv1 Hh1 Hr Hb) as [Hin|[Hh' Hlen']].
    + left. by right.
    + right. split; [done|]. congruence.
Qed.

(** C2, as the code has it. Take any execution of a segment's queue in which
    a handler signals [injected] and, later, notifyFunc is entered for a
    runner that did not exist when [injected] was signalled (its flush was
    chained afterwards).  Then the injector has signalled [injectOver] to
    that handler in between: a task chained after an accepted injection
    does not reach notifyFunc before the injection is over. *)
Theorem injection_blocks_later_tasks
    (segID : UniqueID) (pre mid : list label) (h r : nat) (qi q : orderFlushQueue) :
  run (pre ++ [L_injected h]) (freshQueue segID) = Some qi →
  run (mid ++ [L_notifyBegin r]) qi = Some q →
  (length (runners qi) ≤ r)%nat →
  inBounds q →
  L_injectOver h ∈ mid.
Proof.
  intros Hpre Hmid Hnew Hb.
  apply run_snoc in Hpre as (q0 & Hpre & Hinj).
  apply run_snoc in Hmid as (qm & Hmid & Hbegin).
  assert (inBounds qm) as Hbm by (by eapply inBounds_step).
  assert (inBounds qi) as Hbi by (by eapply inBounds_run).
  assert (handlerInvariant qi) as Hinv.
  { eapply stepf_handlerInvariant; [|done..].
    eapply run_handlerInvariant; [apply freshQueue_handlerInvariant|done|].
    by eapply inBounds_step. }
  apply (handler_step_inv (L_injected h)) in Hinj
    as (h0 & pc & pc' & [= <-] & Hl & Hh & _ & _ & _ & (i & d & -> & ->)).
  assert (handlers qi !! h = Some (HInjected i d)) as Hhi.
  { rewrite Hh. apply list_lookup_insert_eq. by eapply lookup_lt_Some. }
  destruct (run_during_injection mid h i d qi qm Hinv Hhi Hmid Hbm) as [|[_ Hlen]];
    [done|].
  eapply stage_step_inv in Hbegin as (t & Ht & _ & _); [|by left].
  apply lookup_lt_Some in Ht. lia.
Qed.

(** In [lateNotifySchedule] notifyFunc is entered for runner 0 after handler
    1 has signalled [injected] and before any [injectOver]: C2 as stated
    does not hold. *)
Lemma notify_begins_during_injection :
  ¬ (∀ ls q, run ls queueOfSegment5 = Some q → injectionBarrier ls).
Proof.
  intros Hclaim.
  assert (is_Some (run lateNotifySchedule queueOfSegment5)) as [q Hq]
    by (vm_compute; eauto).
  specialize (Hclaim lateNotifySchedule q Hq (take 6 lateNotifySchedule) [] [] 1%nat 0%nat
                eq_refl).
  by apply elem_of_nil in Hclaim.
Qed.

Lemma injection_blocks_later_tasks_witness :
  (∃ qi q,
     run (injectionAccepted ++ [L_injected 0%nat]) queueOfSegment5 = Some qi
     ∧ run (flushAfterRelease ++ [L_notifyBegin 0%nat]) qi = Some q
     ∧ (length (runners qi) ≤ 0)%nat
     ∧ inBounds q)
  ∧ L_injectOver 0 ∈ flushAfterRelease.
Proof.
  assert (is_Some (run (injectionAccepted ++ [L_injected 0%nat]) queueOfSegment5))
    as [qi Hqi] by (vm_compute; eauto).
  assert (is_Some (run (flushAfterRelease ++ [L_notifyBegin 0%nat]) qi)) as [q Hq].
  { vm_compute in Hqi. injection Hqi as <-. vm_compute. eauto. }
  assert (length (runners qi) ≤ 0)%nat as Hlen.
  { vm_compute in Hqi. injection Hqi as <-. vm_compute. lia. }
  assert (inBounds q) as Hb.
  { vm_compute in Hqi. injection Hqi as <-. vm_compute in Hq. injection Hq as <-.
    vm_compute. reflexivity. }
  split; [by exists qi, q|].
  exact (injection_blocks_later_tasks 5%Z injectionAccepted flushAfterRelease
           0 0 qi q Hqi Hq Hlen Hb).
Defined.

(** *** Flushes without injection keep their order *)

(** What the chaining sees of a runner. *)
Definition signals (t : flushTaskRunner) : option chan * chan * runnerStage :=
  (startSignal t, finishSignal t, stage t).

(** No handler has taken over the tail. *)
Definition idleHandlers (q : orderFlushQueue) : Prop :=
  ∀ h pc, handlers q !! h = Some pc → pc = HSelect ∨ pc = HExited ∨ ∃ i, pc = HReceived i.

(** No injection has reached the tail: the finishSignal of runner [r] is
    channel [r + 1], it waits for channel [r] (channel 0 is the closed
    tailCh of init), a finishSignal is closed only by its finished runner,
    a runner past its startSignal has only finished runners before it, and
    a runner past notifyFunc has its notifyEnd in the execution. *)
Definition chained (ls : list label) (q : orderFlushQueue) : Prop :=
  let rs := signals <$> runners q in
  tailCh q = Some (length rs)
  ∧ nextChan q = S (length rs)
  ∧ (∀ r s f st, rs !! r = Some (s, f, st) → s = Some r ∧ f = S r)
  ∧ (∀ r, S r ∈ closedChans q → ∃ s f, rs !! r = Some (s, f, Finished))
  ∧ (∀ r s f st, rs !! r = Some (s, f, st) → st ≠ Waiting →
       ∀ r', (r' < r)%nat → ∃ s' f', rs !! r' = Some (s', f', Finished))
  ∧ (∀ r s f st, rs !! r = Some (s, f, st) → st = Notified ∨ st = Finished →
       L_notifyEnd r ∈ ls)
  ∧ idleHandlers q.

(** A step that leaves runners' signals, the tail and the channels alone. *)
Lemma chained_quiet ls l q q' :
  chained ls q →
  signals <$> runners q' = signals <$> runners q →
  tailCh q' = tailCh q → nextChan q' = nextChan q →
  closedChans q' = closedChans q → idleHandlers q' →
  chained (ls ++ [l]) q'.
Proof.
  unfold chained. intros (H1 & H2 & H3 & H4 & H5 & H6 & H7) -> -> -> -> Hh.
  repeat split; try done.
  - by eapply H3.
  - by eapply H3.
  - intros r s f st Hl Hst. apply elem_of_app. left. by eapply H6.
Qed.

Lemma chained_stage ls l q q' r s f st st' :
  chained ls q →
  (signals <$> runners q) !! r = Some (s, f, st) →
  signals <$> runners q' = <[r := (s, f, st')]> (signals <$> runners q) →
  tailCh q' = tailCh q → nextChan q' = nextChan q → idleHandlers q' →
  (st = Waiting ∧ st' = Posted ∧ isClosedChan s q = true
     ∧ closedChans q' = closedChans q)
  ∨ (st = Posted ∧ st' = Notifying ∧ closedChans q' = closedChans q)
  ∨ (st = Notifying ∧ st' = Notified ∧ l = L_notifyEnd r
     ∧ closedChans q' = closedChans q)
  ∨ (st = Notified ∧ st' = Finished ∧ closedChans q' = {[f]} ∪ closedChans q) →
  chained (ls ++ [l]) q'.
Proof.
  unfold chained. intros (H1 & H2 & H3 & H4 & H5 & H6 & H7) Hr -> -> -> Hh Hcase.
  rewrite length_insert.
  assert (r < length (signals <$> runners q))%nat as Hlt by (by eapply lookup_lt_Some).
  destruct (H3 _ _ _ _ Hr) as [-> ->].
  assert (∀ r' s' f', (signals <$> runners q) !! r' = Some (s', f', Finished) →
            <[r := (Some r, S r, st')]> (signals <$> runners q) !! r'
            = Some (s', f', Finished)) as Hkeep.
  { intros r' s' f' Hl. destruct (decide (r' = r)) as [->|Hne].
    - rewrite Hr in Hl. injection Hl as <- <- ->.
      destruct Hcase as [(?&_)|[(?&_)|[(?&_)|(?&_)]]]; done.
    - by rewrite list_lookup_insert_ne. }
  split; [done|]. split; [done|]. split; [|split; [|split; [|split]]]; [| | | |done].
  - intros r' s f st0 Hl. destruct (decide (r' = r)) as [->|Hne].
    + rewrite list_lookup_insert_eq in Hl by done. by injection Hl as <- <- <-.
    + rewrite list_lookup_insert_ne in Hl by done. by eapply H3.
  - intros r' Hin.
    destruct Hcase as [(_&_&_&Hc)|[(_&_&Hc)|[(_&_&_&Hc)|(_&->&Hc)]]];
      rewrite Hc in Hin.
    1-3: destruct (H4 _ Hin) as (s' & f' & Hl); eauto.
    apply elem_of_union in Hin as [Hin|Hin].
    + apply elem_of_singleton in Hin. injection Hin as ->.
      rewrite list_lookup_insert_eq by done. eauto.
    + destruct (H4 _ Hin) as (s' & f' & Hl); eauto.
  - intros r0 s f st0 Hl Hst r' Hlt'.
    destruct (decide (r0 = r)) as [->|Hne].
    + rewrite list_lookup_insert_eq in Hl by done. injection Hl as <- <- <-.
      destruct Hcase as [(->&_&Hc&_)|Hcase].
      * (* the runner has passed its startSignal *)
        destruct r as [|r]; [lia|]. simpl in Hc. apply bool_decide_eq_true in Hc.
        destruct (H4 _ Hc) as (s' & f' & Hl).
        destruct (decide (r' = r)) as [->|Hne]; [eauto|].
        destruct (H5 _ _ _ _ Hl ltac:(done) r' ltac:(lia)) as (s2 & f2 & Hl2). eauto.
      * assert (st ≠ Waiting) as Hnw
          by (destruct Hcase as [(->&_)|[(->&_)|(->&_)]]; done).
        destruct (H5 _ _ _ _ Hr Hnw r' Hlt') as (s2 & f2 & Hl2). eauto.
    + rewrite list_lookup_insert_ne in Hl by done.
      destruct (H5 _ _ _ _ Hl Hst r' Hlt') as (s2 & f2 & Hl2). eauto.
  - intros r0 s f st0 Hl Hst. apply elem_of_app.
    destruct (decide (r0 = r)) as [->|Hne].
    + rewrite list_lookup_insert_eq in Hl by done. injection Hl as <- <- <-.
      destruct Hcase as [(_&->&_)|[(_&->&_)|[(_&_&->&_)|(->&_&_)]]].
      * by destruct Hst.
      * by destruct Hst.
      * right. by apply list_elem_of_singleton.
      * left. eapply H6; [done|]. by left.
    + rewrite list_lookup_insert_ne in Hl by done. left. by eapply H6.
Qed.

Lemma chained_new ls l q q' :
  chained ls q →
  signals <$> runners q'
  = (signals <$> runners q) ++ [(tailCh q, nextChan q, Waiting)] →
  tailCh q' = Some (nextChan q) → nextChan q' = S (nextChan q) →
  closedChans q' = closedChans q → idleHandlers q' →
  chained (ls ++ [l]) q'.
Proof.
  unfold chained. intros (H1 & H2 & H3 & H4 & H5 & H6 & H7) -> -> -> -> Hh.
  rewrite length_app, H1, H2. cbn [length].
  set (rs := signals <$> runners q) in *. clearbody rs. unfold chan in *.
  assert (∀ r x, (rs ++ [(Some (length rs), S (length rs), Waiting)]) !! r = Some x →
            rs !! r = Some x
            ∨ (r = length rs ∧ x = (Some (length rs), S (length rs), Waiting))) as Hcases.
  { intros r x Hl. apply lookup_app_Some in Hl as [Hl|[Hge Hl]]; [by left|].
    apply list_lookup_singleton_Some in Hl as [Hz <-]. right. split; [lia|done]. }
  split; [f_equal; lia|]. split; [f_equal; lia|].
  split; [|split; [|split; [|split]]]; [| | | |done].
  - intros r s f st Hl. apply Hcases in Hl as [Hl|[-> [= -> -> ->]]]; [by eapply H3|done].
  - intros r Hin. destruct (H4 _ Hin) as (s & f & Hl). exists s, f.
    by apply lookup_app_l_Some.
  - intros r s f st Hl Hst r' Hlt.
    apply Hcases in Hl as [Hl|[-> [= -> -> ->]]]; [|done].
    destruct (H5 _ _ _ _ Hl Hst r' Hlt) as (s' & f' & Hl'). exists s', f'.
    by apply lookup_app_l_Some.
  - intros r s f st Hl Hst. apply elem_of_app. left.
    apply Hcases in Hl as [Hl|[-> [= -> -> ->]]]; [by eapply H6|by destruct Hst].
Qed.

(** The parts of the queue the chaining depends on are the same. *)
Definition sameChain (q q' : orderFlushQueue) : Prop :=
  signals <$> runners q' = signals <$> runners q
  ∧ tailCh q' = tailCh q ∧ nextChan q' = nextChan q
  ∧ closedChans q' = closedChans q
  ∧ (idleHandlers q → idleHandlers q').

Lemma sameChain_refl q : sameChain q q.
Proof. by repeat split. Qed.

Lemma sameChain_trans q1 q2 q3 : sameChain q1 q2 → sameChain q2 q3 → sameChain q1 q3.
Proof.
  intros (A1 & A2 & A3 & A4 & A5) (B1 & B2 & B3 & B4 & B5).
  repeat split; try congruence. auto.
Qed.

Lemma idleHandlers_insert h pc q :
  idleHandlers q → (pc = HSelect ∨ pc = HExited ∨ ∃ i, pc = HReceived i) →
  idleHandlers (set_handler h pc q).
Proof.
  intros Hq Hpc h' pc'. unfold set_handler. cbn [handlers]. intros Hl.
  destruct (decide (h' = h)) as [->|Hne].
  - apply list_lookup_insert_Some in Hl as [(_ & <- & _)|[? _]]; done.
  - rewrite list_lookup_insert_ne in Hl by done. by eapply Hq.
Qed.

Lemma signals_insert_same (rs : list flushTaskRunner) r t t' :
  rs !! r = Some t → signals t' = signals t →
  signals <$> <[r := t']> rs = signals <$> rs.
Proof.
  intros Hr Hs. rewrite list_fmap_insert, Hs. apply list_insert_id.
  by rewrite list_lookup_fmap, Hr.
Qed.

Lemma recordInsert_sameChain r half q : sameChain q (recordInsert r half q).
Proof.
  unfold recordInsert. destruct (runners q !! r) as [t|] eqn:E; [|apply sameChain_refl].
  destruct (insertPart t); [apply sameChain_refl|].
  split; [|done]. cbn. by eapply signals_insert_same.
Qed.

Lemma recordDelete_sameChain r half q : sameChain q (recordDelete r half q).
Proof.
  unfold recordDelete. destruct (runners q !! r) as [t|] eqn:E; [|apply sameChain_refl].
  destruct (deletePart t); [apply sameChain_refl|].
  split; [|done]. cbn. by eapply signals_insert_same.
Qed.

Lemma handler_close_sameChain h q q' : handler_close h q = Some q' → sameChain q q'.
Proof.
  intros Hc. apply handler_close_inv in Hc as [[_ ->]|[_ ->]]; [|apply sameChain_refl].
  repeat split; try done. intros Hq. apply idleHandlers_insert; auto.
Qed.

Lemma postTask_sameChain pack pi q : sameChain q (postTask pack pi q).2.
Proof.
  unfold postTask. cbn. case_bool_decide; cbn; repeat split; try done.
  intros Hq h pc Hl. apply lookup_app_Some in Hl as [Hl|[_ Hl]]; [by eapply Hq|].
  apply list_lookup_singleton_Some in Hl as [_ <-]. auto.
Qed.

Lemma handler_step_sameChain l q q' :
  (∀ h, l ≠ L_setTail h) → idleHandlers q →
  handler_step l q = Some q' → sameChain q q'.
Proof.
  intros Hl Hq Hs.
  destruct l; simpl in Hs; try done;
    destruct (handlers q !! h) as [pc|] eqn:Eh; simplify_eq/=;
    destruct (Hq _ _ Eh) as [->|[->|[i ->]]]; simplify_eq/=.
  - destruct (injectCh q) as [|i rest]; simplify_eq/=.
    repeat split; try done. intros _.
    apply (idleHandlers_insert h (HReceived i)
             (mkorderFlushQueue (once_done q) (queue_segmentID q) rest (working q)
                (tailCh q) (runningTasks q) (injectHandler q) (postInjection q)
                (runners q) (handlers q) (closedChans q) (nextChan q))); eauto.
  - by destruct (Hl h).
Qed.

Lemma chained_idle ls q : chained ls q → idleHandlers q.
Proof. by intros (_ & _ & _ & _ & _ & _ & H7). Qed.

Lemma chained_same ls l q q' :
  chained ls q → sameChain q q' → chained (ls ++ [l]) q'.
Proof.
  intros Hc (A1 & A2 & A3 & A4 & A5).
  eapply chained_quiet; try done. apply A5. by eapply chained_idle.
Qed.

Lemma getFlushTaskRunner_chained ls l p q r q1 q' :
  chained ls q → getFlushTaskRunner p q = Some (r, q1) → sameChain q1 q' →
  chained (ls ++ [l]) q'.
Proof.
  intros Hc Hg Hsame.
  apply getFlushTaskRunner_inv in Hg as [[_ ->]|(_ & _ & q0 & Hclose & ->)].
  { by eapply chained_same. }
  assert (sameChain q q0) as (B1 & B2 & B3 & B4 & B5).
  { destruct (injectHandler q) as [h|]; [by eapply handler_close_sameChain|].
    subst. apply sameChain_refl. }
  destruct Hsame as (A1 & A2 & A3 & A4 & A5). cbn in A1, A2, A3, A4.
  eapply chained_new; [done| | | | |].
  - rewrite A1, fmap_app, B1, B2, B3. done.
  - by rewrite A2, B3.
  - by rewrite A3, B3.
  - by rewrite A4, B4.
  - apply A5. intros h pc Hl. cbn in Hl. eapply B5; [|done]. by eapply chained_idle.
Qed.

Lemma signals_lookup (q : orderFlushQueue) r t :
  runners q !! r = Some t →
  (signals <$> runners q) !! r = Some (startSignal t, finishSignal t, stage t).
Proof. intros Hr. by rewrite list_lookup_fmap, Hr. Qed.

(** One step of an execution in which no handler takes over the tail. *)
Lemma stepf_chained ls l q q' :
  chained ls q → (∀ h, l ≠ L_setTail h) → stepf l q = Some q' →
  chained (ls ++ [l]) q'.
Proof.
  intros Hc Hl Hs. pose proof (chained_idle _ _ Hc) as Hidle.
  destruct l.
  - simpl in Hs.
    destruct (getFlushTaskRunner (ih_pos half) q) as [[r q1]|] eqn:E; simplify_eq/=.
    eapply getFlushTaskRunner_chained; [done|done|apply recordInsert_sameChain].
  - simpl in Hs. destruct (getFlushTaskRunner p q) as [[r q1]|] eqn:E; simplify_eq/=.
    eapply getFlushTaskRunner_chained; [done|done|apply recordDelete_sameChain].
  - simpl in Hs. unfold inject in Hs. case_bool_decide; simplify_eq/=.
    by eapply chained_same.
  - simpl in Hs. destruct (injectHandler q) as [h|].
    + eapply chained_same; [done|]. by eapply handler_close_sameChain.
    + simplify_eq. eapply chained_same; [done|apply sameChain_refl].
  - apply post_inv in Hs as (t & ih & dh & Ht & _ & _ & Hst & Hclosed & ->).
    destruct (postTask_sameChain (getFlushPack t ih dh) None q) as (A1 & A2 & A3 & A4 & A5).
    eapply (chained_stage ls _ q _ r (startSignal t) (finishSignal t) Waiting Posted);
      [done|by rewrite (signals_lookup q r t Ht), Hst| | | | |].
    + cbn [set_runner runners]. by rewrite list_fmap_insert, A1.
    + done.
    + done.
    + intros h pc Hh. cbn in Hh. by eapply A5.
    + left. done.
  - apply (stage_step_inv _ r Posted Notifying) in Hs as (t & Ht & Hst & ->); [|by left].
    eapply (chained_stage ls _ q _ r (startSignal t) (finishSignal t) Posted Notifying);
      [done|by rewrite (signals_lookup q r t Ht), Hst| | | | |].
    + cbn [set_runner runners]. by rewrite list_fmap_insert.
    + done.
    + done.
    + done.
    + right. left. done.
  - apply (stage_step_inv _ r Notifying Notified) in Hs as (t & Ht & Hst & ->); [|by right].
    eapply (chained_stage ls _ q _ r (startSignal t) (finishSignal t) Notifying Notified);
      [done|by rewrite (signals_lookup q r t Ht), Hst| | | | |].
    + cbn [set_runner runners]. by rewrite list_fmap_insert.
    + done.
    + done.
    + done.
    + right. right. left. done.
  - apply finish_inv in Hs as (t & Ht & Hst & ->).
    eapply (chained_stage ls _ q _ r (startSignal t) (finishSignal t) Notified Finished);
      [done|by rewrite (signals_lookup q r t Ht), Hst| | | | |].
    + cbn [close_chan set_runner runners]. by rewrite list_fmap_insert.
    + done.
    + done.
    + done.
    + right. right. right. done.
  - eapply chained_same; [done|]. by eapply (handler_step_sameChain (L_receive h)).
  - by destruct (Hl h).
  - eapply chained_same; [done|]. by eapply (handler_step_sameChain (L_injected h)).
  - eapply chained_same; [done|]. by eapply (handler_step_sameChain (L_injectOver h)).
  - eapply chained_same; [done|]. by eapply (handler_step_sameChain (L_closeDone h)).
Qed.

Lemma freshQueue_chained segID : chained [] (freshQueue segID).
Proof.
  repeat split; try done.
  - intros r Hin. cbn in Hin. apply elem_of_union in Hin as [Hin|Hin].
    + by apply elem_of_singleton in Hin.
    + by apply elem_of_empty in Hin.
  - intros h pc Hl. cbn in Hl. apply list_lookup_singleton_Some in Hl as [_ <-]. auto.
Qed.

Lemma run_chained_from ls0 ls q0 q :
  chained ls0 q0 → (∀ h, L_setTail h ∉ ls) → run ls q0 = Some q →
  chained (ls0 ++ ls) q.
Proof.
  revert ls0 q0. induction ls as [|l ls IH]; intros ls0 q0 Hc Hno Hr; simpl in Hr.
  - simplify_eq. by rewrite app_nil_r.
  - destruct (stepf l q0) as [q1|] eqn:E; [|done]. simpl in Hr.
    replace (ls0 ++ l :: ls) with ((ls0 ++ [l]) ++ ls) by (by rewrite <- app_assoc).
    eapply IH; [|by intros h Hin; apply (Hno h); right|done].
    eapply stepf_chained; [done| |done].
    intros h ->. apply (Hno h). by left.
Qed.

(** Without an injection taking over the tail, the notifications of a queue
    are in the order in which the runners were created. *)
Lemma notifyInOrder_without_injection (segID : UniqueID) (ls : list label)
    (q : orderFlushQueue) :
  run ls (freshQueue segID) = Some q →
  (∀ h, L_setTail h ∉ ls) →
  notifyInOrder ls.
Proof.
  intros Hrun Hno pre post r1 r2 Hlt ->.
  rewrite run_app in Hrun.
  destruct (run pre (freshQueue segID)) as [q1|] eqn:Epre; [|discriminate Hrun].
  change (stepf (L_notifyBegin r2) q1 ≫= run post = Some q) in Hrun.
  destruct (stepf (L_notifyBegin r2) q1) as [q2|] eqn:Estep; [|discriminate Hrun].
  pose proof (run_chained_from [] pre _ _ (freshQueue_chained segID)
                ltac:(intros h Hin; apply (Hno h), elem_of_app; by left) Epre) as Hc.
  apply (stage_step_inv _ r2 Posted Notifying) in Estep as (t & Ht & Hst & _); [|by left].
  destruct Hc as (_ & _ & _ & _ & H5 & H6 & _).
  destruct (H5 r2 _ _ _ (signals_lookup q1 r2 t Ht) ltac:(by rewrite Hst) r1 Hlt)
    as (s & f & Hl).
  eapply H6; [done|]. by right.
Qed.

(** C1 on [overtakingSchedule]: the execution is one the queue can perform;
    at its end notifyFunc has been entered for runner 1, created second,
    while runner 0, created first, has gone through postTask but has not
    entered notifyFunc.  The notifications are not in the order of
    submission. *)
Theorem notify_overtakes_after_injection :
  (fun q => map stage (runners q)) <$> run overtakingSchedule queueOfSegment5
  = Some [Posted; Notifying]
  ∧ ¬ notifyInOrder overtakingSchedule.
Proof.
  split; [vm_compute; reflexivity|].
  intros Hclaim.
  specialize (Hclaim (take 12 overtakingSchedule) [] 0%nat 1%nat (Nat.lt_0_1) eq_refl).
  vm_compute in Hclaim.
  repeat (apply elem_of_cons in Hclaim as [Hclaim|Hclaim]; [discriminate Hclaim|]).
  by apply elem_of_nil in Hclaim.
Qed.

(** ** Empty flushes *)

Lemma lookup_set_runner (q : orderFlushQueue) (r r' : nat) (t t0 : flushTaskRunner) :
  runners q !! r = Some t0 →
  <[r := t]> (runners q) !! r' = if decide (r' = r) then Some t else runners q !! r'.
Proof.
  intros Hr. case_decide as Hd.
  - subst. apply list_lookup_insert_eq. by eapply lookup_lt_Some.
  - by apply list_lookup_insert_ne.
Qed.

Lemma handler_close_same h q q' :
  handler_close h q = Some q' →
  working q' = working q ∧ runners q' = runners q ∧ postInjection q' = postInjection q
  ∧ tailCh q' = tailCh q ∧ closedChans q' = closedChans q.
Proof.
  intros Hc. apply handler_close_inv in Hc as [[_ ->]|[_ ->]]; done.
Qed.

Lemma getFlushTaskRunner_wellFormed p q r q' :
  queueWellFormed q → getFlushTaskRunner p q = Some (r, q') →
  queueWellFormed q'
  ∧ working q' !! Pos_MsgID p = Some r
  ∧ ∃ t, runners q' !! r = Some t ∧ stage t = Waiting ∧ runner_msgID t = Pos_MsgID p
         ∧ insertPart t = runners q !! r ≫= insertPart
         ∧ deletePart t = runners q !! r ≫= deletePart.
Proof.
  intros (Hw & Hk) Hg.
  apply getFlushTaskRunner_inv in Hg as [[Hl ->]|(Hnone & -> & q1 & Hc & ->)].
  - split; [done|]. split; [done|].
    destruct (Hw _ _ Hl) as (t & Ht & Hm & Hst). exists t. rewrite Ht. done.
  - assert (working q1 = working q ∧ runners q1 = runners q
            ∧ postInjection q1 = postInjection q) as (Hw1 & Hr1 & Hp1).
    { destruct (injectHandler q) as [h|].
      - apply handler_close_same in Hc. tauto.
      - by subst. }
    qsimpl. rewrite Hw1, Hr1.
    split; [split|split].
    + qsimpl. intros k r Hl. destruct (decide (k = Pos_MsgID p)) as [->|Hne].
      * rewrite lookup_insert_eq in Hl. injection Hl as <-.
        eexists. split; [apply list_lookup_middle; done|done].
      * rewrite lookup_insert_ne in Hl by done.
        destruct (Hw _ _ Hl) as (t & Ht & Hm & Hst). exists t.
        split; [|done]. by apply lookup_app_l_Some.
    + qsimpl. intros r t ih Ht Hi. apply lookup_app_Some in Ht as [Ht|[_ Ht]].
      * by eapply Hk.
      * apply list_lookup_singleton_Some in Ht as [_ <-]. done.
    + qsimpl. apply lookup_insert_eq.
    + eexists. split; [qsimpl; apply list_lookup_middle; done|].
      rewrite (lookup_ge_None_2 (runners q) (length (runners q))) by done. done.
Qed.

Lemma recordInsert_wellFormed r half q t :
  queueWellFormed q → runners q !! r = Some t →
  Pos_MsgID (ih_pos half) = runner_msgID t →
  queueWellFormed (recordInsert r half q)
  ∧ working (recordInsert r half q) = working q
  ∧ ∃ t', runners (recordInsert r half q) !! r = Some t'
          ∧ stage t' = stage t
          ∧ insertPart t' = Some (default half (insertPart t)).
Proof.
  intros (Hw & Hk) Ht Hkey. unfold recordInsert. rewrite Ht.
  destruct (insertPart t) as [old|] eqn:Ei.
  - split; [done|]. split; [done|]. exists t. by rewrite Ei.
  - qsimpl. split; [split|split; [done|]].
    + qsimpl. intros k r' Hl. destruct (Hw _ _ Hl) as (t' & Ht' & Hm & Hst).
      rewrite (lookup_set_runner q r r' _ t Ht). case_decide; [|eauto].
      subst. eexists. split; [done|]. qsimpl. split; congruence.
    + qsimpl. intros r' t' ih. rewrite (lookup_set_runner q r r' _ t Ht).
      case_decide; [|by apply Hk]. intros [= <-] [= <-]. done.
    + eexists. rewrite (lookup_set_runner q r r _ t Ht), decide_True by done. done.
Qed.

Lemma recordDelete_wellFormed r half q t :
  queueWellFormed q → runners q !! r = Some t →
  queueWellFormed (recordDelete r half q)
  ∧ working (recordDelete r half q) = working q
  ∧ ∃ t', runners (recordDelete r half q) !! r = Some t'
          ∧ stage t' = stage t
          ∧ deletePart t' = Some (default half (deletePart t)).
Proof.
  intros (Hw & Hk) Ht. unfold recordDelete. rewrite Ht.
  destruct (deletePart t) as [old|] eqn:Ei.
  - split; [done|]. split; [done|]. exists t. by rewrite Ei.
  - qsimpl. split; [split|split; [done|]].
    + qsimpl. intros k r' Hl. destruct (Hw _ _ Hl) as (t' & Ht' & Hm & Hst).
      rewrite (lookup_set_runner q r r' _ t Ht). case_decide; [|eauto].
      subst. eexists. split; [done|]. qsimpl. split; congruence.
    + qsimpl. intros r' t' ih. rewrite (lookup_set_runner q r r' _ t Ht).
      case_decide; [|by apply Hk]. intros [= <-]. qsimpl. by apply (Hk r).
    + eexists. rewrite (lookup_set_runner q r r _ t Ht), decide_True by done. done.
Qed.

Lemma enqueueInsert_holds (half : insertHalf) (q q' : orderFlushQueue) :
  queueWellFormed q →
  stepf (L_enqueueInsert half) q = Some q' →
  queueWellFormed q' ∧ holdsInsertHalf (ih_pos half) half q q'.
Proof.
  intros Hwf Hs. simpl in Hs.
  destruct (getFlushTaskRunner (ih_pos half) q) as [[r q1]|] eqn:E; simplify_eq/=.
  destruct (getFlushTaskRunner_wellFormed _ _ _ _ Hwf E)
    as (Hwf1 & Hl & t & Ht & Hst & Hm & Hi & _).
  destruct (recordInsert_wellFormed r half q1 t Hwf1 Ht (eq_sym Hm))
    as (Hwf2 & Hw2 & t' & Ht' & Hst' & Hi').
  split; [done|]. exists r, t'. rewrite Hw2. split; [done|]. split; [done|].
  split; [congruence|]. by rewrite Hi', Hi.
Qed.

Lemma enqueueDel_holds (p : MsgPosition) (half : deleteHalf) (q q' : orderFlushQueue) :
  queueWellFormed q →
  stepf (L_enqueueDel p half) q = Some q' →
  queueWellFormed q' ∧ holdsDeleteHalf p half q q'.
Proof.
  intros Hwf Hs. simpl in Hs.
  destruct (getFlushTaskRunner p q) as [[r q1]|] eqn:E; simplify_eq/=.
  destruct (getFlushTaskRunner_wellFormed _ _ _ _ Hwf E)
    as (Hwf1 & Hl & t & Ht & Hst & Hm & _ & Hd).
  destruct (recordDelete_wellFormed r half q1 t Hwf1 Ht)
    as (Hwf2 & Hw2 & t' & Ht' & Hst' & Hd').
  split; [done|]. exists r, t'. rewrite Hw2. split; [done|]. split; [done|].
  split; [congruence|]. by rewrite Hd', Hd.
Qed.

(** Every queue the flush manager can hold is well formed. *)
Lemma wellFormed_same (q q' : orderFlushQueue) :
  working q' = working q → runners q' = runners q →
  queueWellFormed q → queueWellFormed q'.
Proof. unfold queueWellFormed. by intros -> ->. Qed.

Lemma wellFormed_update (q q' : orderFlushQueue) (r : nat) (t t' : flushTaskRunner) :
  queueWellFormed q → runners q !! r = Some t →
  runners q' = <[r := t']> (runners q) →
  (∀ k r', working q' !! k = Some r' → working q !! k = Some r' ∧ r' ≠ r) →
  insertPart t' = insertPart t → runner_msgID t' = runner_msgID t →
  queueWellFormed q'.
Proof.
  intros (Hw & Hk) Ht Hr Hsub Hi Hm. split.
  - intros k r' Hl. apply Hsub in Hl as [Hl Hne].
    destruct (Hw _ _ Hl) as (t0 & Ht0 & ? & ?). exists t0.
    by rewrite Hr, (lookup_set_runner q r r' _ t Ht), decide_False.
  - intros r' t0 ih. rewrite Hr, (lookup_set_runner q r r' _ t Ht).
    case_decide; [|by apply Hk]. intros [= <-]. rewrite Hi, Hm. by apply (Hk r).
Qed.

Lemma postTask_working pack pi q :
  working (postTask pack pi q).2 = delete (Pos_MsgID (pos pack)) (working q).
Proof. unfold postTask. simpl. by case_bool_decide. Qed.

Lemma handler_step_same l q q' :
  handler_step l q = Some q' → working q' = working q ∧ runners q' = runners q.
Proof.
  destruct l; simpl; intros Hs; try done;
    destruct (handlers q !! h) as [pc|]; simplify_eq/=;
    destruct pc; simplify_eq/=; try done.
  by destruct (injectCh q); simplify_eq/=.
Qed.

Lemma stepf_wellFormed (l : label) (q q' : orderFlushQueue) :
  queueWellFormed q → stepf l q = Some q' → queueWellFormed q'.
Proof.
  intros Hwf Hs.
  assert (∀ r t k r', runners q !! r = Some t → stage t ≠ Waiting →
                      working q !! k = Some r' → r' ≠ r) as Hbusy.
  { intros r t k r' Ht Hst Hl ->. destruct Hwf as [Hw _].
    destruct (Hw _ _ Hl) as (t0 & ? & _ & ?). congruence. }
  destruct l.
  - by apply enqueueInsert_holds in Hs as [? _].
  - by apply enqueueDel_holds in Hs as [? _].
  - simpl in Hs. unfold inject in Hs. case_bool_decide; simplify_eq/=. done.
  - simpl in Hs. destruct (injectHandler q); [|by simplify_eq].
    apply handler_close_same in Hs as (Hw & Hr & _). by eapply wellFormed_same.
  - apply post_inv in Hs as (t & ih & dh & Ht & Hi & Hd & Hst & _ & ->).
    eapply (wellFormed_update q _ r t (with_stage Posted (with_pack _ t)));
      [done|done| | |done|done].
    + qsimpl. by rewrite postTask_runners.
    + qsimpl. rewrite postTask_working. cbn [getFlushPack pos].
      intros k r' Hl. apply lookup_delete_Some in Hl as [Hne Hl].
      split; [done|]. intros ->. destruct Hwf as [Hw Hk].
      destruct (Hw _ _ Hl) as (t0 & Ht0 & Hm & _).
      rewrite (Hk _ _ _ Ht Hi) in Hne. congruence.
  - apply (stage_step_inv _ r Posted Notifying) in Hs as (t & Ht & Hst & ->); [|by left].
    eapply (wellFormed_update q _ r t); [done|done|done| |done|done].
    intros k r' Hl. split; [done|]. eapply Hbusy; [done| |done]. by rewrite Hst.
  - apply (stage_step_inv _ r Notifying Notified) in Hs as (t & Ht & Hst & ->); [|by right].
    eapply (wellFormed_update q _ r t); [done|done|done| |done|done].
    intros k r' Hl. split; [done|]. eapply Hbusy; [done| |done]. by rewrite Hst.
  - apply finish_inv in Hs as (t & Ht & Hst & ->).
    eapply (wellFormed_update q _ r t); [done|done|done| |done|done].
    intros k r' Hl. split; [done|]. eapply Hbusy; [done| |done]. by rewrite Hst.
  - change (handler_step (L_receive h) q = Some q') in Hs.
    apply handler_step_same in Hs as [? ?]. by eapply wellFormed_same.
  - change (handler_step (L_setTail h) q = Some q') in Hs.
    apply handler_step_same in Hs as [? ?]. by eapply wellFormed_same.
  - change (handler_step (L_injected h) q = Some q') in Hs.
    apply handler_step_same in Hs as [? ?]. by eapply wellFormed_same.
  - change (handler_step (L_injectOver h) q = Some q') in Hs.
    apply handler_step_same in Hs as [? ?]. by eapply wellFormed_same.
  - change (handler_step (L_closeDone h) q = Some q') in Hs.
    apply handler_step_same in Hs as [? ?]. by eapply wellFormed_same.
Qed.



Lemma run_wellFormed (ls : list label) (q q' : orderFlushQueue) :
  queueWellFormed q → run ls q = Some q' → queueWellFormed q'.
Proof.
  revert q. induction ls as [|l ls IH]; intros q Hwf Hr; simpl in Hr.
  - by simplify_eq.
  - destruct (stepf l q) as [q1|] eqn:E; [|done]. simpl in Hr.
    eapply IH; [|done]. by eapply stepf_wellFormed.
Qed.


Section manager.
Context `{FlushEnv E}.

Lemma flushData_emptyTask (e : E) : flushData emptyTask e = (None, e).
Proof. reflexivity. Qed.





End manager.

(** The pack of an empty flush. *)
Definition emptyPack (segID : UniqueID) (flushed dropped : bool) (p : MsgPosition)
  : segmentFlushPack :=
  {| segmentID := segID; insertLogs := ∅; statsLogs := ∅; deltaLogs := [];
     pos := p; flushed := flushed; dropped := dropped; err := None |}.



(** *** Empty flushes *)


(** A queue as the dispatcher holds it under [segID]: getFlushQueue has
    created and initialised it for that segment, its runners are for that
    segment, and it is well formed. *)
Definition storedQueue (segID : UniqueID) (q : orderFlushQueue) : Prop :=
  once_done q = true ∧ queue_segmentID q = segID ∧ queueWellFormed q
  ∧ ∀ r t, runners q !! r = Some t → runner_segmentID t = segID.


(** [t'] is the runner [t] later on: the same segment, msgID and signals,
    and the halves [t] had been given. *)
Definition sameTask (t t' : flushTaskRunner) : Prop :=
  runner_segmentID t' = runner_segmentID t
  ∧ runner_msgID t' = runner_msgID t
  ∧ startSignal t' = startSignal t
  ∧ finishSignal t' = finishSignal t
  ∧ (∀ ih, insertPart t = Some ih → insertPart t' = Some ih)
  ∧ (∀ dh, deletePart t = Some dh → deletePart t' = Some dh).

Lemma sameTask_refl t : sameTask t t.
Proof. by repeat split. Qed.

Lemma sameTask_trans t1 t2 t3 : sameTask t1 t2 → sameTask t2 t3 → sameTask t1 t3.
Proof.
  intros (? & ? & ? & ? & Hi & Hd) (? & ? & ? & ? & Hi' & Hd').
  repeat split; try congruence; auto.
Qed.

Lemma sameTasks_refl (ts : list flushTaskRunner) : Forall2 sameTask ts ts.
Proof. induction ts; constructor; [apply sameTask_refl|done]. Qed.

Lemma sameTasks_update (ts : list flushTaskRunner) (r : nat) (t t' : flushTaskRunner) :
  ts !! r = Some t → sameTask t t' → Forall2 sameTask ts (<[r := t']> ts).
Proof.
  intros Ht Hs. rewrite <- (list_insert_id ts r t Ht) at 1.
  apply Forall2_insert; [apply sameTasks_refl|done].
Qed.

(** The runners a queue has after a step: those it had, each with the
    identity and the signals it had and the halves it had been given, and
    after them the ones the step created, for the segment of the queue. *)
Definition tasksKept (q q' : orderFlushQueue) : Prop :=
  once_done q' = once_done q
  ∧ queue_segmentID q' = queue_segmentID q
  ∧ ∃ old new,
      runners q' = old ++ new
      ∧ Forall2 sameTask (runners q) old
      ∧ Forall (fun t => runner_segmentID t = queue_segmentID q) new.

Lemma tasksKept_same (q q' : orderFlushQueue) :
  once_done q' = once_done q → queue_segmentID q' = queue_segmentID q →
  runners q' = runners q → tasksKept q q'.
Proof.
  intros Ho Hs Hr. split; [done|]. split; [done|].
  exists (runners q), []. rewrite app_nil_r. split; [done|].
  split; [apply sameTasks_refl|done].
Qed.

Lemma tasksKept_update (q q' : orderFlushQueue) (r : nat) (t t' : flushTaskRunner) :
  once_done q' = once_done q → queue_segmentID q' = queue_segmentID q →
  runners q !! r = Some t → sameTask t t' →
  runners q' = <[r := t']> (runners q) → tasksKept q q'.
Proof.
  intros Ho Hs Ht Hsame Hr. split; [done|]. split; [done|].
  exists (<[r := t']> (runners q)), []. rewrite app_nil_r. split; [done|].
  split; [by eapply sameTasks_update|done].
Qed.

Lemma tasksKept_trans (q1 q2 q3 : orderFlushQueue) :
  tasksKept q1 q2 → tasksKept q2 q3 → tasksKept q1 q3.
Proof.
  intros (Ho & Hs & old & new & Hr & Hold & Hnew)
         (Ho' & Hs' & old' & new' & Hr' & Hold' & Hnew').
  split; [congruence|]. split; [congruence|].
  rewrite Hr in Hold'. apply Forall2_app_inv_l in Hold' as (o1 & o2 & Ho1 & Ho2 & ->).
  exists o1, (o2 ++ new'). split; [by rewrite Hr', <- app_assoc|].
  split.
  - clear -Hold Ho1. revert o1 Ho1. induction Hold; intros o1 Ho1.
    + inversion Ho1. constructor.
    + inversion Ho1; subst. constructor; [by eapply sameTask_trans|auto].
  - apply Forall_app. split.
    + clear -Hnew Ho2 Hs. revert o2 Ho2. induction Hnew; intros o2 Ho2.
      * inversion Ho2. constructor.
      * inversion Ho2 as [|? ? ? ? Hst]; subst. constructor; [|auto].
        destruct Hst as [-> _]. done.
    + rewrite <- Hs. done.
Qed.

Lemma handler_close_ids h q q' :
  handler_close h q = Some q' →
  once_done q' = once_done q ∧ queue_segmentID q' = queue_segmentID q.
Proof.
  intros Hc. apply handler_close_inv in Hc as [[_ ->]|[_ ->]]; done.
Qed.

Lemma getFlushTaskRunner_tasksKept p q r q' :
  getFlushTaskRunner p q = Some (r, q') → tasksKept q q'.
Proof.
  intros Hg.
  apply getFlushTaskRunner_inv in Hg as [[Hl ->]|(Hnone & -> & q1 & Hc & ->)].
  - by apply tasksKept_same.
  - assert (once_done q1 = once_done q ∧ queue_segmentID q1 = queue_segmentID q
            ∧ runners q1 = runners q) as (Ho & Hs & Hr).
    { destruct (injectHandler q) as [h|]; [|by subst].
      destruct (handler_close_ids _ _ _ Hc). apply handler_close_same in Hc. tauto. }
    split; [done|]. split; [done|]. cbn. rewrite Hr, Hs.
    eexists _, _. split; [done|]. split; [apply sameTasks_refl|].
    by repeat constructor.
Qed.

Lemma recordInsert_tasksKept r half q : tasksKept q (recordInsert r half q).
Proof.
  unfold recordInsert. destruct (runners q !! r) as [t|] eqn:Ht; [|by apply tasksKept_same].
  destruct (insertPart t) eqn:Hi; [by apply tasksKept_same|].
  eapply tasksKept_update; [done|done|done| |done].
  repeat split; try done. cbn. congruence.
Qed.

Lemma recordDelete_tasksKept r half q : tasksKept q (recordDelete r half q).
Proof.
  unfold recordDelete. destruct (runners q !! r) as [t|] eqn:Ht; [|by apply tasksKept_same].
  destruct (deletePart t) eqn:Hi; [by apply tasksKept_same|].
  eapply tasksKept_update; [done|done|done| |done].
  repeat split; try done. cbn. congruence.
Qed.

Lemma postTask_ids pack pi q :
  once_done (postTask pack pi q).2 = once_done q
  ∧ queue_segmentID (postTask pack pi q).2 = queue_segmentID q.
Proof. unfold postTask. cbn. by case_bool_decide. Qed.

Lemma handler_step_ids l q q' :
  handler_step l q = Some q' →
  once_done q' = once_done q ∧ queue_segmentID q' = queue_segmentID q.
Proof.
  destruct l; simpl; intros Hs; try done;
    destruct (handlers q !! h) as [pc|]; simplify_eq/=;
    destruct pc; simplify_eq/=; try done.
  by destruct (injectCh q); simplify_eq/=.
Qed.

Lemma stepf_tasksKept (l : label) (q q' : orderFlushQueue) :
  stepf l q = Some q' → tasksKept q q'.
Proof.
  intros Hs. destruct l.
  - simpl in Hs. destruct (getFlushTaskRunner _ q) as [[r q1]|] eqn:Eg; simplify_eq/=.
    eapply tasksKept_trans; [by eapply getFlushTaskRunner_tasksKept|].
    apply recordInsert_tasksKept.
  - simpl in Hs. destruct (getFlushTaskRunner _ q) as [[r q1]|] eqn:Eg; simplify_eq/=.
    eapply tasksKept_trans; [by eapply getFlushTaskRunner_tasksKept|].
    apply recordDelete_tasksKept.
  - simpl in Hs. unfold inject in Hs. case_bool_decide; simplify_eq/=.
    by apply tasksKept_same.
  - simpl in Hs. destruct (injectHandler q); [|simplify_eq; by apply tasksKept_same].
    destruct (handler_close_ids _ _ _ Hs). apply handler_close_same in Hs as (_ & ? & _).
    by apply tasksKept_same.
  - apply post_inv in Hs as (t & ih & dh & Ht & Hi & Hd & Hst & _ & ->).
    destruct (postTask_ids (getFlushPack t ih dh) None q) as [Ho Hq].
    eapply (tasksKept_update q _ r t (with_stage Posted (with_pack _ t)));
      [by qsimpl|by qsimpl|done|by repeat split|].
    qsimpl. by rewrite postTask_runners.
  - apply (stage_step_inv _ r Posted Notifying) in Hs as (t & Ht & Hst & ->); [|by left].
    by eapply (tasksKept_update q _ r t (with_stage Notifying t)).
  - apply (stage_step_inv _ r Notifying Notified) in Hs as (t & Ht & Hst & ->); [|by right].
    by eapply (tasksKept_update q _ r t (with_stage Notified t)).
  - apply finish_inv in Hs as (t & Ht & Hst & ->).
    by eapply (tasksKept_update q _ r t (with_stage Finished t)).
  - change (handler_step (L_receive h) q = Some q') in Hs.
    destruct (handler_step_ids _ _ _ Hs). apply handler_step_same in Hs as [? ?].
    by apply tasksKept_same.
  - change (handler_step (L_setTail h) q = Some q') in Hs.
    destruct (handler_step_ids _ _ _ Hs). apply handler_step_same in Hs as [? ?].
    by apply tasksKept_same.
  - change (handler_step (L_injected h) q = Some q') in Hs.
    destruct (handler_step_ids _ _ _ Hs). apply handler_step_same in Hs as [? ?].
    by apply tasksKept_same.
  - change (handler_step (L_injectOver h) q = Some q') in Hs.
    destruct (handler_step_ids _ _ _ Hs). apply handler_step_same in Hs as [? ?].
    by apply tasksKept_same.
  - change (handler_step (L_closeDone h) q = Some q') in Hs.
    destruct (handler_step_ids _ _ _ Hs). apply handler_step_same in Hs as [? ?].
    by apply tasksKept_same.
Qed.

Lemma tasksKept_refl q : tasksKept q q.
Proof. by apply tasksKept_same. Qed.

Lemma run_tasksKept (ls : list label) (q q' : orderFlushQueue) :
  run ls q = Some q' → tasksKept q q'.
Proof.
  revert q. induction ls as [|l ls IH]; intros q Hr; simpl in Hr.
  - simplify_eq. apply tasksKept_refl.
  - destruct (stepf l q) as [q1|] eqn:E; [|done]. simpl in Hr.
    eapply tasksKept_trans; [by eapply stepf_tasksKept|by apply IH].
Qed.


Lemma tasksKept_stored (segID : UniqueID) (q q' : orderFlushQueue) :
  tasksKept q q' → queueWellFormed q' → storedQueue segID q → storedQueue segID q'.
Proof.
  intros (Ho & Hs & old & new & Hr & Hold & Hnew) Hwf (Hd & <- & _ & Hseg).
  split; [congruence|]. split; [done|]. split; [done|].
  intros r t Ht. rewrite Hr in Ht. apply lookup_app_Some in Ht as [Ht|[_ Ht]].
  - destruct (Forall2_lookup_r _ _ _ _ _ Hold Ht) as (t0 & Ht0 & (-> & _)).
    by eapply Hseg.
  - rewrite Forall_forall in Hnew. apply Hnew. by eapply list_elem_of_lookup_2.
Qed.

(** Steps of a stored queue keep it a stored queue. *)
Lemma run_storedQueue (segID : UniqueID) (ls : list label) (q q' : orderFlushQueue) :
  storedQueue segID q → run ls q = Some q' → storedQueue segID q'.
Proof.
  intros Hst Hr. eapply tasksKept_stored; [by eapply run_tasksKept| |done].
  destruct Hst as (_ & _ & Hwf & _). by eapply run_wellFormed.
Qed.


(** *** What an enqueue leaves in the queue *)







(** *** What a call leaves in the manager *)










Section manager.
Context `{FlushEnv E}.



End manager.










(** *** Empty flushes on a new manager *)





End datanode_spec.

(** * More properties of the DataCoord handlers (services.go) *)

Module datacoord_handlers.
Import datacoord.

Section handlers.
Context `{Consts} {S : Type}.
Context `{!ServerOps S, !Meta S, !Manager S, !ChannelManager S, !Compaction S, !Remote S}.

(** ** GetSegmentStates *)

(** What GetSegmentStates says about one id. *)
Definition describes (s : S) (st : SegmentStateInfo) : Prop :=
  match GetSegment (SSI_SegmentID st) s with
  | Some segment =>
      SSI_Status st = mkStatus ErrorCode_Success ""
      ∧ SSI_State st = Some (State segment)
      ∧ SSI_StartPosition st = StartPosition segment
  | None =>
      SSI_Status st
      = mkStatus ErrorCode_UnexpectedError
          ("failed to get segment " +:+ fmt_d (SSI_SegmentID st))
      ∧ SSI_State st = None ∧ SSI_StartPosition st = None
  end.

(** On a Healthy server GetSegmentStates answers Success whatever ids are
    asked for, with one entry per requested id, in the order of the
    request; an id that meta does not know gets an entry with its own
    UnexpectedError status, and the call changes nothing. *)
Theorem GetSegmentStates_answers_every_id (segmentIDs : list UniqueID) (s : S) :
  isClosed s = false →
  (GetSegmentStates segmentIDs s).2 = s
  ∧ GSS_Status (GetSegmentStates segmentIDs s).1 = mkStatus ErrorCode_Success ""
  ∧ map SSI_SegmentID (GSS_States (GetSegmentStates segmentIDs s).1) = segmentIDs
  ∧ Forall (describes s) (GSS_States (GetSegmentStates segmentIDs s).1).
Proof.
  intros Hserving. unfold GetSegmentStates. rewrite Hserving. cbn.
  split; [done|]. split; [done|]. split.
  - induction segmentIDs as [|id ids IH]; [done|]. cbn. f_equal; [|exact IH].
    unfold segmentStateOf. by destruct (GetSegment id s).
  - apply Forall_forall. intros st Hin. apply list_elem_of_fmap in Hin as (id & -> & _).
    unfold describes, segmentStateOf.
    destruct (GetSegment id s) as [seg|] eqn:E; cbn; rewrite E; done.
Qed.

(** ** GetSegmentInfo *)

Lemma collectInfos_result (s : S) (ids : list UniqueID) (acc : list SegmentInfo) :
  (∃ infos, mapM (fun id => GetSegment id s) ids = Some infos
            ∧ collectInfos s ids acc = Ok (acc ++ infos))
  ∨ (∃ pre id post,
       ids = pre ++ id :: post
       ∧ Forall (fun i => is_Some (GetSegment i s)) pre
       ∧ GetSegment id s = None
       ∧ collectInfos s ids acc = Err ("failed to get segment " +:+ fmt_d id)).
Proof.
  revert acc. induction ids as [|id ids IH]; intros acc.
  - left. exists []. by rewrite app_nil_r.
  - cbn [collectInfos]. destruct (GetSegment id s) as [info|] eqn:E.
    + destruct (IH (acc ++ [info])) as [(infos & Hm & Hc)|(pre & i & post & -> & Hpre & Hn & Hc)].
      * left. exists (info :: infos). split.
        -- cbn. rewrite E. cbn. by rewrite Hm.
        -- by rewrite Hc, <- app_assoc.
      * right. exists (id :: pre), i, post. split; [done|]. split; [|done].
        constructor; [by rewrite E|done].
    + right. exists [], id, ids. by repeat split.
Qed.

(** GetSegmentInfo is all or nothing: on a Healthy server it answers Success
    with the infos of all requested ids, in order, when meta knows every
    one of them; otherwise it answers UnexpectedError naming the first id
    that is missing, with no info at all.  It changes nothing. *)
Theorem GetSegmentInfo_all_or_nothing (segmentIDs : list UniqueID) (s : S) :
  isClosed s = false →
  (GetSegmentInfo segmentIDs s).2 = s
  ∧ ((∃ infos, mapM (fun id => GetSegment id s) segmentIDs = Some infos
               ∧ (GetSegmentInfo segmentIDs s).1
                 = {| GSI_Status := mkStatus ErrorCode_Success ""; GSI_Infos := infos |})
     ∨ (∃ pre id post,
          segmentIDs = pre ++ id :: post
          ∧ Forall (fun i => is_Some (GetSegment i s)) pre
          ∧ GetSegment id s = None
          ∧ (GetSegmentInfo segmentIDs s).1
            = {| GSI_Status :=
                   mkStatus ErrorCode_UnexpectedError
                     ("failed to get segment " +:+ fmt_d id);
                 GSI_Infos := [] |})).
Proof.
  intros Hserving. unfold GetSegmentInfo. rewrite Hserving.
  destruct (collectInfos_result s segmentIDs [])
    as [(infos & Hm & Hc)|(pre & id & post & Hids & Hpre & Hn & Hc)]; rewrite Hc; cbn.
  - split; [done|]. left. by exists infos.
  - split; [done|]. right. by exists pre, id, post.
Qed.

(** ** GetInsertBinlogPaths *)

(** On a Healthy server GetInsertBinlogPaths answers, for a segment meta
    knows, Success with the field ids and the path lists of the segment's
    binlogs side by side: the two lists have the same length and the i-th
    path list belongs to the i-th field id.  For a segment meta does not
    know it answers "segment not found".  It changes nothing. *)
Theorem GetInsertBinlogPaths_pairs_fields_and_paths (segmentID : UniqueID) (s : S) :
  isClosed s = false →
  (GetInsertBinlogPaths segmentID s).2 = s
  ∧ match GetSegment segmentID s with
    | Some segment =>
        GIB_Status (GetInsertBinlogPaths segmentID s).1 = mkStatus ErrorCode_Success ""
        ∧ length (GIB_FieldIDs (GetInsertBinlogPaths segmentID s).1)
          = length (GIB_Paths (GetInsertBinlogPaths segmentID s).1)
        ∧ zip (GIB_FieldIDs (GetInsertBinlogPaths segmentID s).1)
              (GIB_Paths (GetInsertBinlogPaths segmentID s).1)
          = map (fun b => (FieldBinlog_FieldID b, FieldBinlog_Binlogs b)) (Binlogs segment)
    | None =>
        (GetInsertBinlogPaths segmentID s).1
        = {| GIB_FieldIDs := []; GIB_Paths := [];
             GIB_Status := mkStatus ErrorCode_UnexpectedError "segment not found" |}
    end.
Proof.
  intros Hserving. unfold GetInsertBinlogPaths. rewrite Hserving.
  destruct (GetSegment segmentID s) as [segment|]; cbn; [|done].
  split; [done|]. split; [done|]. split; [by rewrite !length_map|].
  induction (Binlogs segment) as [|b bs IH]; [done|]. cbn. by rewrite IH.
Qed.

(** ** SaveBinlogPaths *)

(** SaveBinlogPaths answers Success exactly when the server is Healthy, meta
    knows the segment, the reporting node owns the segment's channel and
    UpdateFlushSegmentsInfo returns no error (run after DropSegment for a
    dropped segment).  What comes after the meta update cannot fail the
    call: an error of RemoveChannel, of getTimetravelReverseTime or of
    triggerSingleCompaction is not reported. *)
Theorem SaveBinlogPaths_success_iff (req : SaveBinlogPathsRequest) (s : S) :
  Status_ErrorCode (SaveBinlogPaths req s).1 = ErrorCode_Success
  ↔ isClosed s = false
    ∧ ∃ segment,
        GetSegment (SBP_SegmentID req) s = Some segment
        ∧ Match (GetSourceID (SBP_Base req)) (InsertChannel segment) s = true
        ∧ (UpdateFlushSegmentsInfo (SBP_SegmentID req) (SBP_Flushed req) (SBP_Dropped req)
             (SBP_Field2BinlogPaths req) (SBP_Field2StatslogPaths req)
             (SBP_Deltalogs req) (SBP_CheckPoints req) (SBP_StartPositions req)
             (if SBP_Dropped req then DropSegment (ID segment) s else s)).1 = None.
Proof.
  unfold SaveBinlogPaths. split.
  - destruct (isClosed s); [done|].
    destruct (GetSegment (SBP_SegmentID req) s) as [segment|]; [|done].
    destruct (Match (GetSourceID (SBP_Base req)) (InsertChannel segment) s) eqn:Em;
      [|done].
    cbn. destruct (UpdateFlushSegmentsInfo _ _ _ _ _ _ _ _ _) as [[err|] s2] eqn:E;
      [done|].
    intros _. split; [done|]. exists segment. by rewrite E.
  - intros (-> & segment & -> & -> & Hu). cbn.
    destruct (UpdateFlushSegmentsInfo _ _ _ _ _ _ _ _ _) as [[err|] s2]; done.
Qed.

(** ** checkShouldDropChannel *)

(** A segment that keeps its channel alive: it has a start position, was
    not produced by a compaction, and is not Dropped. *)
Definition keepsChannel (segment : SegmentInfo) : Prop :=
  StartPosition segment ≠ None
  ∧ CompactionFrom segment = []
  ∧ State segment ≠ SegmentState_Dropped.

(** checkShouldDropChannel answers true exactly when no segment of the
    channel keeps it alive; in particular for a channel without segments. *)
Theorem checkShouldDropChannel_iff (channel : string) (s : S) :
  (checkShouldDropChannel channel s = true
   ↔ Forall (fun segment => ¬ keepsChannel segment) (GetSegmentsByChannel channel s))
  ∧ (GetSegmentsByChannel channel s = [] → checkShouldDropChannel channel s = true).
Proof.
  unfold checkShouldDropChannel. split; [|by intros ->].
  rewrite List.forallb_forall, Forall_forall. unfold keepsChannel.
  split; intros Hall segment Hin.
  - apply list_elem_of_In, Hall in Hin.
    apply negb_true_iff, andb_false_iff in Hin as [Hin|Hin];
      [apply andb_false_iff in Hin as [Hin|Hin]|];
      apply bool_decide_eq_false in Hin; intros (? & Hc & ?); apply Hin; try done.
    by rewrite Hc.
  - apply list_elem_of_In, Hall in Hin.
    apply negb_true_iff. apply not_true_iff_false. intros Hk. apply Hin.
    apply andb_true_iff in Hk as [Hk Hd]. apply andb_true_iff in Hk as [Hp Hc].
    apply bool_decide_eq_true in Hd, Hp, Hc.
    repeat split; try done. by destruct (CompactionFrom segment).
Qed.

(** ** GetComponentStates *)

(** GetComponentStates never fails and changes nothing.  Provided the
    constants ServerStateInitializing and ServerStateHealthy differ, it
    reports StateCode_Healthy exactly when the other handlers serve
    (isClosed is false). *)
Theorem GetComponentStates_healthy_iff_serving (s : S) :
  ServerStateInitializing ≠ ServerStateHealthy →
  (GetComponentStates s).2 = s
  ∧ CS_Status (GetComponentStates s).1 = mkStatus ErrorCode_Success ""
  ∧ CI_NodeID (CS_State (GetComponentStates s).1) = Params_NodeID
  ∧ (CI_StateCode (CS_State (GetComponentStates s).1) = StateCode_Healthy
     ↔ isClosed s = false).
Proof.
  intros Hne. unfold GetComponentStates, isClosed. cbn.
  split; [done|]. split; [done|]. split; [done|].
  rewrite bool_decide_eq_false.
  repeat case_bool_decide; split; intros Hx; try done; try congruence.
  exfalso. apply Hx. congruence.
Qed.

(** ** GetRecoveryInfo *)

(** The paths recorded for field [f] in [logs], in the order of [logs]. *)
Definition pathsOfField (f : UniqueID) (logs : list FieldBinlog) : list string :=
  concat (map FieldBinlog_Binlogs (filter (fun b => FieldBinlog_FieldID b = f) logs)).

Lemma foldl_appendPaths (logs : list FieldBinlog) (m : gmap UniqueID (list string))
    (f : UniqueID) :
  foldl appendPaths m logs !! f
  = match filter (fun b => FieldBinlog_FieldID b = f) logs with
    | [] => m !! f
    | _ => Some (default [] (m !! f) ++ pathsOfField f logs)
    end.
Proof.
  revert m. induction logs as [|b logs IH]; intros m; [done|].
  cbn [foldl]. rewrite IH. unfold pathsOfField. rewrite filter_cons.
  unfold appendPaths at 1 2.
  destruct (decide (FieldBinlog_FieldID b = f)) as [->|Hne].
  - rewrite lookup_insert_eq. cbn.
    destruct (filter _ logs); cbn; by rewrite ?app_nil_r, <- ?app_assoc.
  - by rewrite lookup_insert_ne.
Qed.

(** The two regrouping loops of GetRecoveryInfo merge the binlogs of a
    segment by field: every field id of the input appears in exactly one
    entry of the output, and the entry holds all the paths recorded for
    that field, in their original order.  (The order of the entries is that
    of a Go map iteration and is left open.) *)
Theorem fieldBinlogsOf_merges_by_field (logs : list FieldBinlog) :
  NoDup (map FieldBinlog_FieldID (fieldBinlogsOf logs))
  ∧ ∀ f paths,
      mkFieldBinlog f paths ∈ fieldBinlogsOf logs
      ↔ (∃ b, b ∈ logs ∧ FieldBinlog_FieldID b = f) ∧ paths = pathsOfField f logs.
Proof.
  unfold fieldBinlogsOf. split.
  - assert (∀ L : list (UniqueID * list string),
              map FieldBinlog_FieldID
                (map (fun '(f, paths) => mkFieldBinlog f paths) L) = L.*1) as ->.
    { induction L as [|[f p] L IH]; [done|]. cbn. f_equal. exact IH. }
    apply NoDup_fst_map_to_list.
  - intros f paths. rewrite list_elem_of_fmap.
    assert ((∃ y : UniqueID * list string,
               mkFieldBinlog f paths = (let '(f0, paths0) := y in mkFieldBinlog f0 paths0)
               ∧ y ∈ map_to_list (foldl appendPaths ∅ logs))
            ↔ foldl appendPaths ∅ logs !! f = Some paths) as ->.
    { split.
      - intros ([f0 p0] & [= -> ->] & Hin). by apply elem_of_map_to_list.
      - intros Hl. exists (f, paths). split; [done|]. by apply elem_of_map_to_list. }
    rewrite foldl_appendPaths, lookup_empty. cbn.
    destruct (filter (fun b => FieldBinlog_FieldID b = f) logs) as [|b bs] eqn:E.
    + split; [done|]. intros [(b & Hin & Hf) _].
      assert (b ∈ filter (fun b => FieldBinlog_FieldID b = f) logs) as Hb
        by (by apply list_elem_of_filter).
      rewrite E in Hb. by apply elem_of_nil in Hb.
    + assert (b ∈ filter (fun b => FieldBinlog_FieldID b = f) logs) as Hb
        by (rewrite E; left).
      apply list_elem_of_filter in Hb as [Hf Hin].
      split.
      * intros [= <-]. split; [by exists b|done].
      * intros [_ ->]. done.
Qed.

(** A segment whose binlogs GetRecoveryInfo hands out. *)
Definition servesRecovery (segment : SegmentInfo) : Prop :=
  State segment = SegmentState_Flushed ∨ State segment = SegmentState_Flushing.

Lemma recoveryStep_skip id segment a :
  ¬ servesRecovery segment → recoveryStep id segment a = a.
Proof.
  intros Hno. unfold recoveryStep.
  rewrite !bool_decide_eq_true_2; [done|..]; intros Hst; apply Hno;
    unfold servesRecovery; auto.
Qed.

Lemma recoveryStep_take id segment a :
  servesRecovery segment →
  recoveryStep id segment a
  = {| flushedIDs := {[id]} ∪ flushedIDs a;
       segment2Binlogs :=
         <[id := default [] (segment2Binlogs a !! id) ++ fieldBinlogsOf (Binlogs segment)]>
           (segment2Binlogs a);
       segment2StatsBinlogs :=
         <[id := default [] (segment2StatsBinlogs a !! id)
                 ++ fieldBinlogsOf (Statslogs segment)]>
           (segment2StatsBinlogs a);
       segment2DeltaBinlogs :=
         <[id := default [] (segment2DeltaBinlogs a !! id) ++ Deltalogs segment]>
           (segment2DeltaBinlogs a);
       segmentsNumOfRows := <[id := NumOfRows segment]> (segmentsNumOfRows a) |}.
Proof.
  intros [Hst|Hst]; unfold recoveryStep; rewrite Hst; done.
Qed.

Lemma servesRecovery_dec segment : servesRecovery segment ∨ ¬ servesRecovery segment.
Proof.
  unfold servesRecovery.
  destruct (State segment); auto; right; intros [?|?]; discriminate.
Qed.

Lemma recoveryLoop_ind (s : S) (P : list UniqueID → recoveryAcc → recoveryAcc → Prop) :
  (∀ a, P [] a a) →
  (∀ id segment ids a a',
     GetSegment id s = Some segment →
     recoveryLoop s ids (recoveryStep id segment a) = Ok a' →
     P ids (recoveryStep id segment a) a' → P (id :: ids) a a') →
  ∀ ids a a', recoveryLoop s ids a = Ok a' → P ids a a'.
Proof.
  intros Hnil Hcons ids. induction ids as [|id ids IH]; intros a a' Hloop.
  - cbn in Hloop. injection Hloop as <-. apply Hnil.
  - cbn in Hloop. destruct (GetSegment id s) as [segment|] eqn:E; [|done].
    eapply Hcons; [done|done|]. by apply IH.
Qed.

Lemma recoveryLoop_flushedIDs (s : S) ids a a' :
  recoveryLoop s ids a = Ok a' →
  ∀ x, x ∈ flushedIDs a'
       ↔ x ∈ flushedIDs a
         ∨ (x ∈ ids ∧ ∃ segment, GetSegment x s = Some segment ∧ servesRecovery segment).
Proof.
  revert ids a a'. apply (recoveryLoop_ind s (fun ids a a' => ∀ x, _ ↔ _)).
  - intros a x. split; [by left|]. intros [?|[Hin _]]; [done|]. by apply elem_of_nil in Hin.
  - intros id segment ids a a' Hg _ IH x. rewrite IH. clear IH.
    destruct (servesRecovery_dec segment) as [Hs|Hs].
    + rewrite (recoveryStep_take _ _ _ Hs). cbn. rewrite elem_of_union, elem_of_singleton.
      split.
      * intros [[->|?]|[Hin Hx]]; [right|by left|right].
        -- split; [left|]. by exists segment.
        -- split; [by right|done].
      * intros [?|[Hin Hx]]; [left; by right|].
        apply elem_of_cons in Hin as [->|Hin]; [left; by left|right; done].
    + rewrite (recoveryStep_skip _ _ _ Hs). split.
      * intros [?|[Hin Hx]]; [by left|right]. split; [by right|done].
      * intros [?|[Hin Hx]]; [by left|].
        apply elem_of_cons in Hin as [->|Hin]; [|right; done].
        destruct Hx as (seg & Hg' & Hs'). rewrite Hg in Hg'. by injection Hg' as <-.
Qed.

(** What the accumulator holds for a segment that serves recovery. *)
Definition recoveredEntry (ids : list UniqueID) (a a' : recoveryAcc) (x : UniqueID)
    (segment : SegmentInfo) : Prop :=
  segmentsNumOfRows a' !! x = Some (NumOfRows segment)
  ∧ (NoDup ids →
     segment2Binlogs a' !! x
     = Some (default [] (segment2Binlogs a !! x) ++ fieldBinlogsOf (Binlogs segment))
     ∧ segment2StatsBinlogs a' !! x
       = Some (default [] (segment2StatsBinlogs a !! x)
               ++ fieldBinlogsOf (Statslogs segment))
     ∧ segment2DeltaBinlogs a' !! x
       = Some (default [] (segment2DeltaBinlogs a !! x) ++ Deltalogs segment)).

Definition sameEntry (a a' : recoveryAcc) (x : UniqueID) : Prop :=
  segmentsNumOfRows a' !! x = segmentsNumOfRows a !! x
  ∧ segment2Binlogs a' !! x = segment2Binlogs a !! x
  ∧ segment2StatsBinlogs a' !! x = segment2StatsBinlogs a !! x
  ∧ segment2DeltaBinlogs a' !! x = segment2DeltaBinlogs a !! x.

Lemma recoveryStep_other id segment a x : x ≠ id → sameEntry a (recoveryStep id segment a) x.
Proof.
  intros Hne. destruct (servesRecovery_dec segment) as [Hs|Hs].
  - rewrite (recoveryStep_take _ _ _ Hs). unfold sameEntry. cbn.
    by rewrite !lookup_insert_ne.
  - by rewrite (recoveryStep_skip _ _ _ Hs).
Qed.

Lemma recoveryLoop_entries (s : S) ids a a' :
  recoveryLoop s ids a = Ok a' →
  ∀ x segment, GetSegment x s = Some segment → servesRecovery segment →
    (x ∉ ids → sameEntry a a' x) ∧ (x ∈ ids → recoveredEntry ids a a' x segment).
Proof.
  revert ids a a'.
  apply (recoveryLoop_ind s
           (fun ids a a' => ∀ x segment, _ → _ → (_ → sameEntry a a' x) ∧ (_ → _))).
  - intros a x segment _ _. split; [done|]. intros Hin. by apply elem_of_nil in Hin.
  - intros id seg ids a a' Hg _ IH x segment Hx Hs.
    destruct (IH x segment Hx Hs) as [IHout IHin]. clear IH. split.
    + intros Hnotin. apply not_elem_of_cons in Hnotin as [Hne Hnotin].
      destruct (IHout Hnotin) as (E1 & E2 & E3 & E4).
      destruct (recoveryStep_other id seg a x Hne) as (F1 & F2 & F3 & F4).
      unfold sameEntry. by rewrite E1, E2, E3, E4.
    + intros Hin. destruct (decide (x ∈ ids)) as [Hin'|Hnotin].
      * destruct (IHin Hin') as [Hrows Hlogs]. split; [done|].
        intros Hnd. apply NoDup_cons in Hnd as [Hid Hnd].
        assert (x ≠ id) as Hne by (intros ->; done).
        destruct (Hlogs Hnd) as (L1 & L2 & L3).
        destruct (recoveryStep_other id seg a x Hne) as (_ & F2 & F3 & F4).
        by rewrite L1, L2, L3, F2, F3, F4.
      * apply elem_of_cons in Hin as [->|?]; [|done].
        rewrite Hg in Hx. injection Hx as ->.
        destruct (IHout Hnotin) as (E1 & E2 & E3 & E4).
        rewrite (recoveryStep_take _ _ _ Hs) in E1, E2, E3, E4.
        cbn [segmentsNumOfRows segment2Binlogs segment2StatsBinlogs segment2DeltaBinlogs]
          in E1, E2, E3, E4.
        rewrite lookup_insert_eq in E1. rewrite lookup_insert_eq in E2.
        rewrite lookup_insert_eq in E3. rewrite lookup_insert_eq in E4. done.
Qed.

Lemma recoveryLoop_result (s : S) (ids : list UniqueID) (a : recoveryAcc) :
  (∃ segments a', mapM (fun id => GetSegment id s) ids = Some segments
                  ∧ recoveryLoop s ids a = Ok a')
  ∨ (∃ pre id post,
       ids = pre ++ id :: post
       ∧ Forall (fun i => is_Some (GetSegment i s)) pre
       ∧ GetSegment id s = None
       ∧ recoveryLoop s ids a = Err ("failed to get segment " +:+ fmt_d id)).
Proof.
  revert a. induction ids as [|id ids IH]; intros a.
  - left. by exists [], a.
  - cbn [recoveryLoop]. destruct (GetSegment id s) as [segment|] eqn:E.
    + destruct (IH (recoveryStep id segment a))
        as [(segs & a' & Hm & Hl)|(pre & i & post & -> & Hpre & Hn & Hl)].
      * left. exists (segment :: segs), a'. split; [|done]. cbn. rewrite E. cbn.
        by rewrite Hm.
      * right. exists (id :: pre), i, post. split; [done|]. split; [|done].
        constructor; [by rewrite E|done].
    + right. exists [], id, ids. by repeat split.
Qed.

(** GetRecoveryInfo fails as a whole when meta does not know one of the
    segment ids of the partition: it answers UnexpectedError naming the
    first such id, hands out nothing, and does not ask the root coordinator
    (the server is left as it was). *)
Theorem GetRecoveryInfo_missing_segment (req : GetRecoveryInfoRequest) (s : S)
    (pre post : list UniqueID) (id : UniqueID) :
  isClosed s = false →
  GetSegmentsIDOfPartition (GRI_CollectionID req) (GRI_PartitionID req) s
  = pre ++ id :: post →
  Forall (fun i => is_Some (GetSegment i s)) pre →
  GetSegment id s = None →
  GetRecoveryInfo req s
  = ({| GRR_Status :=
          mkStatus ErrorCode_UnexpectedError ("failed to get segment " +:+ fmt_d id);
        GRR_Channels := []; GRR_Binlogs := [] |}, s).
Proof.
  intros Hserving Hids Hpre Hnone. unfold GetRecoveryInfo. rewrite Hserving, Hids.
  destruct (recoveryLoop_result s (pre ++ id :: post) (mkrecoveryAcc ∅ ∅ ∅ ∅ ∅))
    as [(segs & a' & Hm & _)|(pre' & i & post' & Heq & Hpre' & Hn & ->)].
  - exfalso. apply mapM_Some_1 in Hm.
    apply Forall2_app_inv_l in Hm as (? & ? & _ & Hm & _).
    apply Forall2_cons_inv_l in Hm as (? & ? & Hm & _). congruence.
  - assert (i = id) as ->; [|done].
    clear -Heq Hpre Hpre' Hnone Hn.
    revert pre' Heq Hpre'. induction Hpre as [|x pre Hx Hpre IH]; intros pre' Heq Hpre'.
    + destruct Hpre' as [|y pre' Hy Hpre']; cbn in Heq; [congruence|].
      injection Heq as -> _. rewrite Hnone in Hy. by destruct Hy.
    + destruct Hpre' as [|y pre' Hy Hpre']; cbn in Heq.
      * injection Heq as -> _. rewrite Hn in Hx. by destruct Hx.
      * injection Heq as -> Heq. by eapply IH.
Qed.

Lemma recoveryLoop_total (s : S) (ids : list UniqueID) (segments : list SegmentInfo)
    (a : recoveryAcc) :
  mapM (fun id => GetSegment id s) ids = Some segments →
  ∃ a', recoveryLoop s ids a = Ok a'.
Proof.
  intros Hm.
  destruct (recoveryLoop_result s ids a)
    as [(segs & a' & _ & Hl)|(pre & i & post & -> & _ & Hn & _)]; [by exists a'|].
  exfalso. apply mapM_Some_1 in Hm.
  apply Forall2_app_inv_l in Hm as (? & ? & _ & Hm & _).
  apply Forall2_cons_inv_l in Hm as (? & ? & Hm & _). congruence.
Qed.

(** What GetRecoveryInfo says about one segment it hands out. *)
Definition recoveryEntryOf (s : S) (ids : list UniqueID) (b : SegmentBinlogs) : Prop :=
  ∃ segment,
    GetSegment (SB_SegmentID b) s = Some segment
    ∧ SB_NumOfRows b = NumOfRows segment
    ∧ (NoDup ids →
       SB_FieldBinlogs b = fieldBinlogsOf (Binlogs segment)
       ∧ SB_Statslogs b = fieldBinlogsOf (Statslogs segment)
       ∧ SB_Deltalogs b = Deltalogs segment).

(** When meta knows every segment id of the partition, GetRecoveryInfo on a
    Healthy server hands out binlogs for exactly the segments of the
    partition that are Flushed or Flushing, one entry per segment, each
    with the segment's row count (and, the ids being distinct, with its
    binlogs and statslogs merged by field and its deltalogs); Growing,
    Sealed and Dropped segments are left out.  It then asks the root
    coordinator for the collection's channels: on an error it fails with
    that error, otherwise it returns one channel info per virtual channel,
    in order. *)
Theorem GetRecoveryInfo_hands_out_flushed_segments (req : GetRecoveryInfoRequest) (s : S)
    (segments : list SegmentInfo) :
  isClosed s = false →
  mapM (fun id => GetSegment id s)
       (GetSegmentsIDOfPartition (GRI_CollectionID req) (GRI_PartitionID req) s)
  = Some segments →
  match DescribeCollection (GRI_CollectionID req) s with
  | (Err err, s1) =>
      GetRecoveryInfo req s
      = ({| GRR_Status := mkStatus ErrorCode_UnexpectedError err;
            GRR_Channels := []; GRR_Binlogs := [] |}, s1)
  | (Ok channels, s1) =>
      (GetRecoveryInfo req s).2 = s1
      ∧ GRR_Status (GetRecoveryInfo req s).1 = mkStatus ErrorCode_Success ""
      ∧ GRR_Channels (GetRecoveryInfo req s).1
        = map (fun c => GetVChanPositions c (GRI_CollectionID req) (GRI_PartitionID req) s1)
              channels
      ∧ NoDup (map SB_SegmentID (GRR_Binlogs (GetRecoveryInfo req s).1))
      ∧ (∀ id, id ∈ map SB_SegmentID (GRR_Binlogs (GetRecoveryInfo req s).1)
               ↔ id ∈ GetSegmentsIDOfPartition (GRI_CollectionID req)
                         (GRI_PartitionID req) s
                 ∧ ∃ segment, GetSegment id s = Some segment ∧ servesRecovery segment)
      ∧ Forall (recoveryEntryOf s (GetSegmentsIDOfPartition (GRI_CollectionID req)
                                     (GRI_PartitionID req) s))
               (GRR_Binlogs (GetRecoveryInfo req s).1)
  end.
Proof.
  intros Hserving Hm. unfold GetRecoveryInfo. rewrite Hserving.
  set (ids := GetSegmentsIDOfPartition (GRI_CollectionID req) (GRI_PartitionID req) s) in *.
  destruct (recoveryLoop_total s ids segments (mkrecoveryAcc ∅ ∅ ∅ ∅ ∅) Hm) as [a Hloop].
  rewrite Hloop.
  destruct (DescribeCollection (GRI_CollectionID req) s) as [[channels|err] s1]; [|done].
  cbn [fst snd GRR_Status GRR_Channels GRR_Binlogs].
  pose proof (recoveryLoop_flushedIDs s ids _ _ Hloop) as Hflushed.
  pose proof (recoveryLoop_entries s ids _ _ Hloop) as Hentries.
  assert (map SB_SegmentID (map (segmentBinlogsOf a) (elements (flushedIDs a)))
          = elements (flushedIDs a)) as Hids.
  { induction (elements (flushedIDs a)) as [|x l IH]; [done|]. cbn. f_equal. exact IH. }
  assert (∀ id, id ∈ flushedIDs a
                ↔ id ∈ ids ∧ ∃ segment, GetSegment id s = Some segment
                                        ∧ servesRecovery segment) as Hmem.
  { intros id. rewrite Hflushed. cbn. split; [|by right].
    intros [Hin|?]; [|done]. by apply elem_of_empty in Hin. }
  split; [done|]. split; [done|]. split; [done|].
  rewrite Hids. split; [apply NoDup_elements|]. split.
  - intros id. by rewrite elem_of_elements.
  - apply Forall_forall. intros b Hb. apply list_elem_of_fmap in Hb as (id & -> & Hid).
    apply elem_of_elements, Hmem in Hid as (Hin & segment & Hg & Hs).
    destruct (Hentries id segment Hg Hs) as [_ Hentry].
    destruct (Hentry Hin) as [Hrows Hlogs].
    exists segment. unfold segmentBinlogsOf. cbn. split; [done|].
    split; [by rewrite Hrows|]. intros Hnd.
    destruct (Hlogs Hnd) as (L1 & L2 & L3). rewrite L1, L2, L3. cbn.
    by rewrite !lookup_empty.
Qed.

(** ** WatchChannels *)

Lemma watchLoop_app (collectionID : UniqueID) (names1 names2 : list string) (s : S) :
  watchLoop collectionID (names1 ++ names2) s
  = match watchLoop collectionID names1 s with
    | (Some err, s1) => (Some err, s1)
    | (None, s1) => watchLoop collectionID names2 s1
    end.
Proof.
  revert s. induction names1 as [|c names1 IH]; intros s; [done|].
  cbn. destruct (channelManager_Watch _ s) as [[err|] s1]; [done|apply IH].
Qed.

(** WatchChannels watches the channels one after the other and stops at the
    first one that fails: when watching [names1] fails, the answer and the
    server for [names1 ++ names2] are those for [names1] alone (no channel
    of [names2] is touched); when it succeeds, the call goes on with
    [names2] from the server it has reached. *)
Theorem WatchChannels_stops_at_first_failure (collectionID : UniqueID)
    (names1 names2 : list string) (s : S) :
  isClosed s = false →
  WatchChannels (mkWatchChannelsRequest collectionID (names1 ++ names2)) s
  = match watchLoop collectionID names1 s with
    | (Some err, s1) => WatchChannels (mkWatchChannelsRequest collectionID names1) s
    | (None, s1) =>
        match watchLoop collectionID names2 s1 with
        | (Some err, s2) =>
            ({| WCResp_Status := mkStatus ErrorCode_UnexpectedError err |}, s2)
        | (None, s2) => ({| WCResp_Status := mkStatus ErrorCode_Success "" |}, s2)
        end
    end.
Proof.
  intros Hserving. unfold WatchChannels. rewrite Hserving. cbn.
  rewrite watchLoop_app. by destruct (watchLoop collectionID names1 s) as [[err|] s1].
Qed.

(** ** AssignSegmentID *)

Lemma assignLoop_acc (reqs : list SegmentIDRequest) (assigns : list SegmentIDAssignment)
    (s : S) :
  assignLoop reqs assigns s
  = (assigns ++ (assignLoop reqs [] s).1, (assignLoop reqs [] s).2).
Proof.
  revert assigns s. induction reqs as [|r reqs IH]; intros assigns s.
  - cbn. by rewrite app_nil_r.
  - cbn. destruct (GetCollection (SIR_CollectionID r) s) as [[coll|] s1]; [|apply IH].
    destruct (AllocSegment _ _ _ _ _) as [[allocations|err] s3]; [|apply IH].
    rewrite IH, (IH (map _ _)). cbn. by rewrite app_assoc.
Qed.

Lemma assignLoop_app (reqs1 reqs2 : list SegmentIDRequest)
    (assigns : list SegmentIDAssignment) (s : S) :
  assignLoop (reqs1 ++ reqs2) assigns s
  = assignLoop reqs2 (assignLoop reqs1 assigns s).1 (assignLoop reqs1 assigns s).2.
Proof.
  revert assigns s. induction reqs1 as [|r reqs1 IH]; intros assigns s; [done|].
  cbn. destruct (GetCollection (SIR_CollectionID r) s) as [[coll|] s1]; [|apply IH].
  destruct (AllocSegment _ _ _ _ _) as [[allocations|err] s3]; apply IH.
Qed.

(** One AssignSegmentID call for [reqs1 ++ reqs2] does what a call for
    [reqs1] followed by a call for [reqs2] does, provided the server is
    still Healthy in between: the same server results, and the assignments
    of the two calls one after the other. *)
Theorem AssignSegmentID_splits (reqs1 reqs2 : list SegmentIDRequest) (s : S) :
  isClosed s = false →
  isClosed (AssignSegmentID reqs1 s).2 = false →
  AssignSegmentID (reqs1 ++ reqs2) s
  = ({| ASR_SegIDAssignments :=
          ASR_SegIDAssignments (AssignSegmentID reqs1 s).1
          ++ ASR_SegIDAssignments
               (AssignSegmentID reqs2 (AssignSegmentID reqs1 s).2).1;
        ASR_Status := mkStatus ErrorCode_Success "" |},
     (AssignSegmentID reqs2 (AssignSegmentID reqs1 s).2).2).
Proof.
  unfold AssignSegmentID. intros Hserving. rewrite Hserving.
  rewrite assignLoop_app.
  destruct (assignLoop reqs1 [] s) as [assigns1 s1]. cbn [fst snd].
  intros ->. rewrite assignLoop_acc.
  by destruct (assignLoop reqs2 [] s1) as [assigns2 s2].
Qed.

(** An assignment answers a request of the call. *)
Definition answers (r : SegmentIDRequest) (a : SegmentIDAssignment) : Prop :=
  SIA_ChannelName a = SIR_ChannelName r
  ∧ SIA_CollectionID a = SIR_CollectionID r
  ∧ SIA_PartitionID a = SIR_PartitionID r.

Lemma assignLoop_answers (reqs : list SegmentIDRequest) (s : S) :
  Forall (fun a => (∃ r, r ∈ reqs ∧ answers r a)
                   ∧ SIA_Status a = Some (mkStatus ErrorCode_Success "")
                   ∧ 0 ≤ SIA_Count a < 2 ^ 32)
         (assignLoop reqs [] s).1.
Proof.
  revert s. induction reqs as [|r reqs IH]; intros s; [by constructor|].
  assert (∀ s', Forall (fun a => (∃ r0, r0 ∈ r :: reqs ∧ answers r0 a)
                                 ∧ SIA_Status a = Some (mkStatus ErrorCode_Success "")
                                 ∧ 0 ≤ SIA_Count a < 2 ^ 32)
                       (assignLoop reqs [] s').1) as IH'.
  { intros s'. eapply Forall_impl; [apply IH|]. cbn.
    intros a ((r0 & Hin & Ha) & ? & ?). split; [|done]. exists r0. split; [by right|done]. }
  cbn. destruct (GetCollection (SIR_CollectionID r) s) as [[coll|] s1]; [|apply IH'].
  destruct (AllocSegment _ _ _ _ _) as [[allocations|err] s3]; [|apply IH'].
  rewrite assignLoop_acc. cbn. apply Forall_app. split; [|apply IH'].
  apply Forall_forall. intros a Hin. apply list_elem_of_fmap in Hin as (al & -> & _).
  split; [|split; [done|]].
  - exists r. split; [left|done].
  - cbn. unfold to_uint32. apply Z.mod_pos_bound. lia.
Qed.

(** Whatever the segment manager allocates, every assignment AssignSegmentID
    returns carries the channel, collection and partition of one of the
    requests of the call and a Success status, and its count fits a
    uint32. *)
Theorem AssignSegmentID_answers_requests (reqs : list SegmentIDRequest) (s : S) :
  Forall (fun a => (∃ r, r ∈ reqs ∧ answers r a)
                   ∧ SIA_Status a = Some (mkStatus ErrorCode_Success "")
                   ∧ 0 ≤ SIA_Count a < 2 ^ 32)
         (ASR_SegIDAssignments (AssignSegmentID reqs s).1).
Proof.
  unfold AssignSegmentID. destruct (isClosed s); [by constructor|].
  pose proof (assignLoop_answers reqs s) as Hall.
  by destruct (assignLoop reqs [] s) as [assigns s1].
Qed.

(** ** The compaction handlers *)

Definition compactionRequest (rq : Request) : bool :=
  match rq with
  | Req_CompleteCompaction _ | Req_ManualCompaction _
  | Req_GetCompactionState _ | Req_GetCompactionStateWithPlans _ => true
  | _ => false
  end.

(** With Params.EnableCompaction off, the four compaction handlers of a
    Healthy server answer UnexpectedError "compaction disabled" and do not
    reach the compaction trigger or handler: the server is unchanged. *)
Theorem compaction_handlers_when_disabled (rq : Request) (s : S) :
  isClosed s = false →
  Params_EnableCompaction = false →
  compactionRequest rq = true →
  statusOf (serve rq s).1 = Some (mkStatus ErrorCode_UnexpectedError "compaction disabled")
  ∧ (serve rq s).2 = s.
Proof.
  intros Hserving Hoff Hrq.
  destruct rq; try discriminate Hrq; cbn [serve wrap fst snd statusOf];
    unfold CompleteCompaction, ManualCompaction, GetCompactionState,
      GetCompactionStateWithPlans;
    rewrite Hserving, Hoff; done.
Qed.

Lemma countState_total (tasks : list compactionTask) :
  datacoord_spec.countState executing tasks + datacoord_spec.countState completed tasks
  + datacoord_spec.countState timeout tasks
  ≤ Z.of_nat (length tasks).
Proof.
  induction tasks as [|t tasks IH]; [done|].
  rewrite !datacoord_spec.countState_cons. cbn [length].
  destruct (state t); repeat case_decide; try done; lia.
Qed.

(** What a merge info says about its task. *)
Definition mergeInfoOf (task : compactionTask) (info : CompactionMergeInfo) : Prop :=
  CMI_Sources info = plan_SegmentBinlogs task
  ∧ match result task with
    | Some r => CMI_Target info = CR_SegmentID r
    | None => CMI_Target info = -1
    end.

(** With compaction enabled, GetCompactionState on a Healthy server answers
    Success and changes nothing; its three plan numbers are not negative
    and add up to at most the number of tasks of the compaction (pipelining
    and failed tasks are counted nowhere); the state is Executing exactly
    when ExecutingPlanNo is not 0.  GetCompactionStateWithPlans reports the
    same state, with one merge info per task, in order; the target of a
    task without a result is -1. *)
Theorem GetCompactionState_counts_plans (compactionID : UniqueID) (s : S) :
  isClosed s = false →
  Params_EnableCompaction = true →
  (GetCompactionState compactionID s).2 = s
  ∧ GCS_Status (GetCompactionState compactionID s).1 = mkStatus ErrorCode_Success ""
  ∧ 0 ≤ GCS_ExecutingPlanNo (GetCompactionState compactionID s).1
  ∧ 0 ≤ GCS_CompletedPlanNo (GetCompactionState compactionID s).1
  ∧ 0 ≤ GCS_TimeoutPlanNo (GetCompactionState compactionID s).1
  ∧ GCS_ExecutingPlanNo (GetCompactionState compactionID s).1
    + GCS_CompletedPlanNo (GetCompactionState compactionID s).1
    + GCS_TimeoutPlanNo (GetCompactionState compactionID s).1
    ≤ Z.of_nat (length (getCompactionTasksBySignalID compactionID s))
  ∧ (GCS_State (GetCompactionState compactionID s).1 = CompactionState_Executing
     ↔ GCS_ExecutingPlanNo (GetCompactionState compactionID s).1 ≠ 0)
  ∧ (GetCompactionStateWithPlans compactionID s).2 = s
  ∧ GCP_Status (GetCompactionStateWithPlans compactionID s).1
    = mkStatus ErrorCode_Success ""
  ∧ GCP_State (GetCompactionStateWithPlans compactionID s).1
    = GCS_State (GetCompactionState compactionID s).1
  ∧ Forall2 mergeInfoOf (getCompactionTasksBySignalID compactionID s)
      (GCP_MergeInfos (GetCompactionStateWithPlans compactionID s).1).
Proof.
  intros Hserving Hon. unfold GetCompactionState, GetCompactionStateWithPlans.
  rewrite Hserving, Hon. cbn [negb].
  set (tasks := getCompactionTasksBySignalID compactionID s).
  pose proof (countState_total tasks) as Htotal.
  pose proof (datacoord_spec.countState_nonneg executing tasks).
  pose proof (datacoord_spec.countState_nonneg completed tasks).
  pose proof (datacoord_spec.countState_nonneg timeout tasks).
  unfold getCompactionState. rewrite datacoord_spec.foldl_countTask, !Z.add_0_l. cbn.
  do 5 (split; [done|]). split; [exact Htotal|].
  split; [case_bool_decide; split; intros; done|].
  do 3 (split; [done|]).
  clear. clearbody tasks. induction tasks as [|t tasks IH]; [constructor|].
  cbn. constructor; [|apply IH].
  unfold mergeInfoOf, getCompactionMergeInfo. cbn. split; [done|].
  by destruct (result t).
Qed.

(** ** GetMetrics *)

(** GetMetrics returns a Go error, returns a nil response, or changes the
    server only on one path: the server is Healthy, the request parses to
    SystemInfoMetrics, and the metrics cache has no usable entry; what it
    returns then is what getSystemInfoMetrics computed, which is also put
    into the cache (even when the computation failed). *)
Theorem GetMetrics_recomputes_on_cache_miss (request : string) (s : S) :
  (GetMetrics request s).1.2 ≠ None
  ∨ (GetMetrics request s).1.1 = None
  ∨ (GetMetrics request s).2 ≠ s →
  isClosed s = false
  ∧ ParseMetricType request = Ok SystemInfoMetrics
  ∧ (∀ ret, GetSystemInfoMetrics s ≠ (Some ret, None))
  ∧ GetMetrics request s
    = ((getSystemInfoMetrics request s).1.1, (getSystemInfoMetrics request s).1.2,
       UpdateSystemInfoMetrics (getSystemInfoMetrics request s).1.1
         (getSystemInfoMetrics request s).2).
Proof.
  unfold GetMetrics. destruct (isClosed s); cbn; [intros [?|[?|?]]; done|].
  destruct (ParseMetricType request) as [metricType|err]; cbn;
    [|intros [?|[?|?]]; done].
  case_bool_decide as Hmt; cbn; [subst|intros [?|[?|?]]; done].
  destruct (GetSystemInfoMetrics s) as [[ret|] [err|]] eqn:Ecache; cbn;
    try (intros [?|[?|?]]; done); intros _;
    (split; [done|]); (split; [done|]); (split; [intros ret'; congruence|]);
    by destruct (getSystemInfoMetrics request s) as [[metrics err'] s1].
Qed.

(** ** Handlers that only read *)

Definition queryOnly (rq : Request) : bool :=
  match rq with
  | Req_GetTimeTickChannel | Req_GetStatisticsChannel | Req_GetSegmentInfoChannel
  | Req_GetComponentStates | Req_GetSegmentStates _ | Req_GetInsertBinlogPaths _
  | Req_GetCollectionStatistics _ | Req_GetPartitionStatistics _ _
  | Req_GetSegmentInfo _ | Req_GetFlushedSegments _
  | Req_GetCompactionState _ | Req_GetCompactionStateWithPlans _ => true
  | _ => false
  end.

(** Twelve of the handlers never change the server, whatever its state,
    their input and the implementation of the components: the three
    channel-name getters, GetComponentStates, GetSegmentStates,
    GetInsertBinlogPaths, the two statistics handlers, GetSegmentInfo,
    GetFlushedSegments, GetCompactionState and
    GetCompactionStateWithPlans. *)
Theorem query_handlers_change_nothing (rq : Request) (s : S) :
  queryOnly rq = true → (serve rq s).2 = s.
Proof.
  intros Hrq.
  destruct rq; try discriminate Hrq; cbn [serve wrap snd];
    unfold GetSegmentStates, GetInsertBinlogPaths, GetCollectionStatistics,
      GetPartitionStatistics, GetSegmentInfo, GetFlushedSegments, GetCompactionState,
      GetCompactionStateWithPlans;
    try done; destruct (isClosed s); try done.
  - by destruct (GetSegment segmentID s).
  - by destruct (collectInfos s segmentIDs []).
  - destruct (negb Params_EnableCompaction); [done|].
    by destruct (getCompactionState _) as [[[? ?] ?] ?].
  - destruct (negb Params_EnableCompaction); [done|].
    by destruct (getCompactionState _) as [[[? ?] ?] ?].
Qed.

End handlers.

(** ** The handlers on concrete servers *)

Section on_samples.
Import testbed samples.coord.

Lemma GetSegmentStates_answers_every_id_witness :
  isClosed healthy = false
  ∧ map SSI_SegmentID (GSS_States (GetSegmentStates [1; 99; 2] healthy).1) = [1; 99; 2].
Proof.
  split; [reflexivity|].
  apply (GetSegmentStates_answers_every_id [1; 99; 2] healthy). reflexivity.
Defined.

Lemma GetSegmentInfo_all_or_nothing_witness :
  isClosed healthy = false ∧ (GetSegmentInfo [1; 99; 2] healthy).2 = healthy.
Proof.
  split; [reflexivity|].
  apply (GetSegmentInfo_all_or_nothing [1; 99; 2] healthy). reflexivity.
Defined.

Lemma GetInsertBinlogPaths_pairs_fields_and_paths_witness :
  isClosed recovering = false ∧ (GetInsertBinlogPaths 2 recovering).2 = recovering.
Proof.
  split; [reflexivity|].
  apply (GetInsertBinlogPaths_pairs_fields_and_paths 2 recovering). reflexivity.
Defined.

Lemma GetComponentStates_healthy_iff_serving_witness :
  ServerStateInitializing ≠ ServerStateHealthy
  ∧ (CI_StateCode (CS_State (GetComponentStates healthy).1) = StateCode_Healthy
     ↔ isClosed healthy = false).
Proof.
  assert (ServerStateInitializing ≠ ServerStateHealthy) as Hne by (intros Heq; discriminate Heq).
  split; [exact Hne|].
  apply (GetComponentStates_healthy_iff_serving healthy Hne).
Defined.

Lemma GetRecoveryInfo_missing_segment_witness :
  isClosed healthy = false
  ∧ GetRecoveryInfo (Meta0 := staleMeta) (mkGetRecoveryInfoRequest 42 7) healthy
    = ({| GRR_Status :=
            mkStatus ErrorCode_UnexpectedError ("failed to get segment " +:+ fmt_d 77);
          GRR_Channels := []; GRR_Binlogs := [] |}, healthy).
Proof.
  split; [reflexivity|].
  apply (GetRecoveryInfo_missing_segment (Meta0 := staleMeta)
           (mkGetRecoveryInfoRequest 42 7) healthy [2] [3] 77).
  - reflexivity.
  - reflexivity.
  - constructor; [eexists; reflexivity|constructor].
  - reflexivity.
Defined.

Lemma GetRecoveryInfo_hands_out_flushed_segments_witness :
  isClosed recovering = false
  ∧ (∃ segments,
       mapM (fun id => GetSegment id recovering) (GetSegmentsIDOfPartition 42 7 recovering)
       = Some segments)
  ∧ GRR_Status (GetRecoveryInfo (mkGetRecoveryInfoRequest 42 7) recovering).1
    = mkStatus ErrorCode_Success "".
Proof.
  assert (isClosed recovering = false) as Hs by reflexivity.
  assert (∃ segments,
            mapM (fun id => GetSegment id recovering)
                 (GetSegmentsIDOfPartition 42 7 recovering) = Some segments) as [segs Hm]
    by (vm_compute; eexists; reflexivity).
  split; [exact Hs|]. split; [by exists segs|].
  pose proof (GetRecoveryInfo_hands_out_flushed_segments
                (mkGetRecoveryInfoRequest 42 7) recovering segs Hs Hm) as Hthm.
  cbn [GRI_CollectionID GRI_PartitionID] in Hthm.
  destruct (DescribeCollection 42 recovering) as [[channels|err] s1] eqn:E.
  - apply Hthm.
  - exfalso. vm_compute in E. discriminate E.
Defined.

Lemma WatchChannels_stops_at_first_failure_witness :
  isClosed healthy = false
  ∧ WCResp_Status
      (WatchChannels (mkWatchChannelsRequest 42 (["c1"] ++ ["c9"])) healthy).1
    = mkStatus ErrorCode_Success "".
Proof.
  assert (isClosed healthy = false) as Hs by reflexivity.
  split; [exact Hs|].
  rewrite (WatchChannels_stops_at_first_failure 42 ["c1"] ["c9"] healthy Hs).
  reflexivity.
Defined.

Lemma AssignSegmentID_splits_witness :
  isClosed healthy = false
  ∧ isClosed (AssignSegmentID [mkSegmentIDRequest 5 "c1" 7 1] healthy).2 = false
  ∧ ASR_Status
      (AssignSegmentID
         ([mkSegmentIDRequest 5 "c1" 7 1] ++ [mkSegmentIDRequest 30 "c1" 42 7]) healthy).1
    = mkStatus ErrorCode_Success "".
Proof.
  assert (isClosed healthy = false) as Hs by reflexivity.
  assert (isClosed (AssignSegmentID [mkSegmentIDRequest 5 "c1" 7 1] healthy).2 = false)
    as Hs1 by reflexivity.
  split; [exact Hs|]. split; [exact Hs1|].
  rewrite (AssignSegmentID_splits [mkSegmentIDRequest 5 "c1" 7 1]
             [mkSegmentIDRequest 30 "c1" 42 7] healthy Hs Hs1).
  reflexivity.
Defined.

Lemma compaction_handlers_when_disabled_witness :
  isClosed healthy = false
  ∧ Params_EnableCompaction = false
  ∧ (serve (Req_ManualCompaction (mkManualCompactionRequest 42 0)) healthy).2 = healthy.
Proof.
  split; [reflexivity|]. split; [reflexivity|].
  apply (compaction_handlers_when_disabled
           (Req_ManualCompaction (mkManualCompactionRequest 42 0)) healthy);
    reflexivity.
Defined.

Lemma GetCompactionState_counts_plans_witness :
  isClosed (H := compactingConsts) healthy = false
  ∧ @Params_EnableCompaction compactingConsts = true
  ∧ GCS_Status
      (GetCompactionState (H := compactingConsts) (Compaction0 := compactionOf9)
         9 healthy).1
    = mkStatus ErrorCode_Success "".
Proof.
  split; [reflexivity|]. split; [reflexivity|].
  apply (GetCompactionState_counts_plans (H := compactingConsts)
           (Compaction0 := compactionOf9) 9 healthy); reflexivity.
Defined.

Lemma GetMetrics_recomputes_on_cache_miss_witness :
  (GetMetrics "system_info" healthy).1.2 ≠ None ∧ isClosed healthy = false.
Proof.
  assert ((GetMetrics "system_info" healthy).1.2 ≠ None) as Herr
    by (intros Heq; discriminate Heq).
  split; [exact Herr|].
  apply (GetMetrics_recomputes_on_cache_miss "system_info" healthy). by left.
Defined.

Lemma query_handlers_change_nothing_witness :
  queryOnly (Req_GetSegmentStates [1; 99]) = true
  ∧ (serve (Req_GetSegmentStates [1; 99]) healthy).2 = healthy.
Proof.
  split; [reflexivity|].
  apply (query_handlers_change_nothing (Req_GetSegmentStates [1; 99]) healthy).
  reflexivity.
Defined.

End on_samples.

End datacoord_handlers.

(** * More properties of the DataNode flush manager (flush_manager.go) *)

Module datanode_flush.
Import datanode.

Local Arguments getFlushTaskRunner : simpl never.
Local Arguments handler_close : simpl never.

(** ** The manager and its queues *)

Section manager.
Context `{FlushEnv E}.

(** A flushBufferData or flushDelData call that returns an error has
    enqueued nothing: every failure (segment not in the replica, no
    collection or schema, codec, allocator, a binlog key that is not a
    field id) is found before the queue is touched, and the manager is as
    it was. *)
Theorem failed_flush_enqueues_nothing (segID : UniqueID) (p : MsgPosition)
    (m : rendezvousFlushManager) (e : E) :
  (∀ data flushed dropped er m' e',
     flushBufferData data segID flushed dropped p m e = Some (Some er, m', e') → m' = m)
  ∧ (∀ data er m' e', flushDelData data segID p m e = Some (Some er, m', e') → m' = m).
Proof.
  split.
  - intros data flushed dropped er m' e'. unfold flushBufferData.
    destruct (data ≫= buffer) as [buf|].
    + destruct (getSegmentMeta segID p e) as [[[[collID partID] meta]|er0] e1];
        [|by intros [= _ <- _]].
      destruct (InsertCodec_Serialize meta partID segID buf) as [[binLogs statsBinlogs]|er0];
        [|by intros [= _ <- _]].
      destruct (allocIDBatch _ e1) as [[[start end_]|er0] e2]; [|by intros [= _ <- _]].
      destruct (insertLoop _ _ _ _ _ _ _) as [a|er0]; [|by intros [= _ <- _]].
      destruct (statsLoop _ _ _ _ _ _) as [[kvs' field2Stats]|er0]; [|by intros [= _ <- _]].
      destruct (enqueueInsertFlush _ _ _ _ _ _ _ _) as [[q e4]|]; cbn; [|done].
      intros [= ]; done.
    + destruct (enqueueInsertFlush _ _ _ _ _ _ _ _) as [[q e4]|]; cbn; [|done].
      intros [= ]; done.
  - intros data er m' e'. unfold flushDelData.
    destruct (data ≫= _) as [[d dd]|].
    + destruct (getCollectionAndPartitionID segID e) as [[collID partID]|er0];
        [|by intros [= _ <- _]].
      destruct (DeleteCodec_Serialize collID partID segID dd) as [blob|er0];
        [|by intros [= _ <- _]].
      destruct (allocID e) as [[logID|er0] e1]; [|by intros [= _ <- _]].
      destruct (enqueueDelFlush _ _ _ _ _ ) as [[q e4]|]; cbn; [|done].
      intros [= ]; done.
    + destruct (enqueueDelFlush _ _ _ _ _ ) as [[q e4]|]; cbn; [|done].
      intros [= ]; done.
Qed.

(** A flush for one segment leaves the queues of all other segments as they
    are, whether it succeeds or fails. *)
Theorem flush_touches_one_queue (segID other : UniqueID) (p : MsgPosition)
    (m : rendezvousFlushManager) (e : E) :
  other ≠ segID →
  (∀ data flushed dropped er m' e',
     flushBufferData data segID flushed dropped p m e = Some (er, m', e') →
     dispatcher m' !! other = dispatcher m !! other)
  ∧ (∀ data er m' e',
       flushDelData data segID p m e = Some (er, m', e') →
       dispatcher m' !! other = dispatcher m !! other).
Proof.
  intros Hne.
  assert (∀ q, dispatcher (putFlushQueue segID q m) !! other = dispatcher m !! other) as Hput
    by (intros q; cbn; by rewrite lookup_insert_ne).
  split.
  - intros data flushed dropped er m' e'. unfold flushBufferData.
    destruct (data ≫= buffer) as [buf|].
    + destruct (getSegmentMeta segID p e) as [[[[collID partID] meta]|er0] e1];
        [|by intros [= _ <- _]].
      destruct (InsertCodec_Serialize meta partID segID buf) as [[binLogs statsBinlogs]|er0];
        [|by intros [= _ <- _]].
      destruct (allocIDBatch _ e1) as [[[start end_]|er0] e2]; [|by intros [= _ <- _]].
      destruct (insertLoop _ _ _ _ _ _ _) as [a|er0]; [|by intros [= _ <- _]].
      destruct (statsLoop _ _ _ _ _ _) as [[kvs' field2Stats]|er0]; [|by intros [= _ <- _]].
      destruct (enqueueInsertFlush _ _ _ _ _ _ _ _) as [[q e4]|]; cbn; [|done].
      intros [= _ <- _]. apply Hput.
    + destruct (enqueueInsertFlush _ _ _ _ _ _ _ _) as [[q e4]|]; cbn; [|done].
      intros [= _ <- _]. apply Hput.
  - intros data er m' e'. unfold flushDelData.
    destruct (data ≫= _) as [[d dd]|].
    + destruct (getCollectionAndPartitionID segID e) as [[collID partID]|er0];
        [|by intros [= _ <- _]].
      destruct (DeleteCodec_Serialize collID partID segID dd) as [blob|er0];
        [|by intros [= _ <- _]].
      destruct (allocID e) as [[logID|er0] e1]; [|by intros [= _ <- _]].
      destruct (enqueueDelFlush _ _ _ _ _ ) as [[q e4]|]; cbn; [|done].
      intros [= _ <- _]. apply Hput.
    + destruct (enqueueDelFlush _ _ _ _ _ ) as [[q e4]|]; cbn; [|done].
      intros [= _ <- _]. apply Hput.
Qed.

(** *** Binlog keys *)

Definition insertPath (collID partID segID fieldID logidx : UniqueID) : string :=
  path_Join Params_InsertBinlogRootPath (genKey [collID; partID; segID; fieldID; logidx]).

Definition statsPath (collID partID segID fieldID logidx : UniqueID) : string :=
  path_Join Params_StatsBinlogRootPath (genKey [collID; partID; segID; fieldID; logidx]).

(** What the loop over binLogs keeps: the path of a field is built from the
    log index recorded for the field, and a log index is the one of a
    blob. *)
Definition keyedByLogidx (collID partID segID start : UniqueID) (n : nat)
    (a : insertKeys) : Prop :=
  ∀ fieldID,
    match field2Insert a !! fieldID with
    | Some path =>
        ∃ i, (i < n)%nat
             ∧ field2Logidx a !! fieldID = Some (int64_of (start + Z.of_nat i))
             ∧ path = insertPath collID partID segID fieldID (int64_of (start + Z.of_nat i))
    | None => field2Logidx a !! fieldID = None
    end.

Lemma insertLoop_keyed (collID partID segID start : UniqueID) (blobs : list Blob)
    (n : nat) (a a' : insertKeys) :
  insertLoop collID partID segID start (Z.of_nat n) blobs a = Ok a' →
  keyedByLogidx collID partID segID start n a →
  keyedByLogidx collID partID segID start (n + length blobs) a'.
Proof.
  revert n a. induction blobs as [|blob blobs IH]; intros n a Hloop Hkeyed.
  - cbn in Hloop. injection Hloop as <-. cbn. by rewrite Nat.add_0_r.
  - cbn [insertLoop] in Hloop.
    destruct (ParseInt (Blob_Key blob)) as [fieldID|er]; [|done].
    replace (Z.of_nat n + 1) with (Z.of_nat (S n)) in Hloop by lia.
    apply IH in Hloop; [cbn [length]; by rewrite Nat.add_succ_r|].
    intros f. cbn [field2Insert field2Logidx].
    destruct (decide (f = fieldID)) as [->|Hne].
    + rewrite !lookup_insert_eq. exists n. split; [lia|done].
    + rewrite !lookup_insert_ne by done. specialize (Hkeyed f).
      destruct (field2Insert a !! f); [|done].
      destruct Hkeyed as (i & Hi & ? & ?). exists i. split; [lia|done].
Qed.

Lemma statsLoop_paths (collID partID segID : UniqueID) (logidxs : gmap UniqueID UniqueID)
    (blobs : list Blob) (acc acc' : gmap string string * gmap UniqueID string) :
  statsLoop collID partID segID logidxs blobs acc = Ok acc' →
  ∀ fieldID path,
    acc'.2 !! fieldID = Some path →
    acc.2 !! fieldID = Some path
    ∨ path = statsPath collID partID segID fieldID (default 0 (logidxs !! fieldID)).
Proof.
  revert acc. induction blobs as [|blob blobs IH]; intros acc Hloop f path Hl.
  - cbn in Hloop. injection Hloop as <-. by left.
  - cbn [statsLoop] in Hloop.
    destruct (ParseInt (Blob_Key blob)) as [fieldID|er]; [|done].
    destruct (IH _ Hloop f path Hl) as [Hacc|?]; [|by right].
    cbn in Hacc. destruct (decide (f = fieldID)) as [->|Hne].
    + rewrite lookup_insert_eq in Hacc. injection Hacc as <-. by right.
    + rewrite lookup_insert_ne in Hacc by done. by left.
Qed.

(** The two key loops of flushBufferData give the stats binlog of a field
    the log id of the field's insert binlog of the same flush, which is
    start + the index of a blob of binLogs; a stats blob for a field
    without an insert binlog gets the log id 0 (the zero value of the
    missing map entry). *)
Theorem statslog_shares_log_id (collID partID segID start : UniqueID)
    (binLogs statsBinlogs : list Blob) (a : insertKeys)
    (kvs' : gmap string string) (field2Stats : gmap UniqueID string) :
  insertLoop collID partID segID start 0 binLogs (mkinsertKeys ∅ ∅ ∅) = Ok a →
  statsLoop collID partID segID (field2Logidx a) statsBinlogs (kvs a, ∅)
  = Ok (kvs', field2Stats) →
  ∀ fieldID spath,
    field2Stats !! fieldID = Some spath →
    match field2Insert a !! fieldID with
    | Some ipath =>
        ∃ i, (i < length binLogs)%nat
             ∧ ipath = insertPath collID partID segID fieldID (int64_of (start + Z.of_nat i))
             ∧ spath = statsPath collID partID segID fieldID (int64_of (start + Z.of_nat i))
    | None => spath = statsPath collID partID segID fieldID 0
    end.
Proof.
  intros Hins Hstats fieldID spath Hl.
  pose proof (insertLoop_keyed collID partID segID start binLogs 0 _ a Hins) as Hkeyed.
  specialize (Hkeyed ltac:(intros f; cbn; by rewrite !lookup_empty) fieldID).
  destruct (statsLoop_paths _ _ _ _ _ _ _ Hstats fieldID spath Hl) as [Hacc | ->].
  { cbn in Hacc. by rewrite lookup_empty in Hacc. }
  destruct (field2Insert a !! fieldID) as [ipath|].
  - destruct Hkeyed as (i & Hi & -> & ->). exists i. cbn. split; [lia|done].
  - f_equal. change (default 0 (field2Logidx a !! fieldID) = 0).
    by destruct (field2Logidx a !! fieldID).
Qed.

End manager.

(** *** injectFlush *)

Lemma getFlushQueue_put_ne (segID other : UniqueID) (q : orderFlushQueue)
    (m : rendezvousFlushManager) :
  other ≠ segID → getFlushQueue other (putFlushQueue segID q m) = getFlushQueue other m.
Proof. intros Hne. unfold getFlushQueue, putFlushQueue. cbn. by rewrite lookup_insert_ne. Qed.

(** injectFlush sends the injection to the queue of every segment listed
    (creating the queue of a segment it sees for the first time) and leaves
    all other queues alone; the segments being distinct, each listed queue
    receives the injection once, at the end of its injectCh.  The call
    returns when none of these queues has 100 injections pending. *)
Theorem injectFlush_reaches_listed_queues (injection : taskInjection)
    (segments : list UniqueID) (m : rendezvousFlushManager) :
  NoDup segments →
  (∀ m', injectFlush injection segments m = Some m' →
     (∀ other, other ∉ segments → dispatcher m' !! other = dispatcher m !! other)
     ∧ (∀ segID, segID ∈ segments →
          dispatcher m' !! segID = inject injection (getFlushQueue segID m)
          ∧ ∃ q, dispatcher m' !! segID = Some q
                 ∧ injectCh q = injectCh (getFlushQueue segID m) ++ [injection]))
  ∧ (Forall (fun segID =>
               (length (injectCh (getFlushQueue segID m)) < injectChCap)%nat) segments →
     is_Some (injectFlush injection segments m)).
Proof.
  intros Hnd. revert m. induction Hnd as [|segID segments Hnotin Hnd IH]; intros m.
  { split; [|by eexists]. intros m' [= <-]. split; [done|].
    intros s Hin. by apply elem_of_nil in Hin. }
  assert (∀ q, inject injection (getFlushQueue segID m) = Some q →
               injectCh q = injectCh (getFlushQueue segID m) ++ [injection]) as Hch.
  { intros q. unfold inject. case_bool_decide; [|done]. by intros [= <-]. }
  cbn [injectFlush]. split.
  - intros m' Hm'.
    destruct (inject injection (getFlushQueue segID m)) as [q|] eqn:Einj; [|done].
    cbn in Hm'. destruct (IH (putFlushQueue segID q m)) as [IH1 _].
    destruct (IH1 m' Hm') as [Hother Hlisted]. split.
    + intros other Hout. apply not_elem_of_cons in Hout as [Hne Hout].
      rewrite (Hother other Hout). cbn. by rewrite lookup_insert_ne.
    + intros s Hin. apply elem_of_cons in Hin as [->|Hin].
      * rewrite (Hother segID Hnotin). cbn. rewrite lookup_insert_eq.
        split; [done|]. exists q. split; [done|]. by apply Hch.
      * assert (s ≠ segID) as Hne by (intros ->; done).
        destruct (Hlisted s Hin) as [Hl (q' & Hq' & Hc)].
        rewrite (getFlushQueue_put_ne _ _ _ _ Hne) in Hl, Hc.
        split; [done|]. by exists q'.
  - intros Hroom. apply Forall_cons in Hroom as [Hhead Hroom].
    unfold inject at 1. rewrite bool_decide_eq_true_2 by done. cbn.
    apply IH. eapply Forall_impl; [|by intros s Hs; exact Hs].
    apply Forall_forall. intros s Hin. rewrite Forall_forall in Hroom.
    rewrite getFlushQueue_put_ne; [by apply Hroom|]. intros ->. done.
Qed.

(** ** The request of flushNotifyFunc *)

Section notify.
Context `{DataSyncEnv N}.

Lemma fieldBinlogs_of_map (logs : gmap UniqueID string) :
  NoDup (map FieldBinlog_FieldID
           (map (fun '(k, v) => mkFieldBinlog k [v]) (map_to_list logs)))
  ∧ ∀ f paths,
      mkFieldBinlog f paths ∈ map (fun '(k, v) => mkFieldBinlog k [v]) (map_to_list logs)
      ↔ ∃ path, logs !! f = Some path ∧ paths = [path].
Proof.
  split.
  - assert (∀ L : list (UniqueID * string),
              map FieldBinlog_FieldID (map (fun '(k, v) => mkFieldBinlog k [v]) L)
              = L.*1) as ->.
    { induction L as [|[k v] L IH]; [done|]. cbn. f_equal. exact IH. }
    apply NoDup_fst_map_to_list.
  - intros f paths. rewrite list_elem_of_fmap. split.
    + intros ([k v] & [= -> ->] & Hin). exists v. split; [|done].
      by apply elem_of_map_to_list.
    + intros (path & Hl & ->). exists (f, path). split; [done|].
      by apply elem_of_map_to_list.
Qed.

(** The SaveBinlogPaths request built for a pack names the pack's segment
    and this node as its source, repeats the flushed and dropped flags,
    carries exactly one checkpoint, for the pack's segment at the pack's
    position, one delta log info per delta buffer, and every insert log and
    stats log of the pack exactly once, as a field with a single path. *)
Theorem buildRequest_carries_pack (pack : segmentFlushPack) (n : N) :
  let req := (buildRequest pack n).1 in
  SBP_SegmentID req = segmentID pack
  ∧ GetSourceID (SBP_Base req) = Params_NodeID
  ∧ SBP_Flushed req = flushed pack ∧ SBP_Dropped req = dropped pack
  ∧ (∃ rows, SBP_CheckPoints req = [mkCheckPoint (segmentID pack) (Some (pos pack)) rows])
  ∧ length (SBP_Deltalogs req) = length (deltaLogs pack)
  ∧ NoDup (map FieldBinlog_FieldID (SBP_Field2BinlogPaths req))
  ∧ NoDup (map FieldBinlog_FieldID (SBP_Field2StatslogPaths req))
  ∧ (∀ f paths, mkFieldBinlog f paths ∈ SBP_Field2BinlogPaths req
                ↔ ∃ path, insertLogs pack !! f = Some path ∧ paths = [path])
  ∧ (∀ f paths, mkFieldBinlog f paths ∈ SBP_Field2StatslogPaths req
                ↔ ∃ path, statsLogs pack !! f = Some path ∧ paths = [path]).
Proof.
  unfold buildRequest. destruct (listNewSegmentsStartPositions n) as [startPositions n1].
  cbn.
  destruct (fieldBinlogs_of_map (insertLogs pack)) as [Hnd1 Hmem1].
  destruct (fieldBinlogs_of_map (statsLogs pack)) as [Hnd2 Hmem2].
  do 4 (split; [done|]). split; [by eexists|]. split; [by rewrite length_map|].
  done.
Qed.

End notify.

(** ** The queue of one segment *)

Import datanode_spec.

(** getFlushTaskRunner is a LoadOrStore on the msgID of the position: the
    runner it returns is the one registered under that msgID afterwards, a
    second call for the same position returns the same runner and changes
    nothing, and the entries of other positions stay as they are.  A runner
    it creates is appended to the queue's runners, waits for the signal that
    was the tail, and its finishSignal becomes the new tail. *)
Theorem getFlushTaskRunner_load_or_store (p : MsgPosition) (q q1 : orderFlushQueue)
    (r : nat) :
  getFlushTaskRunner p q = Some (r, q1) →
  working q1 !! Pos_MsgID p = Some r
  ∧ getFlushTaskRunner p q1 = Some (r, q1)
  ∧ (∀ k, k ≠ Pos_MsgID p → working q1 !! k = working q !! k)
  ∧ match working q !! Pos_MsgID p with
    | Some r0 => r = r0 ∧ q1 = q
    | None =>
        r = length (runners q)
        ∧ ∃ t, runners q1 = runners q ++ [t]
               ∧ runner_msgID t = Pos_MsgID p
               ∧ stage t = Waiting
               ∧ startSignal t = tailCh q
               ∧ tailCh q1 = Some (finishSignal t)
               ∧ injectHandler q1 = None
    end.
Proof.
  intros Hg.
  destruct (getFlushTaskRunner_inv _ _ _ _ Hg) as [[Hl ->]|(Hnone & -> & q0 & Hclose & ->)].
  - rewrite Hl. by repeat split.
  - rewrite Hnone.
    assert (runners q0 = runners q ∧ tailCh q0 = tailCh q) as [Hr Ht].
    { destruct (injectHandler q) as [h|]; [|by subst].
      apply handler_close_same in Hclose. tauto. }
    assert (working q0 = working q) as Hw.
    { destruct (injectHandler q) as [h|]; [|by subst].
      apply handler_close_same in Hclose. tauto. }
    cbn. split; [apply lookup_insert_eq|]. split.
    + unfold getFlushTaskRunner. cbn. by rewrite lookup_insert_eq.
    + split; [intros k Hne; by rewrite lookup_insert_ne, Hw|].
      split; [done|]. eexists. split; [by rewrite Hr|]. cbn. by rewrite Ht.
Qed.

(** While a flush task is running no injection is handled: creating a runner
    takes the inject handler away (every handler goroutine has returned),
    so an injection sent afterwards is only put at the end of injectCh and
    no handler can receive it. *)
Theorem injection_waits_for_running_task (p : MsgPosition) (q q1 : orderFlushQueue)
    (r : nat) :
  handlerInvariant q →
  working q !! Pos_MsgID p = None →
  getFlushTaskRunner p q = Some (r, q1) →
  injectHandler q1 = None
  ∧ (∀ h pc, handlers q1 !! h = Some pc → pc = HExited)
  ∧ ∀ i q2, inject i q1 = Some q2 →
            injectCh q2 = injectCh q1 ++ [i]
            ∧ ∀ l, labelHandler l ≠ None → stepf l q2 = None.
Proof.
  intros Hinv Hnone Hg.
  destruct (getFlushTaskRunner_inv _ _ _ _ Hg) as [[Hl _]|(_ & -> & q0 & Hclose & ->)];
    [congruence|].
  assert (∀ h pc, handlers q0 !! h = Some pc → pc = HExited) as Hexited.
  { destruct (injectHandler q) as [h|] eqn:Eh.
    - by destruct (handler_close_all_exited h q q0 Hinv Eh Hclose) as (_ & _ & ?).
    - subst q0. intros h pc Hl. destruct (decide (pc = HExited)) as [|Hpc]; [done|].
      destruct Hinv as [_ Halive]. destruct (Halive h pc Hl Hpc) as [? _]. congruence. }
  cbn. split; [done|]. split; [done|].
  intros i q2. unfold inject. cbn. case_bool_decide; [|done]. intros [= <-].
  split; [done|]. intros l Hl.
  destruct l; try done; cbn;
    (destruct (handlers q0 !! h) as [pc|] eqn:E; [|done]);
    by rewrite (Hexited _ _ E).
Qed.

(** postTask takes the task of the pack out of [working], and gives the
    queue a new inject handler, standing at its select, exactly when the
    task was the last one running; that handler then receives the oldest
    injection waiting in injectCh.  (runningTasks is an int32; the
    statement is for a value in its range.) *)
Theorem postTask_reopens_injection (pack : segmentFlushPack)
    (postInj : option postInjectionFunc) (q : orderFlushQueue) :
  - 2 ^ 31 ≤ runningTasks q < 2 ^ 31 →
  working (postTask pack postInj q).2 = delete (Pos_MsgID (pos pack)) (working q)
  ∧ injectCh (postTask pack postInj q).2 = injectCh q
  ∧ (runningTasks q = 1 →
     ∃ h, injectHandler (postTask pack postInj q).2 = Some h
          ∧ handlers q !! h = None
          ∧ handlers (postTask pack postInj q).2 !! h = Some HSelect
          ∧ ∀ i rest, injectCh q = i :: rest →
              ∃ q', stepf (L_receive h) (postTask pack postInj q).2 = Some q'
                    ∧ handlers q' !! h = Some (HReceived i)
                    ∧ injectCh q' = rest)
  ∧ (runningTasks q ≠ 1 →
     injectHandler (postTask pack postInj q).2 = injectHandler q
     ∧ handlers (postTask pack postInj q).2 = handlers q).
Proof.
  intros Hrange.
  assert (wrap32 (runningTasks q - 1) = 0 ↔ runningTasks q = 1) as Hzero.
  { destruct (decide (runningTasks q = - 2 ^ 31)) as [->|Hne]; [by vm_compute|].
    rewrite wrap32_small by lia. lia. }
  unfold postTask. cbn. case_bool_decide as Hz; cbn.
  - apply Hzero in Hz. split; [done|]. split; [done|]. split; [|done].
    intros _. exists (length (handlers q)). split; [done|].
    split; [by apply lookup_ge_None_2|].
    split; [by apply list_lookup_middle|].
    intros i rest Hch. rewrite list_lookup_middle by done. rewrite Hch.
    eexists. split; [done|]. cbn. split; [|done].
    apply list_lookup_insert_eq. rewrite length_app. cbn. lia.
  - split; [done|]. split; [done|]. split; [|done]. intros H1. by apply Hzero in H1.
Qed.

(** Closing a queue (what rendezvousFlushManager.close does for each of its
    queues) waits exactly while the queue's handler is in the middle of an
    injection.  When it returns, the handler can take no further step, the
    queue still names it as its inject handler, and closing again changes
    nothing. *)
Theorem queue_close_stops_handler (q : orderFlushQueue) :
  (stepf L_close q = None ↔ handlingInjection q)
  ∧ ∀ q', stepf L_close q = Some q' →
          stepf L_close q' = Some q'
          ∧ injectHandler q' = injectHandler q
          ∧ injectCh q' = injectCh q
          ∧ runners q' = runners q
          ∧ ∀ h l, injectHandler q = Some h → labelHandler l = Some h →
                   handlers q !! h ≠ None → stepf l q' = None.
Proof.
  cbn [stepf]. unfold handlingInjection. split.
  - destruct (injectHandler q) as [h|]; [|split; [done|by intros (? & ? & ? & _)]].
    unfold handler_close. split.
    + destruct (handlers q !! h) as [pc|] eqn:E; [|done].
      intros Hc. exists h, pc. destruct pc; done.
    + intros (h' & pc & [= <-] & -> & Hs & He). by destruct pc.
  - intros q' Hc. destruct (injectHandler q) as [h|] eqn:Eh.
    + apply handler_close_inv in Hc as [[Hsel ->]|[Hex ->]].
      * cbn. rewrite Eh. unfold handler_close. cbn.
        assert (h < length (handlers q))%nat as Hlt by (by eapply lookup_lt_Some).
        rewrite list_lookup_insert_eq by done. do 4 (split; [done|]).
        intros h' l [= <-] Hl _. destruct l; try done; injection Hl as ->; cbn;
          by rewrite list_lookup_insert_eq.
      * rewrite Eh. unfold handler_close.
        split; [by destruct Hex as [-> | ->]|]. do 3 (split; [done|]).
        intros h' l [= <-] Hl Hsome. destruct Hex as [Hex|Hex]; [|done].
        destruct l; try done; injection Hl as ->; cbn; by rewrite Hex.
    + injection Hc as <-. rewrite Eh. by repeat split.
Qed.

(** ** The flush manager on concrete inputs *)

Section on_samples.
Import testnode samples.node.

Lemma flush_touches_one_queue_witness :
  (6 : UniqueID) ≠ 5
  ∧ ∀ er m' e',
      flushBufferData (Some someRows) 5 false false pos0001 manager0 env0
      = Some (er, m', e') →
      dispatcher m' !! (6 : UniqueID) = dispatcher manager0 !! (6 : UniqueID).
Proof.
  assert ((6 : UniqueID) ≠ 5) as Hne by (intros Heq; discriminate Heq).
  split; [exact Hne|].
  destruct (flush_touches_one_queue 5 6 pos0001 manager0 env0 Hne) as [Hins _].
  exact (Hins (Some someRows) false false).
Defined.

Lemma statslog_shares_log_id_witness :
  ∃ a kvs' field2Stats,
    insertLoop (H := parsingEnv) 42 7 5 100 0 binLogs (mkinsertKeys ∅ ∅ ∅) = Ok a
    ∧ statsLoop (H := parsingEnv) 42 7 5 (field2Logidx a) statsBinlogs (kvs a, ∅)
      = Ok (kvs', field2Stats)
    ∧ ∀ spath,
        field2Stats !! (101 : UniqueID) = Some spath →
        match field2Insert a !! (101 : UniqueID) with
        | Some ipath =>
            ∃ i, (i < length binLogs)%nat
                 ∧ ipath = insertPath (H := parsingEnv) 42 7 5 101
                             (int64_of (100 + Z.of_nat i))
                 ∧ spath = statsPath (H := parsingEnv) 42 7 5 101
                             (int64_of (100 + Z.of_nat i))
        | None => spath = statsPath (H := parsingEnv) 42 7 5 101 0
        end.
Proof.
  assert (∃ a kvs' field2Stats,
            insertLoop (H := parsingEnv) 42 7 5 100 0 binLogs (mkinsertKeys ∅ ∅ ∅) = Ok a
            ∧ statsLoop (H := parsingEnv) 42 7 5 (field2Logidx a) statsBinlogs (kvs a, ∅)
              = Ok (kvs', field2Stats)) as (a & kvs' & field2Stats & Hins & Hstats)
    by (do 3 eexists; split; [vm_compute; reflexivity|vm_compute; reflexivity]).
  exists a, kvs', field2Stats. split; [exact Hins|]. split; [exact Hstats|].
  exact (statslog_shares_log_id (H := parsingEnv) 42 7 5 100 binLogs statsBinlogs
           a kvs' field2Stats Hins Hstats 101).
Defined.

Lemma injectFlush_reaches_listed_queues_witness :
  NoDup [5; 6 : UniqueID] ∧ is_Some (injectFlush 7%nat [5; 6] manager0).
Proof.
  assert (NoDup [5; 6 : UniqueID]) as Hnd.
  { apply NoDup_cons. split; [|apply NoDup_singleton].
    intros Hin. apply list_elem_of_singleton in Hin. discriminate Hin. }
  split; [exact Hnd|].
  destruct (injectFlush_reaches_listed_queues 7%nat [5; 6] manager0 Hnd) as [_ Hroom].
  apply Hroom. repeat constructor; vm_compute; lia.
Defined.

Lemma getFlushTaskRunner_load_or_store_witness :
  ∃ q1, getFlushTaskRunner pos0001 queueOfSegment5 = Some (0%nat, q1)
        ∧ getFlushTaskRunner pos0001 q1 = Some (0%nat, q1).
Proof.
  assert (∃ q1, getFlushTaskRunner pos0001 queueOfSegment5 = Some (0%nat, q1)) as [q1 Hg]
    by (vm_compute; eexists; reflexivity).
  exists q1. split; [exact Hg|].
  apply (getFlushTaskRunner_load_or_store pos0001 queueOfSegment5 q1 0 Hg).
Defined.

Lemma injection_waits_for_running_task_witness :
  handlerInvariant queueOfSegment5
  ∧ working queueOfSegment5 !! Pos_MsgID pos0001 = None
  ∧ ∃ q1, getFlushTaskRunner pos0001 queueOfSegment5 = Some (0%nat, q1)
          ∧ injectHandler q1 = None.
Proof.
  assert (handlerInvariant queueOfSegment5) as Hinv by apply freshQueue_handlerInvariant.
  assert (working queueOfSegment5 !! Pos_MsgID pos0001 = None) as Hnone by reflexivity.
  assert (∃ q1, getFlushTaskRunner pos0001 queueOfSegment5 = Some (0%nat, q1)) as [q1 Hg]
    by (vm_compute; eexists; reflexivity).
  split; [exact Hinv|]. split; [exact Hnone|]. exists q1. split; [exact Hg|].
  apply (injection_waits_for_running_task pos0001 queueOfSegment5 q1 0 Hinv Hnone Hg).
Defined.

(** The queue of segment 5 with one flush task registered, at "0001". *)
Definition oneRunning : orderFlushQueue :=
  default queueOfSegment5 (snd <$> getFlushTaskRunner pos0001 queueOfSegment5).

Lemma postTask_reopens_injection_witness :
  - 2 ^ 31 ≤ runningTasks oneRunning < 2 ^ 31
  ∧ runningTasks oneRunning = 1
  ∧ ∃ h, injectHandler (postTask (emptyPack 5 false false pos0001) None oneRunning).2
         = Some h.
Proof.
  assert (runningTasks oneRunning = 1) as Hone by reflexivity.
  assert (- 2 ^ 31 ≤ runningTasks oneRunning < 2 ^ 31) as Hrange by (rewrite Hone; lia).
  split; [exact Hrange|]. split; [exact Hone|].
  destruct (postTask_reopens_injection (emptyPack 5 false false pos0001) None
              oneRunning Hrange) as (_ & _ & Hlast & _).
  destruct (Hlast Hone) as (h & Hh & _). by exists h.
Defined.

End on_samples.

End datanode_flush.

Module datanode_service_spec.
Import datacoord datanode_service.

Section service.
Context `{ServiceEnv W}.

(** A segment the recovery loops take: it belongs to the collection and the
    channel of the service. *)
Definition compact (collectionID : UniqueID) (channelName : string)
    (segment : SegmentInfo) : Prop :=
  CollectionID segment = collectionID ∧ InsertChannel segment = channelName.

Lemma notCompact_false collectionID channelName segment :
  notCompact collectionID channelName segment = false
  ↔ compact collectionID channelName segment.
Proof.
  unfold notCompact, compact. rewrite orb_false_iff, !bool_decide_eq_false.
  split; intros [Hc Hn]; split.
  - by apply dec_stable.
  - by apply dec_stable.
  - by intros ?.
  - by intros ?.
Qed.

Global Instance compact_dec collectionID channelName segment :
  Decision (compact collectionID channelName segment).
Proof. unfold compact. apply _. Defined.

(** The two recovery loops of initNodes skip the segments of another
    collection or another channel: they do to the replica exactly what they
    would do for the list without those segments, whatever the replica
    does. *)
Theorem recovery_skips_foreign_segments (collectionID : UniqueID) (channelName : string)
    (segments : list SegmentInfo) (w : W) :
  recoverUnflushed collectionID channelName segments w
  = recoverUnflushed collectionID channelName
      (filter (compact collectionID channelName) segments) w
  ∧ recoverFlushed collectionID channelName segments w
    = recoverFlushed collectionID channelName
        (filter (compact collectionID channelName) segments) w.
Proof.
  split; revert w; induction segments as [|seg segments IH]; intros w; try done;
    rewrite filter_cons; cbn;
    destruct (notCompact collectionID channelName seg) eqn:E.
  - rewrite decide_False; [apply IH|]. intros Hc. apply notCompact_false in Hc. congruence.
  - rewrite decide_True by (by apply notCompact_false). cbn. rewrite E.
    destruct (DmlPosition seg); [|done].
    destruct (addNormalSegment _ _ _ _ _ _ _ _) as [[err|] w1]; [done|apply IH].
  - rewrite decide_False; [apply IH|]. intros Hc. apply notCompact_false in Hc. congruence.
  - rewrite decide_True by (by apply notCompact_false). cbn. rewrite E.
    destruct (addFlushedSegment _ _ _ _ _ _ _) as [[err|] w1]; [done|apply IH].
Qed.

Lemma recoverUnflushed_app collectionID channelName segments1 segments2 (w : W) :
  recoverUnflushed collectionID channelName (segments1 ++ segments2) w
  = match recoverUnflushed collectionID channelName segments1 w with
    | Returns (None, w1) => recoverUnflushed collectionID channelName segments2 w1
    | r => r
    end.
Proof.
  revert w. induction segments1 as [|seg segments1 IH]; intros w; [done|].
  cbn. destruct (notCompact collectionID channelName seg); [apply IH|].
  destruct (DmlPosition seg); [|done].
  destruct (addNormalSegment _ _ _ _ _ _ _ _) as [[err|] w1]; [done|apply IH].
Qed.

(** An unflushed segment of the service's collection and channel that comes
    without a DmlPosition makes initNodes, and so newDataSyncService, panic
    on a nil pointer, once the segments before it have been added: the
    checkpoint handed to addNormalSegment dereferences the position.  No
    flow graph node has been created at that point. *)
Theorem initNodes_panics_without_DmlPosition (vchanInfo : VchannelInfo)
    (service : dataSyncService W) (w1 w2 : W)
    (before after : list SegmentInfo) (us : SegmentInfo) :
  msFactory_SetParams
    {[ "PulsarAddress" := ParamString Params_PulsarAddress;
       "ReceiveBufSize" := ParamInt 1024;
       "PulsarBufSize" := ParamInt 1024 ]}
    (NewTimeTickedFlowGraph (world service)) = (None, w1) →
  VI_UnflushedSegments vchanInfo = before ++ us :: after →
  recoverUnflushed (dss_collectionID service) (VI_ChannelName vchanInfo) before w1
  = Returns (None, w2) →
  compact (dss_collectionID service) (VI_ChannelName vchanInfo) us →
  DmlPosition us = None →
  initNodes (Some vchanInfo) service = NilDereference
  ∧ (dss_collectionID service = VI_CollectionID vchanInfo →
     newDataSyncService true (world service) (Some vchanInfo) (dss_hasBlobKV service)
     = NilDereference).
Proof.
  intros Hparams Hsegs Hbefore Hcompact Hnil.
  assert (∀ service', world service' = world service →
                      dss_collectionID service' = dss_collectionID service →
                      initNodes (Some vchanInfo) service' = NilDereference) as Hinit.
  { intros service' Hw Hc. unfold initNodes. rewrite Hw, Hparams, Hc. cbn.
    rewrite Hsegs, recoverUnflushed_app, Hbefore. cbn.
    apply notCompact_false in Hcompact. by rewrite Hcompact, Hnil. }
  split; [by apply Hinit|].
  intros Hcoll. unfold newDataSyncService. cbn [negb].
  by rewrite Hinit.
Qed.

End service.

(** ** The service on a concrete channel *)

Section on_samples.
Import samples.service.

Lemma initNodes_panics_without_DmlPosition_witness :
  VI_UnflushedSegments vchanOf42
  = [samples.coord.flushedSegment; testbed.segmentOf 5 43 9 "c2" SegmentState_Growing 30]
    ++ testbed.segmentOf 1 42 7 "c1" SegmentState_Growing 10 :: []
  ∧ recoverUnflushed 42 "c1"
      [samples.coord.flushedSegment; testbed.segmentOf 5 43 9 "c2" SegmentState_Growing 30]
      emptyWorld
    = Returns (None, mkWorld [2] [] [] [])
  ∧ initNodes (Some vchanOf42) serviceOf42 = NilDereference
  ∧ newDataSyncService true emptyWorld (Some vchanOf42) true = NilDereference.
Proof.
  assert (recoverUnflushed (dss_collectionID serviceOf42) (VI_ChannelName vchanOf42)
            [samples.coord.flushedSegment;
             testbed.segmentOf 5 43 9 "c2" SegmentState_Growing 30] emptyWorld
          = Returns (None, mkWorld [2] [] [] [])) as Hbefore by reflexivity.
  assert (msFactory_SetParams
            {[ "PulsarAddress" := ParamString Params_PulsarAddress;
               "ReceiveBufSize" := ParamInt 1024;
               "PulsarBufSize" := ParamInt 1024 ]}
            (NewTimeTickedFlowGraph (world serviceOf42)) = (None, emptyWorld)) as Hparams
    by reflexivity.
  split; [reflexivity|]. split; [exact Hbefore|].
  destruct (initNodes_panics_without_DmlPosition vchanOf42 serviceOf42
              emptyWorld (mkWorld [2] [] [] [])
              [samples.coord.flushedSegment;
               testbed.segmentOf 5 43 9 "c2" SegmentState_Growing 30] []
              (testbed.segmentOf 1 42 7 "c1" SegmentState_Growing 10)
              Hparams eq_refl Hbefore (conj eq_refl eq_refl) eq_refl) as [Hinit Hnew].
  split; [exact Hinit|]. exact (Hnew eq_refl).
Defined.

End on_samples.
End datanode_service_spec.
